(** * Batch organiser: a shallow embedding of [generic_batch_organiser.py]

    The development models [organize_files_into_batches] as a function over an
    explicit world (the tree below the source directory, the lines printed so
    far, and the write history of the combined file that is currently open)
    in a small state-and-exception monad, and proves the properties of
    pairing, partitioning, transfer and concatenation.

    Scope of the model.
    - Integers are Python integers ([Z]); [//] is floor division and raises
      [ZeroDivisionError] on a zero divisor.
    - File names and file contents are byte strings ([string]); names are
      compared by byte value, which is the order [sorted] uses on paths of
      one directory (POSIX flavour).
    - [pathlib] is modelled as in CPython 3.8 to 3.12 ([suffix], [with_suffix]).
    - The file system is POSIX, without links.  The tree holds names and
      contents only: modes, owners and times are not part of it, and every
      file can be read and written.
    - The folder name and [combined_name] are bound as one entry each, and
      [text_ext] is matched literally.  That is what the path joins and the
      glob pattern of the script denote when [folder_prefix] has no
      separator ([separator_free]), [combined_name] is a single path
      component ([single_component]) and [text_ext] has no glob
      metacharacter and no separator ([literal_pattern]); every theorem
      whose statement depends on it has these as hypotheses.
    - [shutil.copy2] and [shutil.move] follow [shutil]'s source for regular
      files and directories.
    - The output stream of the combined file is buffered: what has reached
      the file before it is closed is a function [flushed] of the chunks
      written so far, a parameter of the model; it matters only when a text
      file of the batch bears the name of the combined file. *)

From Stdlib Require Import ZArith String Ascii List Lia Sorted.
From stdpp Require Import base strings gmap list sorting pretty.

#[local] Set Warnings "-register-all".
#[local] Open Scope string_scope.
#[local] Open Scope list_scope.
#[local] Open Scope Z_scope.

(** ** Python helpers *)

(** [a // b] *)
Definition floordiv (a b : Z) : option Z :=
  if b =? 0 then None else Some (a / b).

(** [range(n)] *)
Definition range (n : Z) : list Z := Z.of_nat <$> seq 0 (Z.to_nat n).

(** Normalisation of one slice bound against a sequence of length [len]. *)
Definition slice_index (i len : Z) : Z :=
  if i <? 0 then Z.max (i + len) 0 else Z.min i len.

(** [l[start:stop]] *)
Definition slice {A} (l : list A) (start stop : Z) : list A :=
  let len := Z.of_nat (length l) in
  let lo := slice_index start len in
  let hi := slice_index stop len in
  take (Z.to_nat (hi - lo)) (drop (Z.to_nat lo) l).

(** [enumerate(l)] *)
Definition enumerate {A} (l : list A) : list (Z * A) :=
  imap (λ i x, (Z.of_nat i, x)) l.

(** The line feed character and a string made of [n] copies of [c]. *)
Definition LF : string := String (ascii_of_nat 10) EmptyString.

Fixpoint replicate_char (n : nat) (c : ascii) : string :=
  match n with
  | O => EmptyString
  | S n' => String c (replicate_char n' c)
  end.

(** [f"{z:02d}"] *)
Definition fmt_02d (z : Z) : string :=
  let s := pretty z in
  if (String.length s <? 2)%nat then "0" +:+ s else s.

(** [s.endswith(t)], the match of the glob pattern [*t] for a literal [t]. *)
Definition endswith (s t : string) : bool :=
  (String.length t <=? String.length s)%nat
  && String.eqb (substring (String.length s - String.length t) (String.length t) s) t.

(** [s.rfind(c)] *)
Fixpoint rfind (c : ascii) (s : string) : option nat :=
  match s with
  | EmptyString => None
  | String a s' =>
      match rfind c s' with
      | Some i => Some (S i)
      | None => if Ascii.eqb a c then Some O else None
      end
  end.

(** [c in s] *)
Definition contains_char (c : ascii) (s : string) : bool :=
  match rfind c s with Some _ => true | None => false end.

(** ** pathlib *)

(** [PurePath.suffix] of a final component. *)
Definition suffix (name : string) : string :=
  match rfind "." name with
  | Some i =>
      if (0 <? i)%nat && (i <? String.length name - 1)%nat
      then substring i (String.length name - i) name
      else ""
  | None => ""
  end.

Inductive exn :=
  | ValueError
  | ZeroDivisionError
  | FileExistsError
  | FileNotFoundError
  | IsADirectoryError
  | NotADirectoryError
  | UnicodeDecodeError
  | ShutilError.

(** [PurePath.with_suffix], on the final component [name] of the path. *)
Definition with_suffix (name ext : string) : exn + string :=
  if contains_char "/" ext then inl ValueError
  else if (negb (String.eqb ext "") && negb (String.prefix "." ext)) || String.eqb ext "."
  then inl ValueError
  else if String.eqb name "" then inl ValueError
  else
    let old_suffix := suffix name in
    if String.eqb old_suffix "" then inr (name +:+ ext)
    else inr (substring 0 (String.length name - String.length old_suffix) name +:+ ext).

(** ** Partitioning *)

(** [(len(file_pairs) + batch_size - 1) // batch_size] *)
Definition num_batches_of (total batch_size : Z) : option Z :=
  floordiv (total + batch_size - 1) batch_size.

(** The pairs of batch [batch_num]: [file_pairs[start_idx:end_idx]]. *)
Definition batch_pairs_of {A} (file_pairs : list A) (batch_size batch_num : Z) : list A :=
  let start_idx := batch_num * batch_size in
  let end_idx := Z.min (start_idx + batch_size) (Z.of_nat (length file_pairs)) in
  slice file_pairs start_idx end_idx.

(** All batches, in the order of the loop over [range(num_batches)]. *)
Definition batches_of {A} (file_pairs : list A) (batch_size : Z) : option (list (list A)) :=
  match num_batches_of (Z.of_nat (length file_pairs)) batch_size with
  | Some num_batches => Some (batch_pairs_of file_pairs batch_size <$> range num_batches)
  | None => None
  end.

(** The spec's [ceiling(totalPairs / batchSize)], written from its words. *)
Definition ceiling_div (p q : Z) : Z :=
  if p mod q =? 0 then p / q else p / q + 1.

(** ** Text input and output

    Files hold bytes.  [open(path, 'r', encoding='utf-8').read()] decodes
    strictly and translates [\r\n] and [\r] to [\n]; a text is kept as its
    UTF-8 bytes, so writing it back (POSIX, where the line separator is
    [\n]) appends the same bytes. *)

Definition byte_in (lo hi : N) (c : ascii) : bool :=
  ((lo <=? N_of_ascii c) && (N_of_ascii c <=? hi))%N.

Definition continuation : ascii → bool := byte_in 128 191.

(** Strict UTF-8: no overlong form, no surrogate, nothing above U+10FFFF. *)
Fixpoint utf8_valid (s : string) : bool :=
  match s with
  | EmptyString => true
  | String b0 s1 =>
      if byte_in 0 127 b0 then utf8_valid s1
      else
        match s1 with
        | EmptyString => false
        | String b1 s2 =>
            if byte_in 194 223 b0 then continuation b1 && utf8_valid s2
            else
              match s2 with
              | EmptyString => false
              | String b2 s3 =>
                  if byte_in 224 239 b0 then
                    (if byte_in 224 224 b0 then byte_in 160 191 b1
                     else if byte_in 237 237 b0 then byte_in 128 159 b1
                     else continuation b1)
                    && continuation b2 && utf8_valid s3
                  else
                    match s3 with
                    | EmptyString => false
                    | String b3 s4 =>
                        if byte_in 240 244 b0 then
                          (if byte_in 240 240 b0 then byte_in 144 191 b1
                           else if byte_in 244 244 b0 then byte_in 128 143 b1
                           else continuation b1)
                          && continuation b2 && continuation b3 && utf8_valid s4
                        else false
                    end
              end
        end
  end.

Definition CR_char : ascii := ascii_of_nat 13.
Definition LF_char : ascii := ascii_of_nat 10.

(** Universal newlines on input. *)
Fixpoint universal_newlines (s : string) : string :=
  match s with
  | EmptyString => EmptyString
  | String c s' =>
      if Ascii.eqb c CR_char then
        match s' with
        | String c' s'' =>
            if Ascii.eqb c' LF_char then String LF_char (universal_newlines s'')
            else String LF_char (universal_newlines s')
        | EmptyString => String LF_char EmptyString
        end
      else String c (universal_newlines s')
  end.

(** [infile.read()] on the bytes [raw]; [None] is a decoding failure. *)
Definition decode_text (raw : string) : option string :=
  if utf8_valid raw then Some (universal_newlines raw) else None.

(** The separator written between two documents. *)
Definition PAGEBREAK : string := LF +:+ "TRP_PAGEBREAK" +:+ LF.

(** ** The file system below the source directory *)

Inductive node :=
  | File (content : string)
  | Dir (children : gmap string node).

Definition is_dir (o : option node) : bool :=
  match o with Some (Dir _) => true | _ => false end.

Definition is_file (o : option node) : bool :=
  match o with Some (File _) => true | _ => false end.

Definition present (o : option node) : bool :=
  match o with Some _ => true | None => false end.

(** The node at the relative path [p] below [n]. *)
Fixpoint lookup_path (p : list string) (n : node) : option node :=
  match p with
  | [] => Some n
  | k :: p' =>
      match n with
      | Dir m => match m !! k with Some c => lookup_path p' c | None => None end
      | File _ => None
      end
  end.

(** Bind the path [p] to [x]; nothing changes when the parent of [p] is
    not an existing directory. *)
Fixpoint put_path (p : list string) (x : node) (n : node) : node :=
  match p with
  | [] => x
  | k :: p' =>
      match n with
      | Dir m =>
          match p' with
          | [] => Dir (<[k := x]> m)
          | _ :: _ =>
              match m !! k with
              | Some c => Dir (<[k := put_path p' x c]> m)
              | None => n
              end
          end
      | File _ => n
      end
  end.

(** Remove the entry [name] of the directory [n]. *)
Definition delete_entry (name : string) (n : node) : node :=
  match n with
  | Dir m => Dir (delete name m)
  | File _ => n
  end.

(** The names [.] and [..], which every directory resolves. *)
Definition dot_name (name : string) : bool :=
  String.eqb name "." || String.eqb name "..".

(** [(source_path / name).exists()] *)
Definition entry_exists (name : string) (root : node) : bool :=
  match root with
  | Dir m => dot_name name || present (m !! name)
  | File _ => false
  end.

Definition name_le (a b : string) : Prop := String.leb a b = true.

#[global] Instance name_le_dec : RelDecision name_le.
Proof. intros a b. unfold name_le. apply _. Defined.

(** ** Arguments that are names *)

(** A single path component that names an entry: not empty, neither [.]
    nor [..], and without separator.  For such a [combined_name] the path
    [batch_folder / combined_name] is the entry [combined_name] of the batch
    folder, and its final component is [combined_name]. *)
Definition single_component (name : string) : bool :=
  negb (String.eqb name "") && negb (dot_name name) && negb (contains_char "/" name).

(** No path separator.  For such a [folder_prefix] the folder name is a
    single path component, and [source_path / folder_name] is an entry of
    the source directory. *)
Definition separator_free (s : string) : bool := negb (contains_char "/" s).

(** Neither a glob metacharacter nor a separator.  For such a [text_ext] the
    pattern made of a star and [text_ext] selects the direct entries whose
    name ends with [text_ext]. *)
Definition literal_pattern (s : string) : bool :=
  negb (contains_char "*" s) && negb (contains_char "?" s)
  && negb (contains_char "[" s) && negb (contains_char "/" s).

(** [sorted(source_path.glob(f"*{text_ext}"))], as names, for a [text_ext]
    that is a [literal_pattern]: the entries of any kind whose name ends
    with [text_ext], by byte value. *)
Definition glob_sorted (text_ext : string) (root : option node) : list string :=
  match root with
  | Some (Dir m) =>
      merge_sort name_le
        (filter (λ name, endswith name text_ext = true) (map_to_list m).*1)
  | _ => []
  end.

(** [open(p, 'w')] or [open(p, 'wb')] followed by writing [c] and closing. *)
Definition create_file (p : list string) (c : string) (root : node) : exn + node :=
  match lookup_path p root with
  | Some (Dir _) => inl IsADirectoryError
  | Some (File _) => inr (put_path p (File c) root)
  | None =>
      match lookup_path (removelast p) root with
      | Some (Dir _) => inr (put_path p (File c) root)
      | Some (File _) => inl NotADirectoryError
      | None => inl FileNotFoundError
      end
  end.

(** [(source_path / folder).mkdir(exist_ok=True)] *)
Definition mkdir_exist_ok (folder : string) (root : node) : exn + node :=
  match root with
  | File _ => inl NotADirectoryError
  | Dir m =>
      match m !! folder with
      | None => inr (Dir (<[folder := Dir ∅]> m))
      | Some (Dir _) => inr root
      | Some (File _) => inl FileExistsError
      end
  end.

(** [shutil.copy2(source_path / name, source_path / folder / name)]: a
    destination that is a directory receives the file under its own name.
    The content is copied; the mode and the times that [copystat] copies
    are not part of the tree. *)
Definition copy2 (name folder : string) (root : node) : exn + node :=
  if dot_name name then inl IsADirectoryError
  else
    match lookup_path [name] root with
    | None => inl FileNotFoundError
    | Some (Dir _) => inl IsADirectoryError
    | Some (File c) =>
        let dst := [folder; name] in
        let real_dst := if is_dir (lookup_path dst root) then dst ++ [name] else dst in
        create_file real_dst c root
    end.

(** [shutil.move(str(source_path / name), str(source_path / folder / name))]:
    a rename; into an existing directory the source keeps its name and must
    not be there yet; a directory cannot go into itself nor replace a regular
    file (the fallback [copytree] refuses), and it is copied with the missing
    parents when the rename finds none. *)
Definition move (name folder : string) (root : node) : exn + node :=
  if dot_name name then inl ShutilError
  else
    let dst := [folder; name] in
    let into_dir := is_dir (lookup_path dst root) in
    let real_dst := if into_dir then dst ++ [name] else dst in
    if into_dir && present (lookup_path real_dst root) then inl ShutilError
    else
      match lookup_path [name] root with
      | None => inl FileNotFoundError
      | Some x =>
          if String.eqb name folder then
            match x with
            | Dir _ => inl ShutilError
            | File _ => inl NotADirectoryError
            end
          else
            match lookup_path [folder] root, x with
            | Some (Dir _), Dir _ =>
                if is_file (lookup_path real_dst root) then inl FileExistsError
                else inr (delete_entry name (put_path real_dst x root))
            | Some (Dir _), File _ =>
                inr (delete_entry name (put_path real_dst x root))
            | Some (File _), _ => inl NotADirectoryError
            | None, File _ => inl FileNotFoundError
            | None, Dir _ =>
                inr (delete_entry name (put_path [folder] (Dir {[name := x]}) root))
            end
      end.

(** ** The world and the monad of the script *)

Record world := World {
  disk : option node;        (* the node at [source_path], if any *)
  stdout : list string;      (* the lines printed so far *)
  outbuf : list string       (* what was written to the open combined file *)
}.

Definition M (A : Type) : Type := world → (exn + A) * world.

#[global] Instance M_ret : MRet M := λ A a w, (inr a, w).

#[global] Instance M_bind : MBind M := λ A B f m w,
  match m w with
  | (inl e, w') => (inl e, w')
  | (inr a, w') => f a w'
  end.

Definition raise {A} (e : exn) : M A := λ w, (inl e, w).

(** [try: body finally: fin], for a [fin] that does not raise. *)
Definition finally {A} (body : M A) (fin : world → world) : M A := λ w,
  let '(r, w') := body w in (r, fin w').

Definition print (line : string) : M unit := λ w,
  (inr tt, World (disk w) (stdout w ++ [line]) (outbuf w)).

(** Run a file-system call on the tree below the source directory. *)
Definition on_disk (call : node → exn + node) : M unit := λ w,
  match disk w with
  | None => (inl FileNotFoundError, w)
  | Some root =>
      match call root with
      | inl e => (inl e, w)
      | inr root' => (inr tt, World (Some root') (stdout w) (outbuf w))
      end
  end.

(** The tree below the source directory, as it is now. *)
Definition get_disk : M (option node) := λ w, (inr (disk w), w).

(** A fresh output stream has written nothing. *)
Definition reset_outbuf : M unit := λ w,
  (inr tt, World (disk w) (stdout w) []).

(** [for x in l: body x] *)
Fixpoint for_each {A} (l : list A) (body : A → M unit) : M unit :=
  match l with
  | [] => mret tt
  | x :: l' => body x ;; for_each l' body
  end.

(** [with open(p, 'r', encoding='utf-8') as infile: infile.read()] *)
Definition read_text (p : list string) : M string := λ w,
  match disk w ≫= lookup_path p with
  | None => (inl FileNotFoundError, w)
  | Some (Dir _) => (inl IsADirectoryError, w)
  | Some (File raw) =>
      match decode_text raw with
      | Some s => (inr s, w)
      | None => (inl UnicodeDecodeError, w)
      end
  end.

(** ** The script *)

Section Organiser.

(** What has reached the combined file before it is closed, as a function
    of the chunks written so far (the buffering of the output stream). *)
Variable flushed : list string → string.

(** [open(p, 'w', encoding='utf-8')]: the file is created or truncated. *)
Definition open_w (p : list string) : M unit :=
  on_disk (create_file p "") ;; reset_outbuf.

(** [outfile.write(chunk)] *)
Definition write (p : list string) (chunk : string) : M unit := λ w,
  let history := outbuf w ++ [chunk] in
  (inr tt, World (put_path p (File (flushed history)) <$> disk w) (stdout w) history).

(** Leaving the [with] block of the output file: everything is flushed. *)
Definition close (p : list string) (w : world) : world :=
  World (put_path p (File (String.concat "" (outbuf w))) <$> disk w)
        (stdout w) (outbuf w).

(** The pairing loop; [file_pairs] is the list built so far. *)
Fixpoint pair_up (image_ext : string) (text_files : list string)
    (file_pairs : list (string * string)) : M (list (string * string)) :=
  match text_files with
  | [] => mret file_pairs
  | text_file :: rest =>
      match with_suffix text_file image_ext with
      | inl e => raise e
      | inr image_file =>
          source ← get_disk;
          if from_option (entry_exists image_file) false source
          then pair_up image_ext rest (file_pairs ++ [(text_file, image_file)])
          else
            print ("Warning: No matching " +:+ image_ext +:+ " for " +:+ text_file) ;;
            pair_up image_ext rest file_pairs
      end
  end.

(** Copy or move the two files of one pair. *)
Definition transfer (move_files : bool) (batch_folder : string)
    (pair : string * string) : M unit :=
  let '(text_file, image_file) := pair in
  if move_files then
    on_disk (move text_file batch_folder) ;;
    on_disk (move image_file batch_folder)
  else
    on_disk (copy2 text_file batch_folder) ;;
    on_disk (copy2 image_file batch_folder).

(** The body of the concatenation loop for document [i] of [n]. *)
Definition append_document (batch_folder : string) (combined_file : list string)
    (n : Z) (item : Z * (string * string)) : M unit :=
  let '(i, (text_file, _)) := item in
  content ← read_text [batch_folder; text_file];
  write combined_file content ;;
  if i <? n - 1 then write combined_file PAGEBREAK else mret tt.

(** Writing the combined file of a batch.  [batch_folder / combined_name]
    is bound as the entry [combined_name] of the batch folder, as it is for
    a [single_component]. *)
Definition concatenate (batch_folder combined_name : string)
    (batch_pairs : list (string * string)) : M unit :=
  let combined_file := [batch_folder; combined_name] in
  open_w combined_file ;;
  finally
    (for_each (enumerate batch_pairs)
       (append_document batch_folder combined_file (Z.of_nat (length batch_pairs))))
    (close combined_file).

Definition folder_name_of (folder_prefix : string) (batch_num : Z) : string :=
  folder_prefix +:+ "_" +:+ fmt_02d (batch_num + 1).

(** The body of the loop over the batches.  [source_path / folder_name] is
    bound as the entry [folder_name] of the source directory, as it is for
    a [separator_free] prefix, and the last line names the combined file by
    [combined_name], the final component of its path for a
    [single_component]. *)
Definition process_batch (batch_size : Z) (folder_prefix text_ext combined_name : string)
    (move_files : bool) (file_pairs : list (string * string)) (batch_num : Z) : M unit :=
  let operation := if move_files then "Moving" else "Copying" in
  let folder_name := folder_name_of folder_prefix batch_num in
  on_disk (mkdir_exist_ok folder_name) ;;
  print (LF +:+ "Processing " +:+ folder_name +:+ "...") ;;
  let batch_pairs := batch_pairs_of file_pairs batch_size batch_num in
  print ("  " +:+ operation +:+ " " +:+ pretty (length batch_pairs) +:+ " file pairs...") ;;
  for_each batch_pairs (transfer move_files folder_name) ;;
  print ("  Concatenating " +:+ text_ext +:+ " files...") ;;
  concatenate folder_name combined_name batch_pairs ;;
  print ("  Created " +:+ combined_name +:+ " with "
         +:+ pretty (length batch_pairs) +:+ " documents").

Definition organize_files_into_batches (source_dir : string) (batch_size : Z)
    (folder_prefix text_ext image_ext combined_name : string)
    (move_files : bool) : M unit :=
  source ← get_disk;
  if negb (present source) then
    print ("Error: Directory " +:+ source_dir +:+ " does not exist")
  else
    let text_files := glob_sorted text_ext source in
     print ("Scanning directory: " +:+ source_dir) ;;
     print ("Found " +:+ pretty (length text_files) +:+ " " +:+ text_ext +:+ " files") ;;
     file_pairs ← pair_up image_ext text_files [];
     print ("Found " +:+ pretty (length file_pairs) +:+ " complete file pairs") ;;
     match file_pairs with
     | [] => print "No file pairs found. Exiting."
     | _ :: _ =>
         match num_batches_of (Z.of_nat (length file_pairs)) batch_size with
         | None => raise ZeroDivisionError
         | Some num_batches =>
             print (LF +:+ "Creating " +:+ pretty num_batches +:+ " batches of up to "
                    +:+ pretty batch_size +:+ " pairs each") ;;
             for_each (range num_batches)
               (process_batch batch_size folder_prefix text_ext combined_name
                  move_files file_pairs) ;;
             print (LF +:+ replicate_char 60 "=") ;;
             print "Processing complete!" ;;
             print ("Created " +:+ pretty num_batches +:+ " batch folders") ;;
             print ("Total file pairs processed: " +:+ pretty (length file_pairs)) ;;
             print (replicate_char 60 "=")
         end
     end.

End Organiser.

(** A directory given by its listing, and a world with nothing printed. *)
Definition dir_of (l : list (string * node)) : node := Dir (list_to_map l).

Definition initial_world (root : option node) : world := World root [] [].

(** The chunks of a combined file with [docs] as documents, written from the
    spec's words: the separator strictly between consecutive documents. *)
Fixpoint interleave (sep : string) (docs : list string) : list string :=
  match docs with
  | [] => []
  | d :: ds =>
      match ds with
      | [] => [d]
      | _ :: _ => d :: sep :: interleave sep ds
      end
  end.

(** The pairing loop as a function of the tree alone: what [pair_up] returns
    or raises (it only reads the tree and prints). *)
Fixpoint pairing (image_ext : string) (source : option node)
    (text_files : list string) (file_pairs : list (string * string))
    : exn + list (string * string) :=
  match text_files with
  | [] => inr file_pairs
  | text_file :: rest =>
      match with_suffix text_file image_ext with
      | inl e => inl e
      | inr image_file =>
          if from_option (entry_exists image_file) false source
          then pairing image_ext source rest (file_pairs ++ [(text_file, image_file)])
          else pairing image_ext source rest file_pairs
      end
  end.

(** Discovery: the sorted text files, paired. *)
Definition discover (text_ext image_ext : string) (source : option node)
    : exn + list (string * string) :=
  pairing image_ext source (glob_sorted text_ext source) [].

(** The token of the separator, and the number of positions of [s] at which
    [tok] occurs. *)
Definition separator_token : string := "TRP_PAGEBREAK".

Fixpoint occurrences (tok s : string) : nat :=
  match s with
  | EmptyString => if String.prefix tok EmptyString then 1 else 0
  | String _ s' => (if String.prefix tok s then 1 else 0) + occurrences tok s'
  end.

(** [c] does not occur in [s]. *)
Fixpoint free_of (c : ascii) (s : string) : bool :=
  match s with
  | EmptyString => true
  | String a s' => negb (Ascii.eqb a c) && free_of c s'
  end.

(** [doc] is the text of the file of the pair [pr] in the folder [f] of the
    tree [d], as [read_text] returns it. *)
Definition document_on (f : string) (d : option node) (pr : string * string)
    (doc : string) : Prop :=
  ∃ raw, d ≫= lookup_path [f; pr.1] = Some (File raw) ∧ decode_text raw = Some doc.

(** The directory [mm] of a run that moves agrees with the directory [mc]
    of the run that copies: it lacks the entries [moved], which are regular
    files of [mc], and is equal elsewhere. *)
Definition agree (moved : gset string) (mc mm : gmap string node) : Prop :=
  (∀ k, mm !! k = if decide (k ∈ moved) then None else mc !! k)
  ∧ (∀ k, k ∈ moved → is_file (mc !! k) = true).

Definition related (wc wm : world) : Prop :=
  ∃ moved mc mm,
    disk wc = Some (Dir mc) ∧ disk wm = Some (Dir mm) ∧ agree moved mc mm.

(** The same, while the combined file of the folder [f] is open. *)
Definition related_in (f : string) (wc wm : world) : Prop :=
  outbuf wc = outbuf wm
  ∧ ∃ moved mc mm,
      disk wc = Some (Dir mc) ∧ disk wm = Some (Dir mm) ∧ agree moved mc mm
      ∧ is_dir (mc !! f) = true.

(** ** What a run leaves in the source directory and in the batch folders *)

(** No entry [n] in the source directory. *)
Definition gone (n : string) (d : option node) : Prop :=
  d ≫= lookup_path [n] = None.

(** The node [x] is the entry [n] of the folder [f] of the source directory,
    or the entry [n] of the directory [n] of that folder (where [shutil.move]
    puts it when the folder already holds a directory [n]). *)
Definition held (f n : string) (x : node) (d : option node) : Prop :=
  d ≫= lookup_path [f; n] = Some x ∨ d ≫= lookup_path [f; n; n] = Some x.

(** From [d] to [d'], an entry of the source directory other than [f'] is
    removed or left as it is, and what is below an entry [n] of a folder is
    left as it is, unless the folder is one of the [deleted] entries or it is
    [f'] and [n] is one of the [written] names. *)
Definition undisturbed (f' : string) (deleted written : string → Prop)
    (d d' : option node) : Prop :=
  (∀ n, n ≠ f' →
     d' ≫= lookup_path [n] = None ∨ d' ≫= lookup_path [n] = d ≫= lookup_path [n])
  ∧ (∀ f n p, ¬ deleted f → ¬ (f = f' ∧ written n) →
       d' ≫= lookup_path (f :: n :: p) = d ≫= lookup_path (f :: n :: p)).

(** From [d] to [d'], every entry of the source directory stays, and every
    regular file of the source directory stays as it is. *)
Definition retained (d d' : option node) : Prop :=
  ∀ n,
    (present (d ≫= lookup_path [n]) = true → present (d' ≫= lookup_path [n]) = true)
    ∧ (∀ c, d ≫= lookup_path [n] = Some (File c) → d' ≫= lookup_path [n] = Some (File c)).

(** The pair names that are the names of the members of a list of pairs. *)
Definition member_of (pairs : list (string * string)) (n : string) : Prop :=
  ∃ t i, (t, i) ∈ pairs ∧ (n = t ∨ n = i).

(** ** What a run prints, touches and leaves

    The definitions below state the further properties of the run. *)

(** The warnings of the pairing loop as a function of the tree: one line for
    every text file whose image does not exist, up to the first text file
    whose image name cannot be formed. *)
Fixpoint warnings (image_ext : string) (source : option node)
    (text_files : list string) : list string :=
  match text_files with
  | [] => []
  | text_file :: rest =>
      match with_suffix text_file image_ext with
      | inl _ => []
      | inr image_file =>
          if from_option (entry_exists image_file) false source
          then warnings image_ext source rest
          else ("Warning: No matching " +:+ image_ext +:+ " for " +:+ text_file)
               :: warnings image_ext source rest
      end
  end.

(** The line that announces the processing of a batch folder, and the
    lines that do. *)
Definition processing_line (folder_name : string) : string :=
  LF +:+ "Processing " +:+ folder_name +:+ "...".

Definition announces_processing (line : string) : bool :=
  String.prefix (LF +:+ "Processing ") line.

(** The lines that the body of the loop over the batches prints. *)
Definition batch_report (batch_size : Z) (folder_prefix text_ext combined_name : string)
    (move_files : bool) (file_pairs : list (string * string)) (batch_num : Z)
    : list string :=
  let operation := if move_files then "Moving" else "Copying" in
  let folder_name := folder_name_of folder_prefix batch_num in
  let batch_pairs := batch_pairs_of file_pairs batch_size batch_num in
  [LF +:+ "Processing " +:+ folder_name +:+ "...";
   "  " +:+ operation +:+ " " +:+ pretty (length batch_pairs) +:+ " file pairs...";
   "  Concatenating " +:+ text_ext +:+ " files...";
   "  Created " +:+ combined_name +:+ " with "
     +:+ pretty (length batch_pairs) +:+ " documents"].

(** From [d] to [d'], an entry of the source directory is left as it is
    unless it is one of the [removed] or of the [folder] names, and what is
    below an entry [n] of an entry [f] of the source directory is left as it
    is unless [f] is [removed] or [n] is one of the [written] names. *)
Definition confined (removed folder written : string → Prop)
    (d d' : option node) : Prop :=
  (∀ n, ¬ removed n → ¬ folder n → d' ≫= lookup_path [n] = d ≫= lookup_path [n])
  ∧ (∀ f n p, ¬ removed f → ¬ written n →
       d' ≫= lookup_path (f :: n :: p) = d ≫= lookup_path (f :: n :: p)).

(** [doc] is the text of the text file of the pair [pr] in the source
    directory [d], as [read_text] returns it. *)
Definition text_of (d : option node) (pr : string * string) (doc : string) : Prop :=
  ∃ raw, d ≫= lookup_path [pr.1] = Some (File raw) ∧ decode_text raw = Some doc.




(** A text that is valid UTF-8 and holds no carriage return: it decodes to
    itself. *)
Definition plain_text (s : string) : Prop :=
  utf8_valid s = true ∧ free_of CR_char s = true.

(** The tree [d] holds, in the folder [f], the copies of the files of the
    batch and the combined file made of its texts, as a copying run leaves
    them. *)
Definition settled (f cn : string) (batch : list (string * string))
    (d : option node) : Prop :=
  (∀ t i, (t, i) ∈ batch →
     dot_name t = false ∧ dot_name i = false
     ∧ ∃ ct ci,
         d ≫= lookup_path [t] = Some (File ct)
         ∧ d ≫= lookup_path [i] = Some (File ci)
         ∧ d ≫= lookup_path [f; t] = Some (File ct)
         ∧ held f i (File ci) d)
  ∧ ∃ docs,
      Forall2 (text_of d) batch docs
      ∧ d ≫= lookup_path [f; cn]
        = Some (File (String.concat "" (interleave PAGEBREAK docs))).

(** * Partitioning *)

Section Partition.
Context {A : Type}.
Implicit Types (l : list A) (b k : nat).

Lemma slice_nonneg l (lo hi : Z) :
  0 ≤ lo → 0 ≤ hi →
  slice l lo hi = take (Z.to_nat hi - Z.to_nat lo) (drop (Z.to_nat lo) l).
Proof.
  intros Hlo Hhi. unfold slice, slice_index.
  destruct (Z.ltb_spec lo 0) as [?|_]; [lia|].
  destruct (Z.ltb_spec hi 0) as [?|_]; [lia|].
  destruct (Z.le_gt_cases lo (Z.of_nat (length l))) as [Hle|Hgt].
  - rewrite (Z.min_l lo) by lia.
    destruct (Z.le_gt_cases hi (Z.of_nat (length l))) as [Hh|Hh].
    + rewrite (Z.min_l hi) by lia. f_equal. lia.
    + rewrite (Z.min_r hi) by lia.
      rewrite !take_ge; [done| |]; rewrite length_drop; lia.
  - rewrite (Z.min_r lo) by lia.
    rewrite (drop_ge l (Z.to_nat lo)) by lia.
    rewrite (drop_ge l (Z.to_nat (Z.of_nat (length l)))) by lia.
    rewrite !take_nil. reflexivity.
Qed.

Lemma batch_pairs_of_take_drop l (batch_size : Z) b :
  0 < batch_size →
  batch_pairs_of l batch_size (Z.of_nat b)
  = take (Z.to_nat batch_size) (drop (b * Z.to_nat batch_size) l).
Proof.
  intros Hpos. unfold batch_pairs_of.
  rewrite slice_nonneg by lia.
  replace (Z.to_nat (Z.of_nat b * batch_size)) with (b * Z.to_nat batch_size)%nat by lia.
  set (k := Z.to_nat batch_size). set (s := (b * k)%nat).
  destruct (Z.le_gt_cases (Z.of_nat b * batch_size + batch_size) (Z.of_nat (length l)))
    as [Hle|Hgt].
  - rewrite Z.min_l by lia. f_equal. lia.
  - rewrite Z.min_r by lia.
    rewrite !take_ge; [done| |]; rewrite length_drop; lia.
Qed.

Lemma concat_take_drop l k m :
  concat ((λ b, take k (drop (b * k) l)) <$> seq 0 m) = take (m * k) l.
Proof.
  induction m as [|m IH].
  - by rewrite take_0.
  - rewrite seq_S, fmap_app, concat_app, IH. simpl. rewrite app_nil_r.
    rewrite take_take_drop. f_equal. lia.
Qed.

Lemma range_fmap (f : Z → list A) (g : nat → list A) n :
  (∀ b, f (Z.of_nat b) = g b) → f <$> range n = g <$> seq 0 (Z.to_nat n).
Proof.
  intros Hfg. unfold range. rewrite <- list_fmap_compose.
  apply list_fmap_ext. intros ? b _. apply Hfg.
Qed.

Lemma length_range n : length (range n) = Z.to_nat n.
Proof. unfold range. by rewrite length_fmap, length_seq. Qed.

End Partition.

Lemma num_batches_ceiling (total batch_size : Z) :
  0 < batch_size →
  num_batches_of total batch_size = Some (ceiling_div total batch_size).
Proof.
  intros Hpos. unfold num_batches_of, floordiv, ceiling_div.
  destruct (Z.eqb_spec batch_size 0) as [?|_]; [lia|]. f_equal.
  pose proof (Z.div_mod total batch_size ltac:(lia)) as Hdm.
  pose proof (Z.mod_pos_bound total batch_size Hpos) as Hm.
  destruct (Z.eqb_spec (total mod batch_size) 0) as [H0|Hn0].
  - symmetry. apply (Z.div_unique _ _ _ (batch_size - 1)); lia.
  - symmetry. apply (Z.div_unique _ _ _ (total mod batch_size - 1)); lia.
Qed.

Lemma ceiling_div_bounds (total batch_size : Z) :
  0 < batch_size →
  (ceiling_div total batch_size - 1) * batch_size < total
  ∧ total ≤ ceiling_div total batch_size * batch_size.
Proof.
  intros Hpos. unfold ceiling_div.
  pose proof (Z.div_mod total batch_size ltac:(lia)) as Hdm.
  pose proof (Z.mod_pos_bound total batch_size Hpos) as Hm.
  destruct (Z.eqb_spec (total mod batch_size) 0); nia.
Qed.

(** Every pair is in a batch, and every batch is made of pairs. *)

Lemma batches_concat {A} (l : list A) (batch_size : Z) :
  0 < batch_size →
  concat (batch_pairs_of l batch_size
            <$> range (ceiling_div (Z.of_nat (length l)) batch_size)) = l.
Proof.
  intros Hpos. set (k := Z.to_nat batch_size).
  rewrite (range_fmap _ (λ b, take k (drop (b * k) l)))
    by (intros b; by apply batch_pairs_of_take_drop).
  rewrite concat_take_drop. apply take_ge.
  pose proof (ceiling_div_bounds (Z.of_nat (length l)) batch_size Hpos).
  subst k. nia.
Qed.

Lemma batches_cover {A} (l : list A) (batch_size : Z) x :
  0 < batch_size → x ∈ l →
  ∃ b, b ∈ range (ceiling_div (Z.of_nat (length l)) batch_size)
       ∧ x ∈ batch_pairs_of l batch_size b.
Proof.
  intros Hpos Hx. rewrite <- (batches_concat l batch_size Hpos) in Hx at 1.
  apply list_elem_of_In, in_concat in Hx as (batch & Hb & Hx).
  apply list_elem_of_In, list_elem_of_fmap in Hb as (b & -> & Hb).
  apply list_elem_of_In in Hx. eauto.
Qed.

Lemma batch_pairs_of_subset {A} (l : list A) (batch_size batch_num : Z) x :
  x ∈ batch_pairs_of l batch_size batch_num → x ∈ l.
Proof.
  unfold batch_pairs_of, slice. intros Hx.
  eapply elem_of_sublist; [exact Hx|].
  etrans; [apply sublist_take|apply sublist_drop].
Qed.

(** * The order of names *)

Lemma name_le_trans : Transitive name_le.
Proof.
  unfold name_le, String.leb. intros a. induction a as [|x a IH]; intros b c.
  - destruct c; done.
  - destruct b as [|y b]; [done|]. destruct c as [|z c]; [done|].
    simpl. unfold Ascii.compare.
    destruct (N.compare_spec (N_of_ascii x) (N_of_ascii y)) as [Hxy|Hxy|Hxy];
      destruct (N.compare_spec (N_of_ascii y) (N_of_ascii z)) as [Hyz|Hyz|Hyz];
      destruct (N.compare_spec (N_of_ascii x) (N_of_ascii z)) as [Hxz|Hxz|Hxz];
      try done; try lia.
    apply IH.
Qed.

Lemma name_le_total : Total name_le.
Proof. intros a b. apply String.leb_total. Qed.

Lemma name_le_antisym : AntiSymm (=) name_le.
Proof. intros a b. apply String.leb_antisym. Qed.

#[local] Existing Instances name_le_trans name_le_total name_le_antisym.

Lemma StronglySorted_sublist {A} (R : relation A) (l1 l2 : list A) :
  l1 `sublist_of` l2 → StronglySorted R l2 → StronglySorted R l1.
Proof.
  induction 1 as [|x l1 l2 Hsub IH|x l1 l2 Hsub IH]; intros Hs.
  - constructor.
  - apply StronglySorted_inv in Hs as [Hs Hall]. constructor; [by apply IH|].
    apply Forall_forall. intros y Hy. rewrite Forall_forall in Hall.
    apply Hall. by eapply elem_of_sublist.
  - apply StronglySorted_inv in Hs as [Hs _]. by apply IH.
Qed.

(** * Discovery *)

Lemma glob_sorted_sorted text_ext source :
  StronglySorted name_le (glob_sorted text_ext source).
Proof.
  unfold glob_sorted. destruct source as [[c|m]|]; try constructor.
  apply StronglySorted_merge_sort; apply _.
Qed.

Lemma glob_sorted_NoDup text_ext source : NoDup (glob_sorted text_ext source).
Proof.
  unfold glob_sorted. destruct source as [[c|m]|]; try constructor.
  rewrite merge_sort_Permutation. apply NoDup_filter, NoDup_fst_map_to_list.
Qed.

Lemma elem_of_glob_sorted text_ext m name :
  name ∈ glob_sorted text_ext (Some (Dir m))
  ↔ endswith name text_ext = true ∧ is_Some (m !! name).
Proof.
  unfold glob_sorted. rewrite merge_sort_Permutation, list_elem_of_filter.
  rewrite list_elem_of_fmap. split.
  - intros [? [[k x] [-> Hin]]]. apply elem_of_map_to_list in Hin. eauto.
  - intros [? [x Hx]]. split; [done|]. exists (name, x). split; [done|].
    by apply elem_of_map_to_list.
Qed.

Lemma pairing_sublist image_ext source text_files acc pairs :
  pairing image_ext source text_files acc = inr pairs →
  ∃ found, pairs = acc ++ found ∧ found.*1 `sublist_of` text_files
    ∧ Forall (λ p, with_suffix p.1 image_ext = inr p.2
                   ∧ from_option (entry_exists p.2) false source = true) found.
Proof.
  revert acc. induction text_files as [|t rest IH]; intros acc; simpl.
  - intros [= <-]. exists []. rewrite app_nil_r. repeat split; constructor.
  - destruct (with_suffix t image_ext) as [e|i] eqn:Hw; [done|].
    destruct (from_option _ _ _) eqn:Hex; intros Hp.
    + apply IH in Hp as (found & -> & Hsub & Hall).
      exists ((t, i) :: found). rewrite <- app_assoc. split; [done|].
      split; [by apply sublist_skip|]. by constructor.
    + apply IH in Hp as (found & -> & Hsub & Hall).
      exists found. split; [done|]. split; [by apply sublist_cons|done].
Qed.

Lemma discover_sorted text_ext image_ext source pairs :
  discover text_ext image_ext source = inr pairs →
  StronglySorted name_le pairs.*1 ∧ NoDup pairs.*1.
Proof.
  unfold discover. intros Hp.
  apply pairing_sublist in Hp as (found & -> & Hsub & _). simpl. split.
  - apply (StronglySorted_sublist _ _ _ Hsub), glob_sorted_sorted.
  - eapply sublist_NoDup; [apply glob_sorted_NoDup|exact Hsub].
Qed.

Lemma discover_members text_ext image_ext source t i pairs :
  discover text_ext image_ext source = inr pairs →
  (t, i) ∈ pairs →
  t ∈ glob_sorted text_ext source
  ∧ with_suffix t image_ext = inr i
  ∧ from_option (entry_exists i) false source = true.
Proof.
  unfold discover. intros Hp Hin.
  apply pairing_sublist in Hp as (found & -> & Hsub & Hall). simpl in Hin.
  rewrite Forall_forall in Hall. destruct (Hall _ Hin) as [? ?].
  split; [|done]. eapply elem_of_sublist; [|done].
  apply list_elem_of_fmap. by exists (t, i).
Qed.

(** * Reasoning about the monad *)

Lemma bind_unfold {A B} (m : M A) (f : A → M B) w :
  (m ≫= f) w = match m w with
               | (inl e, w') => (inl e, w')
               | (inr a, w') => f a w'
               end.
Proof. reflexivity. Qed.

Lemma bind_ok {A B} (m : M A) (f : A → M B) w b w' :
  (m ≫= f) w = (inr b, w') →
  ∃ a w1, m w = (inr a, w1) ∧ f a w1 = (inr b, w').
Proof.
  rewrite bind_unfold. destruct (m w) as [[e|a] w1]; [done|]. eauto.
Qed.

Lemma print_unfold line w :
  print line w = (inr tt, World (disk w) (stdout w ++ [line]) (outbuf w)).
Proof. reflexivity. Qed.

Lemma on_disk_ok call w w' :
  on_disk call w = (inr tt, w') →
  ∃ root root', disk w = Some root ∧ call root = inr root'
    ∧ w' = World (Some root') (stdout w) (outbuf w).
Proof.
  unfold on_disk. destruct (disk w) as [root|]; [|done].
  destruct (call root) as [e|root'] eqn:Hc; [done|].
  intros [= <-]. eauto.
Qed.

Lemma for_each_cons {A} (x : A) l (body : A → M unit) w :
  for_each (x :: l) body w
  = match body x w with
    | (inl e, w') => (inl e, w')
    | (inr _, w') => for_each l body w'
    end.
Proof. reflexivity. Qed.

(** An invariant of the loop body is an invariant of a loop that ends
    normally, and what each iteration establishes still holds at the end
    when the later iterations keep it. *)
Lemma for_each_invariant {A} (Inv : world → Prop) (Post : A → world → Prop)
    (l : list A) (body : A → M unit) w w' :
  (∀ x w1 w2, x ∈ l → Inv w1 → body x w1 = (inr tt, w2) → Inv w2 ∧ Post x w2) →
  (∀ x y w1 w2, x ∈ l → y ∈ l → Inv w1 → Post x w1 → body y w1 = (inr tt, w2) → Post x w2) →
  Inv w →
  for_each l body w = (inr tt, w') →
  Inv w' ∧ ∀ x, x ∈ l → Post x w'.
Proof.
  intros Hstep Hkeep.
  assert (∀ done todo w, done ++ todo = l → Inv w → (∀ x, x ∈ done → Post x w) →
            for_each todo body w = (inr tt, w') →
            Inv w' ∧ ∀ x, x ∈ l → Post x w') as Hgen.
  { intros done todo. revert done. induction todo as [|y todo IH]; intros done w0 Hl Hi Hp.
    - intros [= <-]. rewrite app_nil_r in Hl. subst. done.
    - rewrite for_each_cons. destruct (body y w0) as [[e|[]] w1] eqn:Hb; [done|].
      assert (y ∈ l) as Hy by (rewrite <- Hl, elem_of_app, elem_of_cons; auto).
      destruct (Hstep y w0 w1 Hy Hi Hb) as [Hi1 Hp1].
      apply (IH (done ++ [y])); [by rewrite <- app_assoc|done|].
      intros x [Hx|Hx%list_elem_of_singleton]%elem_of_app; [|by rewrite Hx].
      apply (Hkeep x y w0 w1); [|done|done|by apply Hp|done].
      rewrite <- Hl, elem_of_app; auto. }
  intros Hi. apply (Hgen [] l); [done|done|]. intros x Hx. by apply elem_of_nil in Hx.
Qed.

(** * The run, stage by stage *)

Lemma pair_up_pairing image_ext text_files acc w :
  ∃ out, pair_up image_ext text_files acc w
         = (pairing image_ext (disk w) text_files acc,
            World (disk w) (stdout w ++ out) (outbuf w)).
Proof.
  revert acc w. induction text_files as [|t rest IH]; intros acc w; simpl.
  - exists []. rewrite app_nil_r. by destruct w.
  - destruct (with_suffix t image_ext) as [e|i].
    + exists []. rewrite app_nil_r. by destruct w.
    + rewrite bind_unfold. simpl.
      destruct (from_option (entry_exists i) false (disk w)).
      * apply IH.
      * rewrite bind_unfold, print_unfold.
        destruct (IH acc (World (disk w)
          (stdout w ++ ["Warning: No matching " +:+ image_ext +:+ " for " +:+ t])
          (outbuf w))) as [out Hout].
        exists (["Warning: No matching " +:+ image_ext +:+ " for " +:+ t] ++ out).
        rewrite Hout. simpl. by rewrite <- app_assoc.
Qed.

Section Run.
Variable flushed : list string → string.
Variables (source_dir : string) (batch_size : Z).
Variables (folder_prefix text_ext image_ext combined_name : string).
Variable move_files : bool.

Lemma organize_missing w :
  disk w = None →
  organize_files_into_batches flushed source_dir batch_size folder_prefix
    text_ext image_ext combined_name move_files w
  = (inr tt, World None
    (stdout w ++ ["Error: Directory " +:+ source_dir +:+ " does not exist"]) (outbuf w)).
Proof.
  intros Hd. unfold organize_files_into_batches.
  rewrite bind_unfold. simpl. rewrite Hd. simpl. rewrite print_unfold. by rewrite Hd.
Qed.

Lemma organize_discovered w :
  is_Some (disk w) →
  match discover text_ext image_ext (disk w) with
  | inl e =>
      ∃ out, organize_files_into_batches flushed source_dir batch_size folder_prefix
      text_ext image_ext combined_name move_files w
        = (inl e, World (disk w) (stdout w ++ out) (outbuf w))
  | inr [] =>
      ∃ out, organize_files_into_batches flushed source_dir batch_size folder_prefix
      text_ext image_ext combined_name move_files w =
        (inr tt, World (disk w) (stdout w ++ out ++ ["No file pairs found. Exiting."])
                   (outbuf w))
  | inr (p :: ps) =>
      ∃ out, organize_files_into_batches flushed source_dir batch_size folder_prefix
      text_ext image_ext combined_name move_files w =
        match num_batches_of (Z.of_nat (length (p :: ps))) batch_size with
        | None => (inl ZeroDivisionError, World (disk w) (stdout w ++ out) (outbuf w))
        | Some num_batches =>
            match for_each (range num_batches)
                    (process_batch flushed batch_size folder_prefix text_ext
                       combined_name move_files (p :: ps))
                    (World (disk w)
                       (stdout w ++ out ++
                          [LF +:+ "Creating " +:+ pretty num_batches
                           +:+ " batches of up to " +:+ pretty batch_size
                           +:+ " pairs each"])
                       (outbuf w)) with
            | (inl e, w2) => (inl e, w2)
            | (inr _, w2) =>
                (inr tt, World (disk w2)
                   (stdout w2 ++
                      [LF +:+ replicate_char 60 "="; "Processing complete!";
                       "Created " +:+ pretty num_batches +:+ " batch folders";
                       "Total file pairs processed: " +:+ pretty (length (p :: ps));
                       replicate_char 60 "="])
                   (outbuf w2))
            end
        end
  end.
Proof.
  intros [root Hroot]. destruct w as [d so ob]. cbn [disk stdout outbuf] in *.
  subst d. unfold organize_files_into_batches.
  rewrite bind_unfold. unfold get_disk. cbv beta iota. cbn [disk].
  change (negb (present (Some root))) with false. cbv iota.
  rewrite bind_unfold, print_unfold. cbv iota beta.
  rewrite bind_unfold, print_unfold. cbv iota beta.
  rewrite bind_unfold. cbn [disk stdout outbuf].
  match goal with |- context [pair_up ?e ?t ?a ?w0] =>
    destruct (pair_up_pairing e t a w0) as [out Hout]; rewrite Hout end.
  cbn [disk stdout outbuf]. unfold discover.
  set (l1 := "Scanning directory: " +:+ source_dir).
  set (l2 := "Found " +:+ pretty (length (glob_sorted text_ext (Some root)))
             +:+ " " +:+ text_ext +:+ " files").
  destruct (pairing _ _ _ _) as [e|pairs]; cbv iota beta zeta.
  { exists (l1 :: l2 :: out). rewrite <- !app_assoc. reflexivity. }
  rewrite bind_unfold, print_unfold. cbv iota beta. cbn [disk stdout outbuf].
  set (l3 := "Found " +:+ pretty (length pairs) +:+ " complete file pairs").
  assert ((((so ++ [l1]) ++ [l2]) ++ out) ++ [l3] = so ++ (l1 :: l2 :: out ++ [l3])) as ->.
  { rewrite <- !app_assoc. reflexivity. }
  destruct pairs as [|p ps]; exists (l1 :: l2 :: out ++ [l3]).
  - rewrite print_unfold. cbn [disk stdout outbuf]. by rewrite <- ?app_assoc.
  - destruct (num_batches_of _ _) as [nb|]; [|reflexivity].
    rewrite bind_unfold, print_unfold. cbv iota beta. rewrite bind_unfold.
    cbn [disk stdout outbuf]. rewrite <- ?app_assoc.
    match goal with |- context [for_each ?l ?b ?w0] =>
      destruct (for_each l b w0) as [[e|[]] w2] end; [reflexivity|].
    repeat (rewrite bind_unfold, print_unfold; cbv iota beta;
            cbn [disk stdout outbuf]).
    rewrite print_unfold. cbn [disk stdout outbuf].
    rewrite <- ?app_assoc. reflexivity.
Qed.
End Run.

Lemma discover_some_disk text_ext image_ext source p ps :
  discover text_ext image_ext source = inr (p :: ps) → is_Some source.
Proof. destruct source; [eauto|]. discriminate. Qed.

(** * Partitioning: the claims *)

(** C1. The batches of the partitioning step are the consecutive slices of
    the discovered pair list, which is sorted by name and free of
    duplicates: concatenated in batch order they give back the list, so no
    pair is omitted, none occurs in two batches, and the order is kept. *)
Theorem C1_batches_partition_pairs text_ext image_ext source pairs batch_size :
  discover text_ext image_ext source = inr pairs →
  0 < batch_size →
  ∃ batches,
    batches_of pairs batch_size = Some batches
    ∧ concat batches = pairs
    ∧ (∀ b batch, batches !! b = Some batch →
         batch = take (Z.to_nat batch_size) (drop (b * Z.to_nat batch_size) pairs))
    ∧ NoDup (concat batches)
    ∧ StronglySorted name_le (concat batches).*1.
Proof.
  intros Hd Hpos.
  destruct (discover_sorted _ _ _ _ Hd) as [Hsorted Hnodup].
  unfold batches_of. rewrite num_batches_ceiling by done.
  eexists. split; [reflexivity|].
  rewrite batches_concat by done. split; [done|]. split.
  - intros b batch. rewrite list_lookup_fmap. intros Hb.
    destruct (range _ !! b) as [b'|] eqn:Hs; [|done].
    assert (b' = Z.of_nat b) as ->.
    { unfold range in Hs. rewrite list_lookup_fmap in Hs.
      destruct (seq 0 _ !! b) as [b0|] eqn:Hs0; [|done].
      apply lookup_seq in Hs0 as [-> _]. by injection Hs as <-. }
    injection Hb as <-. by apply batch_pairs_of_take_drop.
  - split; [|done]. by eapply NoDup_fmap_1.
Qed.

Lemma C1_batches_partition_pairs_witness :
  ∃ batches,
    batches_of [("a.txt", "a.jpg"); ("b.txt", "b.jpg"); ("c.txt", "c.jpg")] 2
      = Some batches
    ∧ concat batches = [("a.txt", "a.jpg"); ("b.txt", "b.jpg"); ("c.txt", "c.jpg")].
Proof.
  destruct (C1_batches_partition_pairs ".txt" ".jpg"
    (Some (dir_of [("c.txt", File "C"); ("a.txt", File "A"); ("b.jpg", File "J");
                   ("a.jpg", File "I"); ("b.txt", File "B"); ("c.jpg", File "K");
                   ("d.txt", File "D")]))
    [("a.txt", "a.jpg"); ("b.txt", "b.jpg"); ("c.txt", "c.jpg")] 2)
    as (batches & H1 & H2 & _).
  - vm_compute. reflexivity.
  - lia.
  - exists batches. split; assumption.
Defined.

(** C3. With P >= 1 pairs and a positive batch size, every batch but the
    last holds exactly batch_size pairs, and the last holds P mod batch_size
    pairs, or batch_size when P is a multiple of batch_size. *)
Theorem C3_batch_sizes (pairs : list (string * string)) (batch_size : Z) :
  pairs ≠ [] →
  0 < batch_size →
  let P := Z.of_nat (length pairs) in
  let num_batches := ceiling_div P batch_size in
  num_batches_of P batch_size = Some num_batches
  ∧ (∀ batch_num, 0 ≤ batch_num < num_batches - 1 →
       Z.of_nat (length (batch_pairs_of pairs batch_size batch_num)) = batch_size)
  ∧ Z.of_nat (length (batch_pairs_of pairs batch_size (num_batches - 1)))
    = (if P mod batch_size =? 0 then batch_size else P mod batch_size).
Proof.
  intros Hne Hpos P nb.
  pose proof (ceiling_div_bounds P batch_size Hpos) as [Hlo Hhi]. fold nb in Hlo, Hhi.
  assert (0 < P) by (subst P; destruct pairs; [done|simpl; lia]).
  assert (1 ≤ nb) by nia.
  assert (∀ b, 0 ≤ b →
    Z.of_nat (length (batch_pairs_of pairs batch_size b))
    = Z.max 0 (Z.min batch_size (P - b * batch_size))) as Hlen.
  { intros b Hb. rewrite <- (Z2Nat.id b) by done.
    rewrite batch_pairs_of_take_drop by done.
    rewrite length_take, length_drop. subst P. nia. }
  split; [by apply num_batches_ceiling|]. split.
  - intros b Hb. rewrite Hlen by lia. nia.
  - rewrite Hlen by lia.
    pose proof (Z.div_mod P batch_size ltac:(lia)) as Hdm.
    pose proof (Z.mod_pos_bound P batch_size Hpos) as Hm.
    subst nb. unfold ceiling_div in *.
    destruct (Z.eqb_spec (P mod batch_size) 0); nia.
Qed.

Lemma C3_batch_sizes_witness :
  Z.of_nat (length (batch_pairs_of
    [("a", "a"); ("b", "b"); ("c", "c"); ("d", "d"); ("e", "e")] 2 0)) = 2
  ∧ Z.of_nat (length (batch_pairs_of
    [("a", "a"); ("b", "b"); ("c", "c"); ("d", "d"); ("e", "e")] 2 2)) = 1.
Proof.
  destruct (C3_batch_sizes
    [("a", "a"); ("b", "b"); ("c", "c"); ("d", "d"); ("e", "e")] 2)
    as (_ & H1 & H2).
  - discriminate.
  - lia.
  - split; [apply H1; vm_compute; split; [discriminate|reflexivity]|exact H2].
Defined.

(** * Early exits *)

(** C6. When the source directory does not exist, the run prints the error
    and returns; the file system is left as it was. *)
Theorem C6_missing_source_directory flushed source_dir batch_size folder_prefix
    text_ext image_ext combined_name move_files w :
  disk w = None →
  ∃ w',
    organize_files_into_batches flushed source_dir batch_size folder_prefix
      text_ext image_ext combined_name move_files w = (inr tt, w')
    ∧ disk w' = disk w
    ∧ stdout w' = stdout w ++ ["Error: Directory " +:+ source_dir +:+ " does not exist"].
Proof.
  intros Hd. eexists. split; [by apply organize_missing|]. by rewrite Hd.
Qed.

Lemma C6_missing_source_directory_witness :
  ∃ w',
    organize_files_into_batches (λ _, "") "missing" 250 "Batch" ".txt" ".jpg"
      "combined.txt" false (initial_world None) = (inr tt, w')
    ∧ disk w' = None
    ∧ stdout w' = ["Error: Directory missing does not exist"].
Proof.
  apply (C6_missing_source_directory (λ _, "") "missing" 250 "Batch" ".txt" ".jpg"
           "combined.txt" false (initial_world None)).
  reflexivity.
Defined.

(** C7. When discovery finds no complete pair, the run reports it and ends
    normally; the file system is left as it was. *)
Theorem C7_no_pairs flushed source_dir batch_size folder_prefix
    text_ext image_ext combined_name move_files w :
  is_Some (disk w) →
  discover text_ext image_ext (disk w) = inr [] →
  ∃ w',
    organize_files_into_batches flushed source_dir batch_size folder_prefix
      text_ext image_ext combined_name move_files w = (inr tt, w')
    ∧ disk w' = disk w
    ∧ last (stdout w') = Some "No file pairs found. Exiting.".
Proof.
  intros Hs Hd.
  pose proof (organize_discovered flushed source_dir batch_size folder_prefix
                text_ext image_ext combined_name move_files w Hs) as Hrun.
  rewrite Hd in Hrun. destruct Hrun as [out Hrun].
  eexists. split; [exact Hrun|]. split; [done|].
  cbn [stdout]. by rewrite !app_assoc, last_snoc.
Qed.

Lemma C7_no_pairs_witness :
  ∃ w',
    organize_files_into_batches (λ _, "") "src" 2 "Batch" ".txt" ".jpg"
      "combined.txt" true
      (initial_world (Some (dir_of [("c.txt", File "C"); ("d.jpg", File "D")])))
    = (inr tt, w')
    ∧ disk w' = Some (dir_of [("c.txt", File "C"); ("d.jpg", File "D")])
    ∧ last (stdout w') = Some "No file pairs found. Exiting.".
Proof.
  apply (C7_no_pairs (λ _, "") "src" 2 "Batch" ".txt" ".jpg" "combined.txt" true
           (initial_world (Some (dir_of [("c.txt", File "C"); ("d.jpg", File "D")])))).
  - eexists. reflexivity.
  - vm_compute. reflexivity.
Defined.

(** * The image extension *)

Lemma with_suffix_rejects name ext :
  ext ≠ "" → String.prefix "." ext = false → with_suffix name ext = inl ValueError.
Proof.
  intros Hne Hp. unfold with_suffix.
  destruct (contains_char "/" ext); [done|].
  apply String.eqb_neq in Hne. by rewrite Hne, Hp.
Qed.

Lemma with_suffix_accepts name ext :
  String.prefix "." ext = true → ext ≠ "." → contains_char "/" ext = false →
  name ≠ "" →
  ∃ image, with_suffix name ext = inr image.
Proof.
  intros Hp Hdot Hsep Hname. unfold with_suffix. rewrite Hsep, Hp.
  apply String.eqb_neq in Hdot, Hname. rewrite Hdot, Hname.
  rewrite andb_false_r. simpl. destruct (String.eqb (suffix name) ""); eauto.
Qed.

Lemma pairing_rejects image_ext source t rest acc :
  image_ext ≠ "" → String.prefix "." image_ext = false →
  pairing image_ext source (t :: rest) acc = inl ValueError.
Proof. intros Hne Hp. simpl. by rewrite with_suffix_rejects. Qed.

Lemma pairing_accepts image_ext source text_files acc :
  String.prefix "." image_ext = true → image_ext ≠ "." →
  contains_char "/" image_ext = false →
  "" ∉ text_files →
  ∃ pairs, pairing image_ext source text_files acc = inr pairs.
Proof.
  intros Hp Hdot Hsep. revert acc.
  induction text_files as [|t rest IH]; intros acc Hnames; simpl; [eauto|].
  apply not_elem_of_cons in Hnames as [Ht Hrest].
  destruct (with_suffix_accepts t image_ext) as [i ->]; [done..|].
  destruct (from_option _ _ _); by apply IH.
Qed.

(** C10, as the code has it.  An image extension that is not empty and does
    not begin with a dot makes the pairing of the first text file raise
    [ValueError], before any folder is created.  An extension that begins
    with a dot is accepted for every text file (a directory entry has a
    name that is not empty), unless it is the single dot or contains a path
    separator. *)
Theorem C10_image_extension flushed source_dir batch_size folder_prefix
    text_ext image_ext combined_name move_files w :
  (image_ext ≠ "" → String.prefix "." image_ext = false →
   glob_sorted text_ext (disk w) ≠ [] →
   ∃ w',
     organize_files_into_batches flushed source_dir batch_size folder_prefix
       text_ext image_ext combined_name move_files w = (inl ValueError, w')
     ∧ disk w' = disk w)
  ∧ (String.prefix "." image_ext = true → image_ext ≠ "." →
     contains_char "/" image_ext = false →
     "" ∉ glob_sorted text_ext (disk w) →
     ∃ pairs, discover text_ext image_ext (disk w) = inr pairs).
Proof.
  split.
  - intros Hne Hp Hglob.
    assert (is_Some (disk w)) as Hs.
    { destruct (disk w); [eauto|]. by destruct Hglob. }
    pose proof (organize_discovered flushed source_dir batch_size folder_prefix
                  text_ext image_ext combined_name move_files w Hs) as Hrun.
    unfold discover in Hrun.
    destruct (glob_sorted text_ext (disk w)) as [|t rest]; [done|].
    rewrite pairing_rejects in Hrun by done.
    destruct Hrun as [out Hrun]. eexists. split; [exact Hrun|done].
  - intros Hp Hdot Hsep Hnames. by apply pairing_accepts.
Qed.

Lemma C10_image_extension_witness :
  let d := Some (dir_of [("a.txt", File "A"); ("a.jpg", File "I")]) in
  (∃ w',
     organize_files_into_batches (λ _, "") "src" 2 "Batch" ".txt" "jpg"
       "combined.txt" false (initial_world d)
     = (inl ValueError, w')
     ∧ disk w' = d)
  ∧ (∃ pairs, discover ".txt" ".jpg" d = inr pairs).
Proof.
  split.
  - apply (C10_image_extension (λ _, "") "src" 2 "Batch" ".txt" "jpg" "combined.txt" false
             (initial_world (Some (dir_of [("a.txt", File "A"); ("a.jpg", File "I")])))).
    + discriminate.
    + reflexivity.
    + vm_compute. discriminate.
  - apply (C10_image_extension (λ _, "") "src" 2 "Batch" ".txt" ".jpg" "combined.txt" false
             (initial_world (Some (dir_of [("a.txt", File "A"); ("a.jpg", File "I")])))).
    + reflexivity.
    + discriminate.
    + reflexivity.
    + vm_compute. intros H. apply list_elem_of_singleton in H. discriminate.
Defined.

(** Two extensions that begin with a dot and still make pairing raise. *)
Lemma C10_counterexample :
  let w := initial_world (Some (dir_of [("a.txt", File "A"); ("a.jpg", File "I")])) in
  String.prefix "." ".j/pg" = true
  ∧ (∃ w', organize_files_into_batches (λ _, "") "src" 2 "Batch" ".txt" ".j/pg"
             "combined.txt" false w = (inl ValueError, w'))
  ∧ String.prefix "." "." = true
  ∧ (∃ w', organize_files_into_batches (λ _, "") "src" 2 "Batch" ".txt" "."
             "combined.txt" false w = (inl ValueError, w')).
Proof.
  repeat split; try (eexists; vm_compute; reflexivity).
Qed.

(** * Paths of the tree *)

Lemma lookup_path_1 k root :
  lookup_path [k] root = match root with Dir m => m !! k | File _ => None end.
Proof. destruct root as [c|m]; [done|]. simpl. by destruct (m !! k). Qed.

Lemma lookup_path_cons k p root :
  lookup_path (k :: p) root = lookup_path [k] root ≫= lookup_path p.
Proof. destruct root as [c|m]; [done|]. simpl. by destruct (m !! k). Qed.

(** A write below the folder [f] changes the entry [f] of the root and
    nothing else. *)
Lemma put_path_below f k q x root :
  put_path (f :: k :: q) x root
  = match lookup_path [f] root with
    | Some c => put_path [f] (put_path (k :: q) x c) root
    | None => root
    end.
Proof.
  destruct root as [c|m]; [done|]. cbn [put_path lookup_path].
  by destruct (m !! f).
Qed.

Lemma lookup_put_path_1 f k x root :
  lookup_path [k] (put_path [f] x root)
  = match root with
    | Dir _ => if decide (f = k) then Some x else lookup_path [k] root
    | File _ => None
    end.
Proof.
  destruct root as [c|m]; [done|]. cbn [put_path]. rewrite !lookup_path_1.
  by rewrite lookup_insert.
Qed.

Lemma lookup_put_path_other f k p q x root :
  f ≠ k → lookup_path (k :: p) (put_path (f :: q) x root) = lookup_path (k :: p) root.
Proof.
  intros Hne. rewrite !(lookup_path_cons k p). f_equal.
  destruct q as [|k' q].
  - rewrite lookup_put_path_1. destruct root; [done|]. by rewrite decide_False.
  - rewrite put_path_below. destruct (lookup_path [f] root) eqn:E; [|done].
    rewrite lookup_put_path_1. destruct root; [done|]. by rewrite decide_False.
Qed.

Lemma lookup_put_path_2 f k k' x root :
  lookup_path [f; k'] (put_path [f; k] x root)
  = if decide (k = k') then
      (if is_dir (lookup_path [f] root) then Some x else None)
    else lookup_path [f; k'] root.
Proof.
  destruct root as [c|m]; [by case_decide|].
  rewrite lookup_path_1. cbn [put_path lookup_path].
  destruct (m !! f) as [[c|d]|] eqn:E; cbn [is_dir].
  - rewrite lookup_insert_eq. by case_decide.
  - rewrite lookup_insert_eq. rewrite lookup_insert. by case_decide.
  - rewrite E. by case_decide.
Qed.

Lemma is_dir_put_path_2 f k x root :
  is_dir (lookup_path [f] (put_path [f; k] x root)) = is_dir (lookup_path [f] root).
Proof.
  rewrite put_path_below. destruct (lookup_path [f] root) as [c|] eqn:E; [|by rewrite E].
  rewrite lookup_put_path_1. destruct root as [?|m]; [done|].
  rewrite decide_True by done. by destruct c.
Qed.

Lemma create_file_ok f k c root root' :
  create_file [f; k] c root = inr root' →
  root' = put_path [f; k] (File c) root
  ∧ is_dir (lookup_path [f] root) = true
  ∧ is_dir (lookup_path [f; k] root) = false.
Proof.
  unfold create_file. destruct root as [c0|m]; [done|].
  cbn [removelast lookup_path].
  destruct (m !! f) as [[?|d]|] eqn:E; [done| |done].
  destruct (d !! k) as [[?|?]|]; [|done|]; by intros [= <-].
Qed.

Lemma lookup_Some_root root p : Some root ≫= lookup_path p = lookup_path p root.
Proof. reflexivity. Qed.

Lemma option_bind_lookup_cons (d : option node) f k p :
  d ≫= lookup_path (f :: k :: p)
  = match d ≫= lookup_path [f; k] with
    | Some c => lookup_path p c
    | None => None
    end.
Proof.
  destruct d as [root|]; [|done]. cbn [mbind option_bind].
  rewrite (lookup_path_cons f (k :: p)), (lookup_path_cons f [k]).
  destruct (lookup_path [f] root) as [c|]; [|done]. cbn [mbind option_bind].
  rewrite (lookup_path_cons k p), lookup_path_cons.
  destruct (lookup_path [k] c) as [c'|]; [|done]. done.
Qed.

#[local] Arguments put_path : simpl never.
#[local] Arguments lookup_path : simpl never.

(** * Concatenation *)

Lemma read_text_ok p w s w1 :
  read_text p w = (inr s, w1) →
  w1 = w ∧ ∃ raw, disk w ≫= lookup_path p = Some (File raw) ∧ decode_text raw = Some s.
Proof.
  unfold read_text. destruct (disk w ≫= lookup_path p) as [[raw|?]|]; try done.
  destruct (decode_text raw) as [s'|] eqn:Hd; [|done].
  intros [= <- <-]. eauto.
Qed.

Lemma interleave_cons sep d docs :
  interleave sep (d :: docs)
  = d :: (if decide (docs = []) then [] else sep :: interleave sep docs).
Proof. by destruct docs. Qed.

Lemma interleave_length sep docs :
  length (interleave sep docs) = (2 * length docs - 1)%nat.
Proof.
  induction docs as [|d docs IH]; [done|]. rewrite interleave_cons.
  destruct docs as [|d' docs]; [done|]. rewrite decide_False by done.
  cbn [length] in *. rewrite IH. lia.
Qed.

Lemma interleave_documents sep docs i :
  (i < length docs)%nat → interleave sep docs !! (2 * i)%nat = docs !! i.
Proof.
  revert i. induction docs as [|d docs IH]; intros i Hi; [simpl in Hi; lia|].
  rewrite interleave_cons. destruct i as [|i]; [done|].
  destruct docs as [|d' docs]; [simpl in Hi; lia|]. rewrite decide_False by done.
  replace (2 * S i)%nat with (S (S (2 * i))) by lia. cbn [lookup list_lookup].
  apply IH. simpl in *. lia.
Qed.

Lemma interleave_separators sep docs i :
  (S i < length docs)%nat → interleave sep docs !! (2 * i + 1)%nat = Some sep.
Proof.
  revert i. induction docs as [|d docs IH]; intros i Hi; [simpl in Hi; lia|].
  rewrite interleave_cons.
  destruct docs as [|d' docs]; [simpl in Hi; lia|]. rewrite decide_False by done.
  destruct i as [|i]; [done|].
  replace (2 * S i + 1)%nat with (S (S (2 * i + 1))) by lia. cbn [lookup list_lookup].
  apply IH. simpl in *. lia.
Qed.

(** ** Occurrences of the token in a combined text *)

Lemma prefix_append_stop tok x b c :
  free_of c tok = true →
  String.prefix tok (x +:+ String c b) = String.prefix tok x.
Proof.
  revert x. induction tok as [|t tok IH]; intros x Hfree.
  - by destruct x.
  - simpl in Hfree. apply andb_true_iff in Hfree as [Ht Hfree].
    apply negb_true_iff, Ascii.eqb_neq in Ht.
    destruct x as [|y x]; simpl.
    + by destruct (ascii_dec t c).
    + destruct (ascii_dec t y); [by apply IH|done].
Qed.

Lemma occurrences_append_stop tok a b c :
  free_of c tok = true →
  occurrences tok (a +:+ String c b) = (occurrences tok a + occurrences tok b)%nat.
Proof.
  intros Hfree. induction a as [|y a IH].
  - pose proof (prefix_append_stop tok EmptyString b c Hfree) as Hp.
    change (EmptyString +:+ String c b) with (String c b) in *.
    change (occurrences tok (String c b))
      with ((if String.prefix tok (String c b) then 1 else 0) + occurrences tok b)%nat.
    by rewrite Hp.
  - pose proof (prefix_append_stop tok (String y a) b c Hfree) as Hp.
    change (String y a +:+ String c b) with (String y (a +:+ String c b)) in *.
    change (occurrences tok (String y (a +:+ String c b)))
      with ((if String.prefix tok (String y (a +:+ String c b)) then 1 else 0)
            + occurrences tok (a +:+ String c b))%nat.
    rewrite Hp, IH.
    change (occurrences tok (String y a))
      with ((if String.prefix tok (String y a) then 1 else 0) + occurrences tok a)%nat.
    lia.
Qed.

Lemma concat_interleave_cons d d' docs :
  String.concat "" (interleave PAGEBREAK (d :: d' :: docs))
  = d +:+ String LF_char (separator_token
          +:+ String LF_char (String.concat "" (interleave PAGEBREAK (d' :: docs)))).
Proof.
  change (interleave PAGEBREAK (d :: d' :: docs))
    with (d :: PAGEBREAK :: interleave PAGEBREAK (d' :: docs)).
  assert (∃ x rest, interleave PAGEBREAK (d' :: docs) = x :: rest) as (x & rest & ->).
  { rewrite interleave_cons. by do 2 eexists. }
  change (String.concat "" (d :: PAGEBREAK :: x :: rest))
    with (d +:+ (PAGEBREAK +:+ String.concat "" (x :: rest))).
  reflexivity.
Qed.

Lemma occurrences_combined docs :
  Forall (λ doc, occurrences separator_token doc = 0%nat) docs →
  occurrences separator_token (String.concat "" (interleave PAGEBREAK docs))
  = (length docs - 1)%nat.
Proof.
  induction docs as [|d docs IH]; intros Hdocs; [done|].
  apply Forall_cons in Hdocs as [Hd Hdocs].
  destruct docs as [|d' docs]; [done|].
  rewrite concat_interleave_cons.
  rewrite !occurrences_append_stop by done.
  rewrite Hd, IH by done. simpl. lia.
Qed.

Section Concatenation.
Variable flushed : list string → string.
Variables f cn : string.

Lemma write_effect chunk w :
  write flushed [f; cn] chunk w
  = (inr tt, World (put_path [f; cn] (File (flushed (outbuf w ++ [chunk]))) <$> disk w)
               (stdout w) (outbuf w ++ [chunk])).
Proof. reflexivity. Qed.

Lemma lookup_after_write t x (d : option node) :
  t ≠ cn →
  (put_path [f; cn] x <$> d) ≫= lookup_path [f; t] = d ≫= lookup_path [f; t].
Proof.
  intros Hne. destruct d as [root|]; [|done].
  change (lookup_path [f; t] (put_path [f; cn] x root) = lookup_path [f; t] root).
  rewrite lookup_put_path_2. by rewrite decide_False.
Qed.

Lemma is_dir_after_write x (d : option node) :
  is_dir ((put_path [f; cn] x <$> d) ≫= lookup_path [f]) = is_dir (d ≫= lookup_path [f]).
Proof. destruct d as [root|]; [|done]. apply is_dir_put_path_2. Qed.

Lemma append_loop (n : Z) (l : list (string * string)) (j : nat) w w2 :
  n = Z.of_nat (j + length l) →
  for_each (imap (λ i x, (Z.of_nat (j + i), x)) l)
    (append_document flushed f [f; cn] n) w = (inr tt, w2) →
  ∃ docs,
    length docs = length l
    ∧ outbuf w2 = outbuf w ++ interleave PAGEBREAK docs
    ∧ stdout w2 = stdout w
    ∧ (∀ t, t ≠ cn → disk w2 ≫= lookup_path [f; t] = disk w ≫= lookup_path [f; t])
    ∧ is_dir (disk w2 ≫= lookup_path [f]) = is_dir (disk w ≫= lookup_path [f])
    ∧ Forall2 (λ pr doc, pr.1 ≠ cn → document_on f (disk w) pr doc) l docs.
Proof.
  revert j w. induction l as [|[t im] l IH]; intros j w Hn.
  - intros [= <-]. exists []. rewrite app_nil_r. by repeat split.
  - rewrite imap_cons, for_each_cons.
    unfold append_document at 1. rewrite bind_unfold.
    destruct (read_text [f; t] w) as [[e|content] w0] eqn:Hread; [done|].
    apply read_text_ok in Hread as [-> (raw & Hraw & Hdec)].
    rewrite bind_unfold, write_effect.
    set (wa := World _ _ (outbuf w ++ [content])).
    assert (∀ wb, stdout wb = stdout w →
              (∀ t', t' ≠ cn →
                 disk wb ≫= lookup_path [f; t'] = disk w ≫= lookup_path [f; t']) →
              is_dir (disk wb ≫= lookup_path [f]) = is_dir (disk w ≫= lookup_path [f]) →
              outbuf wb = outbuf w ++ [content]
                          ++ (if decide (l = []) then [] else [PAGEBREAK]) →
              for_each (imap ((λ i x, (Z.of_nat (j + i), x)) ∘ S) l)
                (append_document flushed f [f; cn] n) wb = (inr tt, w2) →
              ∃ docs, length docs = length ((t, im) :: l)
                ∧ outbuf w2 = outbuf w ++ interleave PAGEBREAK docs
                ∧ stdout w2 = stdout w
                ∧ (∀ t', t' ≠ cn →
                     disk w2 ≫= lookup_path [f; t'] = disk w ≫= lookup_path [f; t'])
                ∧ is_dir (disk w2 ≫= lookup_path [f]) = is_dir (disk w ≫= lookup_path [f])
                ∧ Forall2 (λ pr doc, pr.1 ≠ cn → document_on f (disk w) pr doc)
                    ((t, im) :: l) docs) as Hrest.
    { intros wb Hso Hsame Hdir Hbuf Hloop.
      rewrite (imap_ext _ (λ i x, (Z.of_nat (S j + i), x))) in Hloop
        by (intros; simpl; f_equal; lia).
      apply IH in Hloop as (docs & Hlen & Hout & Hso' & Hsame' & Hdir' & Hdocs);
        [|simpl in Hn; lia].
      exists (content :: docs). split; [simpl; by rewrite Hlen|].
      split.
      { rewrite Hout, Hbuf, interleave_cons, <- !app_assoc. simpl. f_equal. f_equal.
        destruct l, docs; try done. }
      split; [congruence|].
      split; [intros t' Ht'; by rewrite Hsame', Hsame|].
      split; [congruence|].
      constructor; [intros _; by exists raw|].
      eapply Forall2_impl; [exact Hdocs|].
      intros [t' im'] doc Hdoc Hne. destruct (Hdoc Hne) as (raw' & Hraw' & Hdec').
      exists raw'. split; [|done]. rewrite <- Hraw'. symmetry. by apply Hsame. }
    destruct (Z.ltb_spec (Z.of_nat (j + 0)) (n - 1)) as [Hlt|Hge].
    + rewrite write_effect. apply Hrest.
      * done.
      * intros t' Ht'. subst wa. cbn [disk]. by rewrite !lookup_after_write.
      * subst wa. cbn [disk]. by rewrite !is_dir_after_write.
      * subst wa. cbn [outbuf]. rewrite <- app_assoc.
        rewrite decide_False; [done|]. intros ->. simpl in Hn. lia.
    + apply Hrest.
      * done.
      * intros t' Ht'. subst wa. cbn [disk]. by rewrite lookup_after_write.
      * subst wa. cbn [disk]. by rewrite is_dir_after_write.
      * subst wa. cbn [outbuf].
        rewrite decide_True; [by rewrite app_nil_r|].
        destruct l; [done|]. simpl in Hn, Hge. lia.
Qed.
End Concatenation.

(** What a concatenation that ends normally has read and written. *)
Lemma concatenate_documents flushed f cn pairs w w' :
  concatenate flushed f cn pairs w = (inr tt, w') →
  ∃ docs,
    length docs = length pairs
    ∧ Forall2 (λ pr doc, pr.1 ≠ cn → document_on f (disk w) pr doc) pairs docs
    ∧ outbuf w' = interleave PAGEBREAK docs
    ∧ disk w' ≫= lookup_path [f; cn]
      = Some (File (String.concat "" (interleave PAGEBREAK docs))).
Proof.
  unfold concatenate. intros Hrun.
  apply bind_ok in Hrun as ([] & w1 & Hopen & Hrun).
  unfold open_w in Hopen. apply bind_ok in Hopen as ([] & w0 & Hcreate & Hreset).
  apply on_disk_ok in Hcreate as (root & root1 & Hroot & Hcreate & ->).
  apply create_file_ok in Hcreate as (-> & Hdir & _).
  unfold reset_outbuf in Hreset. cbn [disk stdout] in Hreset.
  injection Hreset as <-.
  unfold finally in Hrun.
  destruct (for_each _ _ _) as [[e|[]] w2] eqn:Hloop; [done|].
  injection Hrun as <-.
  unfold enumerate in Hloop.
  rewrite (imap_ext _ (λ i x, (Z.of_nat (0 + i), x))) in Hloop by done.
  apply append_loop in Hloop as (docs & Hlen & Hout & _ & Hsame & Hdir2 & Hdocs); [|done].
  cbn [disk outbuf app] in Hout, Hsame, Hdir2.
  exists docs. split; [done|]. split.
  { eapply Forall2_impl; [exact Hdocs|].
    intros [t im] doc Hdoc Hne. destruct (Hdoc Hne) as (raw & Hraw & Hdec).
    exists raw. split; [|done]. rewrite <- Hraw, Hroot.
    cbn [disk]. rewrite !lookup_Some_root, lookup_put_path_2. by rewrite decide_False. }
  split; [done|].
  { unfold close. cbn [disk]. rewrite Hout.
    rewrite lookup_Some_root, is_dir_put_path_2, Hdir in Hdir2.
    destruct (disk w2) as [root2|]; [|done].
    cbn [fmap option_fmap option_map]. rewrite lookup_Some_root in Hdir2 |- *.
    rewrite lookup_put_path_2, decide_True by done. by rewrite Hdir2. }
Qed.


(** C4, as the code has it.  The combined file of a batch of n documents,
    under a name that is a single path component, is made of the n
    documents, in batch order, with the separator strictly between
    consecutive documents: for n >= 1 it has 2n - 1 chunks, the documents at
    the even positions and the n - 1 separators at the odd positions, so
    that none comes before the first document or after the last; for n = 0
    it is empty.  Each document is the text of its file in the batch folder
    (read after the transfer), unless that file is the combined file itself.
    The documents are written as they are read: when no document contains
    the token, the token occurs exactly n - 1 times in the combined file
    (not at all for n = 0); a document that contains the token adds its own
    occurrences. *)
Theorem C4_separators_between_documents flushed f cn pairs w w' :
  single_component cn = true →
  concatenate flushed f cn pairs w = (inr tt, w') →
  ∃ docs,
    length docs = length pairs
    ∧ Forall2 (λ pr doc, pr.1 ≠ cn → document_on f (disk w) pr doc) pairs docs
    ∧ outbuf w' = interleave PAGEBREAK docs
    ∧ disk w' ≫= lookup_path [f; cn]
      = Some (File (String.concat "" (interleave PAGEBREAK docs)))
    ∧ Z.of_nat (length (interleave PAGEBREAK docs))
      = Z.max 0 (2 * Z.of_nat (length pairs) - 1)
    ∧ (∀ i, (i < length pairs)%nat →
         interleave PAGEBREAK docs !! (2 * i)%nat = docs !! i)
    ∧ (∀ i, (S i < length pairs)%nat →
         interleave PAGEBREAK docs !! (2 * i + 1)%nat = Some PAGEBREAK)
    ∧ (Forall (λ doc, occurrences separator_token doc = 0%nat) docs →
       Z.of_nat (occurrences separator_token
                   (String.concat "" (interleave PAGEBREAK docs)))
       = Z.max 0 (Z.of_nat (length pairs) - 1)).
Proof.
  intros _ Hrun.
  destruct (concatenate_documents _ _ _ _ _ _ Hrun) as (docs & Hlen & Hdocs & Hout & Hfile).
  exists docs. rewrite <- Hlen. repeat split; try done.
  - rewrite interleave_length. lia.
  - apply interleave_documents.
  - apply interleave_separators.
  - intros Hfree. rewrite occurrences_combined by done. lia.
Qed.

Lemma C4_separators_between_documents_witness :
  ∃ docs,
    length docs = 2%nat
    ∧ length (interleave PAGEBREAK docs) = 3%nat
    ∧ interleave PAGEBREAK docs !! 1%nat = Some PAGEBREAK.
Proof.
  pose (w := initial_world (Some (dir_of
    [("Batch_01", dir_of [("a.txt", File "A"); ("b.txt", File "B")])]))).
  pose (pairs := [("a.txt", "a.jpg"); ("b.txt", "b.jpg")]).
  destruct (C4_separators_between_documents (λ _, "") "Batch_01" "combined.txt" pairs w
              (snd (concatenate (λ _, "") "Batch_01" "combined.txt" pairs w)))
    as (docs & Hlen & _ & _ & _ & Hchunks & _ & Hsep & _).
  - reflexivity.
  - vm_compute. reflexivity.
  - exists docs. split; [exact Hlen|]. split; [|apply (Hsep 0%nat); simpl; lia].
    apply Nat2Z.inj. rewrite Hchunks. reflexivity.
Defined.

(** Two documents of which the first is the token: the combined file holds
    the token twice, not once, and begins with it. *)
Lemma C4_counterexample :
  let w := initial_world (Some (dir_of
    [("Batch_01", dir_of [("a.txt", File "TRP_PAGEBREAK"); ("b.txt", File "B")])])) in
  let pairs := [("a.txt", "a.jpg"); ("b.txt", "b.jpg")] in
  let content := "TRP_PAGEBREAK" +:+ PAGEBREAK +:+ "B" in
  ∃ w',
    concatenate (λ _, "") "Batch_01" "combined.txt" pairs w = (inr tt, w')
    ∧ disk w' ≫= lookup_path ["Batch_01"; "combined.txt"] = Some (File content)
    ∧ occurrences separator_token content = 2%nat
    ∧ Z.of_nat (length pairs) - 1 = 1
    ∧ String.prefix separator_token content = true.
Proof.
  eexists. split; [vm_compute; reflexivity|]. repeat split; vm_compute; reflexivity.
Qed.

(** * Copying and moving side by side *)

Lemma create_file_below f k q c root root' :
  create_file (f :: k :: q) c root = inr root' →
  root' = put_path (f :: k :: q) (File c) root
  ∧ is_dir (lookup_path [f] root) = true.
Proof.
  unfold create_file.
  change (removelast (f :: k :: q)) with (f :: removelast (k :: q)).
  rewrite (lookup_path_cons f (k :: q)), (lookup_path_cons f (removelast (k :: q))).
  destruct (lookup_path [f] root) as [[?|d]|] eqn:E; cbn [mbind option_bind].
  - destruct (removelast (k :: q)); done.
  - intros H. split; [|done].
    destruct (lookup_path (k :: q) (Dir d)) as [[?|?]|]; [by injection H|done|].
    destruct (lookup_path (removelast (k :: q)) (Dir d)) as [[?|?]|];
      [done|by injection H|done].
  - done.
Qed.

Lemma put_path_below_Dir f k q x (m : gmap string node) c :
  m !! f = Some c →
  put_path (f :: k :: q) x (Dir m) = Dir (<[f := put_path (k :: q) x c]> m).
Proof. intros E. rewrite put_path_below, lookup_path_1, E. reflexivity. Qed.

Lemma agree_refl m : agree ∅ m m.
Proof.
  split.
  - intros k. rewrite decide_False; [done|]. apply not_elem_of_empty.
  - intros k Hk. by apply not_elem_of_empty in Hk.
Qed.

Lemma agree_not_moved moved mc mm f :
  agree moved mc mm → is_file (mc !! f) = false → (f ∉ moved) ∧ (mm !! f = mc !! f).
Proof.
  intros [Hlook Hfiles] Hf.
  assert (f ∉ moved) as Hnot by (intros Hin; apply Hfiles in Hin; congruence).
  split; [done|]. by rewrite Hlook, decide_False.
Qed.

Lemma agree_insert moved mc mm f x :
  agree moved mc mm → f ∉ moved → agree moved (<[f := x]> mc) (<[f := x]> mm).
Proof.
  intros [Hlook Hfiles] Hf. split.
  - intros k. destruct (decide (f = k)) as [<-|Hne].
    + by rewrite !lookup_insert_eq, decide_False.
    + by rewrite !lookup_insert_ne.
  - intros k Hk. rewrite lookup_insert_ne; [by apply Hfiles|]. by intros ->.
Qed.

Lemma agree_delete moved mc mm n c :
  agree moved mc mm → mc !! n = Some (File c) →
  agree ({[n]} ∪ moved) mc (delete n mm).
Proof.
  intros [Hlook Hfiles] Hn. split.
  - intros k. destruct (decide (n = k)) as [<-|Hne].
    + rewrite lookup_delete_eq. rewrite decide_True; [done|].
      apply elem_of_union_l, elem_of_singleton. done.
    + rewrite lookup_delete_ne, Hlook by done.
      destruct (decide (k ∈ moved)) as [Hin|Hout].
      * rewrite decide_True; [done|]. by apply elem_of_union_r.
      * rewrite decide_False; [done|].
        intros [Hk%elem_of_singleton|Hk]%elem_of_union; [by subst|done].
  - intros k [->%elem_of_singleton|Hk]%elem_of_union; [by rewrite Hn|by apply Hfiles].
Qed.

Lemma agree_lookup_below moved mc mm f p :
  agree moved mc mm → p ≠ [] →
  lookup_path (f :: p) (Dir mm) = lookup_path (f :: p) (Dir mc).
Proof.
  intros [Hlook Hfiles] Hp. rewrite !(lookup_path_cons f p), !lookup_path_1, Hlook.
  destruct (decide (f ∈ moved)) as [Hin|]; [|done].
  apply Hfiles in Hin. destruct (mc !! f) as [[?|?]|]; try done.
  by destruct p.
Qed.

Lemma put_path_Dir k q x d : ∃ d', put_path (k :: q) x (Dir d) = Dir d'.
Proof.
  destruct q as [|k' q]; [by eexists|].
  rewrite put_path_below, lookup_path_1. destruct (d !! k); by eexists.
Qed.

Lemma is_dir_not_file (o : option node) : is_dir o = true → is_file o = false.
Proof. by destruct o as [[?|?]|]. Qed.

(** Writing below a folder of the copying run and of the moving run. *)
Lemma agree_put_below moved mc mm f k q x :
  agree moved mc mm → is_dir (mc !! f) = true →
  ∃ mc' mm',
    put_path (f :: k :: q) x (Dir mc) = Dir mc'
    ∧ put_path (f :: k :: q) x (Dir mm) = Dir mm'
    ∧ agree moved mc' mm'
    ∧ is_dir (mc' !! f) = true
    ∧ (∀ n, n ≠ f → mc' !! n = mc !! n)
    ∧ (∀ n, n ≠ f → mm' !! n = mm !! n).
Proof.
  intros Hag Hdir.
  destruct (agree_not_moved _ _ _ f Hag (is_dir_not_file _ Hdir)) as [Hnot Hsame].
  destruct (mc !! f) as [[?|d]|] eqn:E; try done.
  destruct (put_path_Dir k q x d) as [d' Hd'].
  exists (<[f := Dir d']> mc), (<[f := Dir d']> mm).
  rewrite (put_path_below_Dir _ _ _ _ mc (Dir d)), (put_path_below_Dir _ _ _ _ mm (Dir d)), Hd'
    by done.
  split; [done|]. split; [done|]. split; [by apply agree_insert|].
  split; [by rewrite lookup_insert_eq|].
  split; intros n Hn; by rewrite lookup_insert_ne.
Qed.

Lemma mkdir_agree moved mc mm f rc' rm' :
  agree moved mc mm →
  mkdir_exist_ok f (Dir mc) = inr rc' →
  mkdir_exist_ok f (Dir mm) = inr rm' →
  ∃ mc' mm', rc' = Dir mc' ∧ rm' = Dir mm' ∧ agree moved mc' mm'.
Proof.
  intros Hag. unfold mkdir_exist_ok.
  destruct (mc !! f) as [[?|d]|] eqn:E; [done| |].
  - destruct (agree_not_moved _ _ _ f Hag) as [Hnot Hsame]; [by rewrite E|].
    rewrite Hsame, E. intros [= <-] [= <-]. eauto.
  - destruct (agree_not_moved _ _ _ f Hag) as [Hnot Hsame]; [by rewrite E|].
    rewrite Hsame, E. intros [= <-] [= <-].
    do 2 eexists. split; [done|]. split; [done|]. by apply agree_insert.
Qed.

Lemma transfer_agree moved mc mm n f rc' rm' :
  agree moved mc mm →
  copy2 n f (Dir mc) = inr rc' →
  move n f (Dir mm) = inr rm' →
  ∃ mc' mm', rc' = Dir mc' ∧ rm' = Dir mm' ∧ agree ({[n]} ∪ moved) mc' mm'.
Proof.
  intros Hag. unfold copy2, move.
  destruct (dot_name n); [done|].
  rewrite (agree_lookup_below _ _ _ f [n] Hag) by done.
  rewrite !lookup_path_1.
  destruct (mc !! n) as [[c|?]|] eqn:En; [|done..].
  set (real_dst := if is_dir (lookup_path [f; n] (Dir mc)) then [f; n] ++ [n] else [f; n]).
  assert (∃ k q, real_dst = f :: k :: q) as (k & q & Hdst).
  { subst real_dst. destruct (is_dir _); by do 2 eexists. }
  rewrite Hdst. intros Hc. apply create_file_below in Hc as [-> Hdir].
  rewrite lookup_path_1 in Hdir.
  destruct (_ && _); [done|].
  destruct Hag as [Hlook Hfiles].
  rewrite (Hlook n). destruct (decide (n ∈ moved)); [done|]. rewrite En.
  destruct (String.eqb_spec n f) as [->|Hnf]; [done|].
  pose proof (agree_not_moved _ _ _ f (conj Hlook Hfiles) (is_dir_not_file _ Hdir))
    as [Hnot Hsame].
  rewrite Hsame. destruct (mc !! f) as [[?|d]|] eqn:Ef; try done.
  intros [= <-].
  destruct (agree_put_below moved mc mm f k q (File c) (conj Hlook Hfiles))
    as (mc' & mm' & -> & -> & Hag' & _ & Hmc & Hmm); [by rewrite Ef|].
  exists mc', (delete n mm'). split; [done|]. split; [done|].
  apply (agree_delete _ _ _ _ c); [done|]. by rewrite Hmc.
Qed.

Lemma related_print line wc wm wc' wm' r1 r2 :
  related wc wm → print line wc = (r1, wc') → print line wm = (r2, wm') →
  related wc' wm'.
Proof. rewrite !print_unfold. by intros Hr [= _ <-] [= _ <-]. Qed.

Lemma related_mkdir f wc wm wc' wm' :
  related wc wm →
  on_disk (mkdir_exist_ok f) wc = (inr tt, wc') →
  on_disk (mkdir_exist_ok f) wm = (inr tt, wm') →
  related wc' wm'.
Proof.
  intros (moved & mc & mm & Hc & Hm & Hag) Hrc Hrm.
  apply on_disk_ok in Hrc as (rc & rc' & Hc' & Hrc & ->).
  apply on_disk_ok in Hrm as (rm & rm' & Hm' & Hrm & ->).
  rewrite Hc in Hc'. rewrite Hm in Hm'. injection Hc' as <-. injection Hm' as <-.
  destruct (mkdir_agree _ _ _ _ _ _ Hag Hrc Hrm) as (mc' & mm' & -> & -> & Hag').
  by exists moved, mc', mm'.
Qed.

Lemma related_transfer_one n f wc wm wc' wm' :
  related wc wm →
  on_disk (copy2 n f) wc = (inr tt, wc') →
  on_disk (move n f) wm = (inr tt, wm') →
  related wc' wm'.
Proof.
  intros (moved & mc & mm & Hc & Hm & Hag) Hrc Hrm.
  apply on_disk_ok in Hrc as (rc & rc' & Hc' & Hrc & ->).
  apply on_disk_ok in Hrm as (rm & rm' & Hm' & Hrm & ->).
  rewrite Hc in Hc'. rewrite Hm in Hm'. injection Hc' as <-. injection Hm' as <-.
  destruct (transfer_agree _ _ _ _ _ _ _ Hag Hrc Hrm) as (mc' & mm' & -> & -> & Hag').
  by exists ({[n]} ∪ moved), mc', mm'.
Qed.

Lemma related_transfer f pair wc wm wc' wm' :
  related wc wm →
  transfer false f pair wc = (inr tt, wc') →
  transfer true f pair wm = (inr tt, wm') →
  related wc' wm'.
Proof.
  destruct pair as [t i]. unfold transfer. intros Hr Hc Hm.
  apply bind_ok in Hc as ([] & wc1 & Hc1 & Hc2).
  apply bind_ok in Hm as ([] & wm1 & Hm1 & Hm2).
  eapply related_transfer_one; [|exact Hc2|exact Hm2].
  eapply related_transfer_one; [exact Hr|exact Hc1|exact Hm1].
Qed.

(** Two loops over the same list that both end normally keep a relation
    that their bodies keep. *)
Lemma for_each_related {A} (R : world → world → Prop) (l : list A)
    (body1 body2 : A → M unit) w1 w2 w1' w2' :
  (∀ x u1 u2 u1' u2', x ∈ l → R u1 u2 →
     body1 x u1 = (inr tt, u1') → body2 x u2 = (inr tt, u2') → R u1' u2') →
  R w1 w2 →
  for_each l body1 w1 = (inr tt, w1') →
  for_each l body2 w2 = (inr tt, w2') →
  R w1' w2'.
Proof.
  revert w1 w2. induction l as [|x l IH]; intros w1 w2 Hbody HR.
  - by intros [= <-] [= <-].
  - rewrite !for_each_cons.
    destruct (body1 x w1) as [[?|[]] u1] eqn:H1; [done|].
    destruct (body2 x w2) as [[?|[]] u2] eqn:H2; [done|].
    apply IH.
    + intros y ? ? ? ? Hy. apply Hbody. by right.
    + eapply Hbody; [by left|exact HR|exact H1|exact H2].
Qed.

Section SideBySide.
Variable flushed : list string → string.
Variables f cn : string.

Lemma related_open wc wm wc' wm' :
  related wc wm →
  open_w [f; cn] wc = (inr tt, wc') →
  open_w [f; cn] wm = (inr tt, wm') →
  related_in f wc' wm'.
Proof.
  intros (moved & mc & mm & Hc & Hm & Hag) Hrc Hrm. unfold open_w in *.
  apply bind_ok in Hrc as ([] & wc1 & Hrc & Hresc).
  apply bind_ok in Hrm as ([] & wm1 & Hrm & Hresm).
  apply on_disk_ok in Hrc as (rc & rc' & Hc' & Hrc & ->).
  apply on_disk_ok in Hrm as (rm & rm' & Hm' & Hrm & ->).
  rewrite Hc in Hc'. rewrite Hm in Hm'. injection Hc' as <-. injection Hm' as <-.
  apply create_file_below in Hrc as [-> Hdir].
  apply create_file_below in Hrm as [-> _].
  rewrite lookup_path_1 in Hdir.
  destruct (agree_put_below moved mc mm f cn [] (File "") Hag Hdir)
    as (mc' & mm' & Hpc & Hpm & Hag' & Hdir' & _).
  unfold reset_outbuf in *. injection Hresc as <-. injection Hresm as <-.
  split; [done|]. exists moved, mc', mm'. cbn [disk]. by rewrite Hpc, Hpm.
Qed.

Lemma related_write chunk wc wm wc' wm' :
  related_in f wc wm →
  write flushed [f; cn] chunk wc = (inr tt, wc') →
  write flushed [f; cn] chunk wm = (inr tt, wm') →
  related_in f wc' wm'.
Proof.
  intros (Hbuf & moved & mc & mm & Hc & Hm & Hag & Hdir).
  rewrite !write_effect. intros [= <-] [= <-]. cbn [disk outbuf].
  rewrite Hbuf. split; [done|]. rewrite Hc, Hm. cbn [fmap option_fmap option_map].
  destruct (agree_put_below moved mc mm f cn [] (File (flushed (outbuf wm ++ [chunk])))
              Hag Hdir) as (mc' & mm' & Hpc & Hpm & Hag' & Hdir' & _).
  exists moved, mc', mm'. by rewrite Hpc, Hpm.
Qed.

Lemma related_read t wc wm :
  related_in f wc wm → fst (read_text [f; t] wc) = fst (read_text [f; t] wm).
Proof.
  intros (Hbuf & moved & mc & mm & Hc & Hm & Hag & Hdir).
  unfold read_text. rewrite Hc, Hm, !lookup_Some_root.
  rewrite (agree_lookup_below _ _ _ f [t] Hag) by done.
  destruct (lookup_path [f; t] (Dir mc)) as [[raw|?]|]; try done.
  by destruct (decode_text raw).
Qed.

Lemma related_append n item wc wm wc' wm' :
  related_in f wc wm →
  append_document flushed f [f; cn] n item wc = (inr tt, wc') →
  append_document flushed f [f; cn] n item wm = (inr tt, wm') →
  related_in f wc' wm'.
Proof.
  destruct item as [i [t im]]. unfold append_document. intros Hr Hc Hm.
  apply bind_ok in Hc as (docc & wc1 & Hreadc & Hc).
  apply bind_ok in Hm as (docm & wm1 & Hreadm & Hm).
  pose proof (related_read t wc wm Hr) as Hread.
  rewrite Hreadc, Hreadm in Hread. injection Hread as ->.
  apply read_text_ok in Hreadc as [-> _]. apply read_text_ok in Hreadm as [-> _].
  apply bind_ok in Hc as ([] & wc2 & Hwc & Hc).
  apply bind_ok in Hm as ([] & wm2 & Hwm & Hm).
  pose proof (related_write _ _ _ _ _ Hr Hwc Hwm) as Hr2.
  destruct (i <? n - 1).
  - by apply (related_write PAGEBREAK wc2 wm2).
  - by injection Hc as <-; injection Hm as <-.
Qed.

Lemma related_close wc wm :
  related_in f wc wm → related (close [f; cn] wc) (close [f; cn] wm).
Proof.
  intros (Hbuf & moved & mc & mm & Hc & Hm & Hag & Hdir).
  unfold close. rewrite Hbuf, Hc, Hm. cbn [fmap option_fmap option_map].
  destruct (agree_put_below moved mc mm f cn []
              (File (String.concat "" (outbuf wm))) Hag Hdir)
    as (mc' & mm' & Hpc & Hpm & Hag' & _).
  exists moved, mc', mm'. cbn [disk]. by rewrite Hpc, Hpm.
Qed.

Lemma related_concatenate pairs wc wm wc' wm' :
  related wc wm →
  concatenate flushed f cn pairs wc = (inr tt, wc') →
  concatenate flushed f cn pairs wm = (inr tt, wm') →
  related wc' wm'.
Proof.
  unfold concatenate. intros Hr Hc Hm.
  apply bind_ok in Hc as ([] & wc1 & Hoc & Hc).
  apply bind_ok in Hm as ([] & wm1 & Hom & Hm).
  pose proof (related_open _ _ _ _ Hr Hoc Hom) as Hr1.
  unfold finally in Hc, Hm.
  destruct (for_each _ _ wc1) as [[?|[]] wc2] eqn:Hlc; [done|].
  destruct (for_each _ _ wm1) as [[?|[]] wm2] eqn:Hlm; [done|].
  injection Hc as <-. injection Hm as <-.
  apply related_close.
  eapply (for_each_related (related_in f)); [|exact Hr1|exact Hlc|exact Hlm].
  intros item u1 u2 u1' u2' _. apply related_append.
Qed.

End SideBySide.

Lemma related_process_batch flushed batch_size folder_prefix text_ext combined_name
    file_pairs batch_num wc wm wc' wm' :
  related wc wm →
  process_batch flushed batch_size folder_prefix text_ext combined_name false
    file_pairs batch_num wc = (inr tt, wc') →
  process_batch flushed batch_size folder_prefix text_ext combined_name true
    file_pairs batch_num wm = (inr tt, wm') →
  related wc' wm'.
Proof.
  unfold process_batch. intros Hr Hc Hm.
  apply bind_ok in Hc as ([] & wc1 & Hc1 & Hc). apply bind_ok in Hm as ([] & wm1 & Hm1 & Hm).
  pose proof (related_mkdir _ _ _ _ _ Hr Hc1 Hm1) as Hr1.
  apply bind_ok in Hc as ([] & wc2 & Hc2 & Hc). apply bind_ok in Hm as ([] & wm2 & Hm2 & Hm).
  pose proof (related_print _ _ _ _ _ _ _ Hr1 Hc2 Hm2) as Hr2.
  apply bind_ok in Hc as ([] & wc3 & Hc3 & Hc). apply bind_ok in Hm as ([] & wm3 & Hm3 & Hm).
  assert (related wc3 wm3) as Hr3.
  { rewrite print_unfold in Hc3, Hm3. injection Hc3 as <-. injection Hm3 as <-.
    destruct Hr2 as (moved & mc & mm & ? & ? & ?). by exists moved, mc, mm. }
  apply bind_ok in Hc as ([] & wc4 & Hc4 & Hc). apply bind_ok in Hm as ([] & wm4 & Hm4 & Hm).
  assert (related wc4 wm4) as Hr4.
  { eapply (for_each_related related); [|exact Hr3|exact Hc4|exact Hm4].
    intros pair u1 u2 u1' u2' _. apply related_transfer. }
  apply bind_ok in Hc as ([] & wc5 & Hc5 & Hc). apply bind_ok in Hm as ([] & wm5 & Hm5 & Hm).
  pose proof (related_print _ _ _ _ _ _ _ Hr4 Hc5 Hm5) as Hr5.
  apply bind_ok in Hc as ([] & wc6 & Hc6 & Hc). apply bind_ok in Hm as ([] & wm6 & Hm6 & Hm).
  pose proof (related_concatenate _ _ _ _ _ _ _ _ Hr5 Hc6 Hm6) as Hr6.
  by apply (related_print _ _ _ _ _ _ _ Hr6 Hc Hm).
Qed.

Lemma discover_dir text_ext image_ext source p ps :
  discover text_ext image_ext source = inr (p :: ps) → ∃ m, source = Some (Dir m).
Proof. destruct source as [[?|m]|]; [done|eauto|done]. Qed.

(** C9. When the copying run and the moving run from the same initial state
    both end normally, the combined file of every folder, hence of every
    batch folder, has the same content after both: the documents are read
    in the batch folder after the transfer, where both runs placed the same
    files. *)
Theorem C9_combined_text_same_in_both_modes flushed source_dir batch_size
    folder_prefix text_ext image_ext combined_name w wc wm :
  organize_files_into_batches flushed source_dir batch_size folder_prefix
    text_ext image_ext combined_name false w = (inr tt, wc) →
  organize_files_into_batches flushed source_dir batch_size folder_prefix
    text_ext image_ext combined_name true w = (inr tt, wm) →
  ∀ folder,
    disk wc ≫= lookup_path [folder; combined_name]
    = disk wm ≫= lookup_path [folder; combined_name].
Proof.
  intros Hc Hm folder.
  destruct (disk w) as [root|] eqn:Hroot.
  2: { rewrite organize_missing in Hc, Hm by done.
       injection Hc as <-. injection Hm as <-. done. }
  assert (is_Some (disk w)) as Hs by (rewrite Hroot; eauto).
  pose proof (organize_discovered flushed source_dir batch_size folder_prefix
                text_ext image_ext combined_name false w Hs) as Hrc.
  pose proof (organize_discovered flushed source_dir batch_size folder_prefix
                text_ext image_ext combined_name true w Hs) as Hrm.
  destruct (discover text_ext image_ext (disk w)) as [e|[|p ps]] eqn:Hd.
  - destruct Hrc as [out Hrc]. congruence.
  - destruct Hrc as [outc Hrc]. destruct Hrm as [outm Hrm].
    rewrite Hrc in Hc. rewrite Hrm in Hm. injection Hc as <-. injection Hm as <-. done.
  - destruct Hrc as [outc Hrc]. destruct Hrm as [outm Hrm].
    destruct (discover_dir _ _ _ _ _ Hd) as [m Hm0].
    destruct (num_batches_of _ _) as [nb|]; [|congruence].
    rewrite Hrc in Hc. rewrite Hrm in Hm. clear Hrc Hrm.
    match type of Hc with context [for_each ?l ?b ?w0] =>
      destruct (for_each l b w0) as [[?|[]] wc2] eqn:Hlc; [done|] end.
    match type of Hm with context [for_each ?l ?b ?w0] =>
      destruct (for_each l b w0) as [[?|[]] wm2] eqn:Hlm; [done|] end.
    injection Hc as <-. injection Hm as <-. cbn [disk].
    assert (related wc2 wm2) as (moved & mc & mm & -> & -> & Hag).
    { eapply (for_each_related related); [| |exact Hlc|exact Hlm].
      - intros b u1 u2 u1' u2' _. apply related_process_batch.
      - exists ∅, m, m. cbn [disk]. rewrite Hm0. repeat split; try done; apply agree_refl. }
    rewrite !lookup_Some_root. symmetry. by apply (agree_lookup_below moved).
Qed.

Lemma C9_combined_text_same_in_both_modes_witness :
  let w := initial_world (Some (dir_of
    [("a.txt", File "A"); ("a.jpg", File "I"); ("b.txt", File "B"); ("b.jpg", File "J");
     ("c.txt", File "C"); ("c.jpg", File "K")])) in
  let wc := snd (organize_files_into_batches (λ _, "") "src" 2 "Batch" ".txt" ".jpg"
                   "combined.txt" false w) in
  let wm := snd (organize_files_into_batches (λ _, "") "src" 2 "Batch" ".txt" ".jpg"
                   "combined.txt" true w) in
  disk wc ≫= lookup_path ["Batch_01"; "combined.txt"]
  = disk wm ≫= lookup_path ["Batch_01"; "combined.txt"]
  ∧ disk wm ≫= lookup_path ["Batch_01"; "combined.txt"]
    = Some (File ("A" +:+ PAGEBREAK +:+ "B")).
Proof.
  intros w wc wm. split.
  - apply (C9_combined_text_same_in_both_modes (λ _, "") "src" 2 "Batch" ".txt" ".jpg"
             "combined.txt" w wc wm); vm_compute; reflexivity.
  - vm_compute. reflexivity.
Defined.

(** * What the transfers leave behind *)

Lemma put_path_File k q x c : put_path (k :: q) x (File c) = File c.
Proof. reflexivity. Qed.

Lemma put_path_1_Dir k x d : put_path [k] x (Dir d) = Dir (<[k := x]> d).
Proof. reflexivity. Qed.

Lemma lookup_put_path_below_same f k q p x root c :
  lookup_path [f] root = Some c →
  lookup_path (f :: p) (put_path (f :: k :: q) x root)
  = lookup_path p (put_path (k :: q) x c).
Proof.
  intros E. rewrite put_path_below, E, (lookup_path_cons f p), lookup_put_path_1.
  destruct root as [?|m]; [done|]. by rewrite decide_True.
Qed.

Lemma lookup_put_path_apart f f' n k p q y root :
  ¬ (f = f' ∧ n = k) →
  lookup_path (f :: n :: p) (put_path (f' :: k :: q) y root)
  = lookup_path (f :: n :: p) root.
Proof.
  intros Hne. destruct (decide (f' = f)) as [->|Hf]; [|by apply lookup_put_path_other].
  assert (k ≠ n) as Hk by (intros ->; by apply Hne).
  destruct (lookup_path [f] root) as [c|] eqn:E.
  - rewrite (lookup_put_path_below_same _ _ _ _ _ _ c) by done.
    rewrite lookup_put_path_other by done.
    by rewrite (lookup_path_cons f (n :: p) root), E.
  - by rewrite put_path_below, E.
Qed.

Lemma put_below_retained f' k q x root :
  retained (Some root) (Some (put_path (f' :: k :: q) x root)).
Proof.
  intros n. rewrite !lookup_Some_root.
  destruct (decide (f' = n)) as [<-|Hne]; [|by rewrite lookup_put_path_other].
  destruct (lookup_path [f'] root) as [c|] eqn:E; [|by rewrite put_path_below, E].
  rewrite (lookup_put_path_below_same _ _ _ _ _ _ c) by done.
  change (lookup_path [] ?r) with (Some r).
  split; [done|]. intros c0 [= ->]. by rewrite put_path_File.
Qed.

Lemma retained_refl d : retained d d.
Proof. by intros n. Qed.

Lemma retained_trans d1 d2 d3 : retained d1 d2 → retained d2 d3 → retained d1 d3.
Proof.
  intros H1 H2 n. destruct (H1 n) as [P1 F1], (H2 n) as [P2 F2]. split; eauto.
Qed.

Lemma mkdir_retained f' root root' :
  mkdir_exist_ok f' root = inr root' → retained (Some root) (Some root').
Proof.
  unfold mkdir_exist_ok. destruct root as [?|m]; [done|].
  destruct (m !! f') as [[?|?]|] eqn:E; [done| |]; intros [= <-].
  - apply retained_refl.
  - intros n. rewrite !lookup_Some_root, !lookup_path_1, lookup_insert.
    case_decide; [subst; by rewrite E|done].
Qed.

Lemma copy2_retained n f root root' :
  copy2 n f root = inr root' → retained (Some root) (Some root').
Proof.
  unfold copy2. destruct (dot_name n); [done|].
  destruct (lookup_path [n] root) as [[c|?]|]; [|done..].
  set (real_dst := if is_dir (lookup_path [f; n] root) then [f; n] ++ [n] else [f; n]).
  assert (∃ k q, real_dst = f :: k :: q) as (k & q & ->).
  { subst real_dst. destruct (is_dir _); by do 2 eexists. }
  intros [-> _]%create_file_below. apply put_below_retained.
Qed.

Lemma lookup_delete_entry f p n' root :
  lookup_path (f :: p) (delete_entry n' root)
  = if decide (n' = f) then None else lookup_path (f :: p) root.
Proof.
  rewrite !(lookup_path_cons f p). destruct root as [?|m]; [by case_decide|].
  cbn [delete_entry]. rewrite !lookup_path_1, lookup_delete. by case_decide.
Qed.

(** ** Moving: what is removed, what is kept, and where the source goes *)

Lemma undisturbed_refl f' deleted written d : undisturbed f' deleted written d d.
Proof. split; auto. Qed.

Lemma undisturbed_trans f' deleted written d1 d2 d3 :
  undisturbed f' deleted written d1 d2 → undisturbed f' deleted written d2 d3 →
  undisturbed f' deleted written d1 d3.
Proof.
  intros [G1 P1] [G2 P2]. split.
  - intros n Hn. destruct (G2 n Hn) as [H2|H2]; [by left|].
    rewrite H2. by apply G1.
  - intros f n p Hd Hw. by rewrite P2, P1.
Qed.

Lemma undisturbed_weaken f' (deleted deleted' written written' : string → Prop) d d' :
  (∀ f, deleted f → deleted' f) → (∀ n, written n → written' n) →
  undisturbed f' deleted written d d' → undisturbed f' deleted' written' d d'.
Proof.
  intros Hd Hw [G P]. split; [done|]. intros f n p Hf Hn. apply P; [eauto|].
  intros [-> Hwn]. apply Hn. eauto.
Qed.

Lemma undisturbed_gone f' deleted written d d' n :
  undisturbed f' deleted written d d' → n ≠ f' → gone n d → gone n d'.
Proof. intros [G _] Hn Hg. unfold gone in *. destruct (G n Hn) as [?|H]; congruence. Qed.

Lemma undisturbed_back f' deleted written d d' n x :
  undisturbed f' deleted written d d' → n ≠ f' →
  d' ≫= lookup_path [n] = Some x → d ≫= lookup_path [n] = Some x.
Proof. intros [G _] Hn Hx. destruct (G n Hn) as [?|H]; congruence. Qed.

Lemma undisturbed_held f' (deleted written : string → Prop) d d' f n x :
  undisturbed f' deleted written d d' → ¬ deleted f → ¬ (f = f' ∧ written n) →
  held f n x d → held f n x d'.
Proof.
  intros [_ P] Hd Hw [H|H]; [left|right]; by rewrite P.
Qed.

Lemma put_below_undisturbed f' k q x root :
  undisturbed f' (λ _, False) (λ n, n = k)
    (Some root) (Some (put_path (f' :: k :: q) x root)).
Proof.
  split.
  - intros n Hn. right. rewrite !lookup_Some_root. by rewrite lookup_put_path_other.
  - intros f n p _ Hw. rewrite !lookup_Some_root. apply lookup_put_path_apart.
    intros [-> ->]. by apply Hw.
Qed.


Lemma delete_entry_undisturbed f' n' root :
  undisturbed f' (λ f, f = n') (λ _, False) (Some root) (Some (delete_entry n' root))
  ∧ gone n' (Some (delete_entry n' root)).
Proof.
  unfold undisturbed, gone. rewrite !lookup_Some_root. repeat split.
  - intros n _. rewrite !lookup_Some_root, lookup_delete_entry. case_decide; auto.
  - intros f n p Hf _. rewrite !lookup_Some_root, lookup_delete_entry.
    by rewrite decide_False by congruence.
  - rewrite lookup_delete_entry. by rewrite decide_True.
Qed.

Lemma move_undisturbed n' f' root root' :
  move n' f' root = inr root' →
  n' ≠ f'
  ∧ undisturbed f' (λ f, f = n') (λ n, n = n') (Some root) (Some root')
  ∧ gone n' (Some root')
  ∧ ∃ x, lookup_path [n'] root = Some x ∧ held f' n' x (Some root').
Proof.
  unfold move. destruct (dot_name n'); [done|].
  set (into_dir := is_dir (lookup_path [f'; n'] root)).
  set (real_dst := if into_dir then [f'; n'] ++ [n'] else [f'; n']).
  destruct (into_dir && present (lookup_path real_dst root)); [done|].
  destruct (lookup_path [n'] root) as [x|] eqn:Ex; [|done].
  destruct (String.eqb_spec n' f') as [->|Hne]; [by destruct x|].
  assert (∀ r, undisturbed f' (λ _, False) (λ n, n = n') (Some root) (Some r) →
               held f' n' x (Some r) →
               n' ≠ f'
               ∧ undisturbed f' (λ f, f = n') (λ n, n = n')
                   (Some root) (Some (delete_entry n' r))
               ∧ gone n' (Some (delete_entry n' r))
               ∧ ∃ x0, Some x = Some x0 ∧ held f' n' x0 (Some (delete_entry n' r)))
    as Hfinish.
  { intros r Hu Hh. destruct (delete_entry_undisturbed f' n' r) as [Hd Hg].
    split; [done|]. split; [|split; [done|]].
    - eapply undisturbed_trans.
      + eapply undisturbed_weaken; [| |exact Hu]; [done|auto].
      + eapply undisturbed_weaken; [| |exact Hd]; [auto|done].
    - exists x. split; [done|].
      eapply undisturbed_held; [exact Hd|congruence|tauto|done]. }
  assert (is_dir (lookup_path [f'] root) = true →
          held f' n' x (Some (put_path real_dst x root))) as Hheld.
  { intros Hdir. unfold held. rewrite !lookup_Some_root. subst real_dst.
    destruct into_dir eqn:Hinto.
    - right. cbn [app].
      destruct (lookup_path [f'] root) as [c|] eqn:Ef; [|done].
      rewrite (lookup_put_path_below_same _ _ _ _ _ _ c) by done.
      subst into_dir. rewrite (lookup_path_cons f' [n']), Ef in Hinto.
      cbn [mbind option_bind] in Hinto.
      destruct (lookup_path [n'] c) as [[?|dn]|] eqn:En; try done.
      rewrite put_path_below, En, (lookup_path_cons n' [n']), lookup_put_path_1.
      destruct c as [?|dc]; [done|]. rewrite decide_True by done.
      cbn [mbind option_bind]. rewrite put_path_1_Dir, lookup_path_1.
      by rewrite lookup_insert_eq.
    - left. by rewrite lookup_put_path_2, decide_True, Hdir. }
  assert (undisturbed f' (λ _, False) (λ n, n = n')
            (Some root) (Some (put_path real_dst x root))) as Hput.
  { subst real_dst. destruct into_dir; apply put_below_undisturbed. }
  destruct (lookup_path [f'] root) as [[?|d]|] eqn:Ef.
  - by destruct x.
  - destruct x as [c|dx].
    + intros [= <-]. apply Hfinish; [done|by apply Hheld].
    + destruct (is_file _); [done|]. intros [= <-].
      apply Hfinish; [done|by apply Hheld].
  - destruct x as [c|dx]; [done|]. intros [= <-]. apply Hfinish.
    + split.
      * intros n Hn. right. rewrite !lookup_Some_root.
        by rewrite lookup_put_path_other.
      * intros f n p _ Hw. rewrite !lookup_Some_root.
        destruct (decide (f' = f)) as [<-|Hnf]; [|by rewrite lookup_put_path_other].
        rewrite !(lookup_path_cons f' (n :: p)), lookup_put_path_1, Ef.
        destruct root as [?|m]; [done|]. rewrite decide_True by done.
        cbn [mbind option_bind].
        rewrite (lookup_path_cons n p), lookup_path_1, lookup_singleton_ne; [done|].
        intros ->. by apply Hw.
    + left. rewrite lookup_Some_root, (lookup_path_cons f' [n']), lookup_put_path_1.
      destruct root as [?|m]; [done|]. rewrite decide_True by done.
      cbn [mbind option_bind]. rewrite lookup_path_1. by rewrite lookup_singleton_eq.
Qed.

(** * The stages of a batch *)

(** A loop that ends normally takes the tree along a reflexive and
    transitive relation that each iteration follows. *)
Lemma for_each_steps {A} (R : option node → option node → Prop) (l : list A)
    (body : A → M unit) w w' :
  (∀ d, R d d) → (∀ a b c, R a b → R b c → R a c) →
  (∀ x w1 w2, x ∈ l → body x w1 = (inr tt, w2) → R (disk w1) (disk w2)) →
  for_each l body w = (inr tt, w') →
  R (disk w) (disk w').
Proof.
  intros Hrefl Htrans. revert w. induction l as [|x l IH]; intros w Hbody.
  - by intros [= <-].
  - rewrite for_each_cons. destruct (body x w) as [[?|[]] w1] eqn:Hx; [done|].
    intros Hrest. apply (Htrans _ (disk w1)).
    + apply (Hbody x); [by left|done].
    + apply IH; [|done]. intros y ? ? Hy. apply Hbody. by right.
Qed.

Lemma on_disk_steps (R : option node → option node → Prop) call w w' :
  (∀ root root', call root = inr root' → R (Some root) (Some root')) →
  on_disk call w = (inr tt, w') → R (disk w) (disk w').
Proof.
  intros Hcall (root & root' & Hroot & Hres & ->)%on_disk_ok.
  rewrite Hroot. by apply Hcall.
Qed.

Lemma concatenate_steps (R : option node → option node → Prop)
    flushed f cn pairs w w' :
  (∀ d, R d d) → (∀ a b c, R a b → R b c → R a c) →
  (∀ d x, R d (put_path [f; cn] x <$> d)) →
  concatenate flushed f cn pairs w = (inr tt, w') →
  R (disk w) (disk w').
Proof.
  intros Hrefl Htrans Hput. unfold concatenate. intros Hrun.
  apply bind_ok in Hrun as ([] & w1 & Hopen & Hrun).
  unfold open_w in Hopen. apply bind_ok in Hopen as ([] & w0 & Hcreate & Hreset).
  apply on_disk_ok in Hcreate as (root & root1 & Hroot & Hcreate & ->).
  apply create_file_below in Hcreate as [-> _].
  unfold reset_outbuf in Hreset. injection Hreset as <-.
  unfold finally in Hrun.
  destruct (for_each _ _ _) as [[e|[]] w2] eqn:Hloop; [done|].
  injection Hrun as <-.
  apply (Htrans _ (Some (put_path [f; cn] (File "") root))).
  { rewrite Hroot. apply (Hput (Some root)). }
  apply (Htrans _ (disk w2)); [|apply Hput].
  apply (for_each_steps R) in Hloop; [exact Hloop|done|done|].
  intros [i [t im]] u1 u2 _. unfold append_document. intros Hdoc.
  apply bind_ok in Hdoc as (doc & u & [-> _]%read_text_ok & Hdoc).
  apply bind_ok in Hdoc as ([] & u' & Hw & Hdoc).
  rewrite write_effect in Hw. injection Hw as <-.
  eapply Htrans; [apply (Hput (disk u1))|].
  destruct (i <? _).
  - rewrite write_effect in Hdoc. injection Hdoc as <-. apply Hput.
  - injection Hdoc as <-. apply Hrefl.
Qed.

Lemma process_batch_stages flushed batch_size folder_prefix text_ext combined_name
    move_files file_pairs batch_num w w' :
  process_batch flushed batch_size folder_prefix text_ext combined_name move_files
    file_pairs batch_num w = (inr tt, w') →
  let folder := folder_name_of folder_prefix batch_num in
  let batch := batch_pairs_of file_pairs batch_size batch_num in
  ∃ w1 w2 w3 w4 w5,
    on_disk (mkdir_exist_ok folder) w = (inr tt, w1)
    ∧ disk w2 = disk w1
    ∧ for_each batch (transfer move_files folder) w2 = (inr tt, w3)
    ∧ disk w4 = disk w3
    ∧ concatenate flushed folder combined_name batch w4 = (inr tt, w5)
    ∧ disk w' = disk w5.
Proof.
  unfold process_batch. intros H.
  apply bind_ok in H as ([] & w1 & H1 & H).
  apply bind_ok in H as ([] & w1' & Hp1 & H).
  apply bind_ok in H as ([] & w2 & Hp2 & H).
  apply bind_ok in H as ([] & w3 & H3 & H).
  apply bind_ok in H as ([] & w4 & Hp4 & H).
  apply bind_ok in H as ([] & w5 & H5 & H).
  rewrite print_unfold in Hp1, Hp2, Hp4, H.
  injection Hp1 as <-. injection Hp2 as <-. injection Hp4 as <-. injection H as <-.
  exists w1. eexists. exists w3. eexists. exists w5.
  split; [exact H1|]. split; [|split; [exact H3|]]; [done|].
  split; [|split; [exact H5|]]; done.
Qed.

Lemma undisturbed_put f cn d x :
  undisturbed f (λ _, False) (λ n, n = cn) d (put_path [f; cn] x <$> d).
Proof. destruct d as [root|]; [apply put_below_undisturbed|apply undisturbed_refl]. Qed.

Lemma retained_put f cn d x : retained d (put_path [f; cn] x <$> d).
Proof. destruct d as [root|]; [apply put_below_retained|apply retained_refl]. Qed.

(** ** Moving *)

Lemma transfer_move folder t i w w' :
  transfer true folder (t, i) w = (inr tt, w') →
  t ≠ folder ∧ i ≠ folder
  ∧ undisturbed folder (λ f, f = t ∨ f = i) (λ n, n = t ∨ n = i) (disk w) (disk w')
  ∧ gone t (disk w') ∧ gone i (disk w')
  ∧ ∃ xt xi,
      disk w ≫= lookup_path [t] = Some xt
      ∧ disk w ≫= lookup_path [i] = Some xi
      ∧ held folder t xt (disk w') ∧ held folder i xi (disk w').
Proof.
  unfold transfer. intros H. apply bind_ok in H as ([] & w1 & H1 & H2).
  apply on_disk_ok in H1 as (r0 & r1 & Hr0 & Hm1 & ->).
  apply on_disk_ok in H2 as (r1' & r2 & Hr1 & Hm2 & ->).
  cbn [disk] in *. injection Hr1 as <-. rewrite Hr0.
  apply move_undisturbed in Hm1 as (Ht & Hu1 & Hg1 & xt & Hxt & Hh1).
  apply move_undisturbed in Hm2 as (Hi & Hu2 & Hg2 & xi & Hxi & Hh2).
  assert (i ≠ t) as Hit.
  { intros ->. unfold gone in Hg1. rewrite lookup_Some_root in Hg1. congruence. }
  split; [done|]. split; [done|]. split.
  { eapply undisturbed_trans.
    - eapply undisturbed_weaken; [| |exact Hu1]; intros ? ->; by left.
    - eapply undisturbed_weaken; [| |exact Hu2]; intros ? ->; by right. }
  split; [by eapply undisturbed_gone|]. split; [done|].
  exists xt, xi. rewrite !lookup_Some_root. split; [done|]. split.
  - eapply (undisturbed_back _ _ _ (Some r0)) in Hu1; [exact Hu1|done|].
    by rewrite lookup_Some_root.
  - split; [|done]. eapply undisturbed_held; [exact Hu2| | |done].
    + congruence.
    + intros [_ ->]. done.
Qed.

Lemma transfers_move folder batch w w' :
  for_each batch (transfer true folder) w = (inr tt, w') →
  undisturbed folder (member_of batch) (member_of batch) (disk w) (disk w')
  ∧ ∀ t i, (t, i) ∈ batch →
      t ≠ folder ∧ i ≠ folder ∧ gone t (disk w') ∧ gone i (disk w')
      ∧ ∃ xt xi,
          disk w ≫= lookup_path [t] = Some xt
          ∧ disk w ≫= lookup_path [i] = Some xi
          ∧ held folder t xt (disk w') ∧ held folder i xi (disk w').
Proof.
  intros Hloop.
  pose (Inv := λ u : world,
          undisturbed folder (member_of batch) (member_of batch) (disk w) (disk u)).
  pose (Post := λ (p : string * string) (u : world),
          p.1 ≠ folder ∧ p.2 ≠ folder ∧ gone p.1 (disk u) ∧ gone p.2 (disk u)
          ∧ ∃ xt xi,
              disk w ≫= lookup_path [p.1] = Some xt
              ∧ disk w ≫= lookup_path [p.2] = Some xi
              ∧ held folder p.1 xt (disk u) ∧ held folder p.2 xi (disk u)).
  assert (∀ t i u1 u2, (t, i) ∈ batch → transfer true folder (t, i) u1 = (inr tt, u2) →
            undisturbed folder (member_of batch) (member_of batch) (disk u1) (disk u2))
    as Hweak.
  { intros t i u1 u2 Hin (_ & _ & Hu & _)%transfer_move.
    eapply undisturbed_weaken; [| |exact Hu]; intros n Hn; by exists t, i. }
  destruct (for_each_invariant Inv Post batch (transfer true folder) w w')
    as [Hinv Hpost]; [| |apply undisturbed_refl|exact Hloop|].
  - intros [t i] u1 u2 Hin Hi Hstep. split.
    + eapply undisturbed_trans; [exact Hi|]. by eapply Hweak.
    + apply transfer_move in Hstep
        as (Ht & Hi' & _ & Hg1 & Hg2 & xt & xi & Hxt & Hxi & Hh1 & Hh2).
      repeat split; try done. exists xt, xi.
      split; [by eapply undisturbed_back|]. split; [by eapply undisturbed_back|done].
  - intros [t i] [t' i'] u1 u2 Hin Hin' Hi
      (Ht & Hi' & Hg1 & Hg2 & xt & xi & Hxt & Hxi & Hh1 & Hh2) Hstep.
    apply transfer_move in Hstep
      as (Ht' & Hi'' & Hu & _ & _ & xt' & xi' & Hxt' & Hxi' & _).
    cbn [fst snd] in *. unfold gone in Hg1, Hg2.
    repeat split; try done.
    + by eapply undisturbed_gone.
    + by eapply undisturbed_gone.
    + exists xt, xi. repeat split; try done.
      * eapply undisturbed_held; [exact Hu| | |done].
        -- intros [<-|<-]; congruence.
        -- intros [_ [Heq|Heq]]; simpl in Heq; congruence.
      * eapply undisturbed_held; [exact Hu| | |done].
        -- intros [<-|<-]; congruence.
        -- intros [_ [Heq|Heq]]; simpl in Heq; congruence.
  - split; [exact Hinv|]. intros t i Hin. apply (Hpost (t, i) Hin).
Qed.

Lemma Forall2_elem_of_l {A B} (P : A → B → Prop) l k x :
  Forall2 P l k → x ∈ l → ∃ y, P x y.
Proof.
  intros HF Hx. apply list_elem_of_lookup in Hx as [j Hj].
  destruct (Forall2_lookup_l _ _ _ _ _ HF Hj) as (y & _ & Hy). eauto.
Qed.


(** ** Copying *)

Lemma process_batch_copy flushed batch_size folder_prefix text_ext combined_name
    file_pairs batch_num w w' :
  process_batch flushed batch_size folder_prefix text_ext combined_name false
    file_pairs batch_num w = (inr tt, w') →
  retained (disk w) (disk w').
Proof.
  intros Hrun.
  apply process_batch_stages in Hrun
    as (w1 & w2 & w3 & w4 & w5 & Hmk & Hd2 & Hloop & Hd4 & Hcat & ->).
  eapply retained_trans; [eapply on_disk_steps; [|exact Hmk]; apply mkdir_retained|].
  rewrite <- Hd2. eapply retained_trans.
  - eapply (for_each_steps retained); [| | |exact Hloop].
    + apply retained_refl.
    + apply retained_trans.
    + intros [t i] u1 u2 _. unfold transfer. intros H.
      apply bind_ok in H as ([] & u & H1 & H2).
      eapply retained_trans; eapply on_disk_steps; try eassumption; apply copy2_retained.
  - rewrite <- Hd4.
    eapply (concatenate_steps retained); [| | |exact Hcat].
    + apply retained_refl.
    + apply retained_trans.
    + apply retained_put.
Qed.






(** * Discovery: the pairs and the report *)

Lemma pairing_complete image_ext source text_files acc pairs :
  pairing image_ext source text_files acc = inr pairs →
  (∀ p, p ∈ acc → p ∈ pairs)
  ∧ ∀ t i, t ∈ text_files → with_suffix t image_ext = inr i →
      from_option (entry_exists i) false source = true → (t, i) ∈ pairs.
Proof.
  revert acc. induction text_files as [|t rest IH]; intros acc; simpl.
  - intros [= <-]. split; [done|]. intros t i Hin. by apply elem_of_nil in Hin.
  - destruct (with_suffix t image_ext) as [e|i] eqn:Hw; [done|].
    destruct (from_option _ _ _) eqn:Hex; intros Hp.
    + apply IH in Hp as [Hacc Hall]. split.
      * intros p Hp. apply Hacc, elem_of_app. by left.
      * intros t' i' [->|Hin]%elem_of_cons Hw' Hex'; [|by apply Hall].
        assert (i' = i) as -> by congruence.
        apply Hacc, elem_of_app. right. by apply list_elem_of_singleton.
    + apply IH in Hp as [Hacc Hall]. split; [done|].
      intros t' i' [->|Hin]%elem_of_cons Hw' Hex'; [|by apply Hall].
      congruence.
Qed.

(** X1. Discovery is exact, for a text extension without glob
    metacharacter and without separator: the pairs found in a source
    directory are the entries, of any kind, whose name ends with the text
    extension, whose image name can be formed and whose image exists, each
    with that image name; a text file without image is in no pair. *)
Theorem X1_pairs_are_the_matched_text_files text_ext image_ext m pairs :
  literal_pattern text_ext = true →
  discover text_ext image_ext (Some (Dir m)) = inr pairs →
  ∀ t i,
    (t, i) ∈ pairs
    ↔ is_Some (m !! t) ∧ endswith t text_ext = true
      ∧ with_suffix t image_ext = inr i ∧ entry_exists i (Dir m) = true.
Proof.
  intros _ Hd t i. split.
  - intros Hin. destruct (discover_members _ _ _ _ _ _ Hd Hin) as (Ht & Hw & Hex).
    apply elem_of_glob_sorted in Ht as [? ?]. done.
  - intros (Hm & He & Hw & Hex). unfold discover in Hd.
    apply pairing_complete in Hd as [_ Hall]. apply Hall; [|done|done].
    by apply elem_of_glob_sorted.
Qed.

Lemma X1_pairs_are_the_matched_text_files_witness :
  ("a.txt", "a.jpg") ∈ [("a.txt", "a.jpg")]
  ↔ is_Some ((list_to_map [("a.txt", File "A"); ("a.jpg", File "I"); ("c.txt", File "C")]
              : gmap string node) !! "a.txt")
    ∧ endswith "a.txt" ".txt" = true
    ∧ with_suffix "a.txt" ".jpg" = inr "a.jpg"
    ∧ entry_exists "a.jpg"
        (Dir (list_to_map [("a.txt", File "A"); ("a.jpg", File "I"); ("c.txt", File "C")]))
      = true.
Proof.
  apply (X1_pairs_are_the_matched_text_files ".txt" ".jpg"
           (list_to_map [("a.txt", File "A"); ("a.jpg", File "I"); ("c.txt", File "C")])
           [("a.txt", "a.jpg")]).
  - reflexivity.
  - vm_compute. reflexivity.
Defined.

(** * What the run prints *)

Lemma pair_up_warnings image_ext text_files acc w :
  pair_up image_ext text_files acc w
  = (pairing image_ext (disk w) text_files acc,
     World (disk w) (stdout w ++ warnings image_ext (disk w) text_files) (outbuf w)).
Proof.
  revert acc w. induction text_files as [|t rest IH]; intros acc w; simpl.
  - rewrite app_nil_r. by destruct w.
  - destruct (with_suffix t image_ext) as [e|i].
    + rewrite app_nil_r. by destruct w.
    + rewrite bind_unfold. simpl.
      destruct (from_option (entry_exists i) false (disk w)).
      * apply IH.
      * rewrite bind_unfold, print_unfold. rewrite IH. simpl.
        by rewrite <- app_assoc.
Qed.

Lemma filter_not_elem_of_cons (x : string) (l k : list string) :
  x ∉ l →
  filter (λ t, t ∉ x :: k) l = filter (λ t, t ∉ k) l.
Proof.
  intros Hx. induction l as [|y l IH]; [done|].
  apply not_elem_of_cons in Hx as [Hxy Hx].
  rewrite !filter_cons, IH by done.
  destruct (decide (y ∉ x :: k)) as [H1|H1], (decide (y ∉ k)) as [H2|H2]; try done.
  - exfalso. apply H2. intros Hy. apply H1. by right.
  - exfalso. apply H1. intros [->|Hy]%elem_of_cons; done.
Qed.

Lemma pairing_warnings image_ext source text_files acc pairs :
  NoDup text_files →
  pairing image_ext source text_files acc = inr pairs →
  ∃ found,
    pairs = acc ++ found
    ∧ found.*1 ⊆ text_files
    ∧ warnings image_ext source text_files
      = (λ t, "Warning: No matching " +:+ image_ext +:+ " for " +:+ t)
          <$> filter (λ t, t ∉ found.*1) text_files
    ∧ (length found + length (filter (λ t, t ∉ found.*1) text_files)
       = length text_files)%nat.
Proof.
  revert acc. induction text_files as [|t rest IH]; intros acc Hnd; simpl.
  - intros [= <-]. exists []. rewrite app_nil_r. done.
  - apply NoDup_cons in Hnd as [Ht Hnd].
    destruct (with_suffix t image_ext) as [e|i] eqn:Hw; [done|].
    destruct (from_option _ _ _) eqn:Hex; intros Hp.
    + apply IH in Hp as (found & -> & Hsub & Hwarn & Hlen); [|done].
      exists ((t, i) :: found). rewrite <- app_assoc. split; [done|].
      cbn [fmap list_fmap fst].
      split; [intros x [->|Hx]%elem_of_cons; [by left|right; by apply Hsub]|].
      rewrite filter_cons. rewrite decide_False by (intros H; apply H; by left).
      rewrite filter_not_elem_of_cons by done. split; [done|]. simpl. lia.
    + apply IH in Hp as (found & -> & Hsub & Hwarn & Hlen); [|done].
      exists found. split; [done|].
      split; [intros x Hx; right; by apply Hsub|].
      rewrite filter_cons. rewrite decide_True by (intros H; by apply Ht, Hsub).
      cbn [fmap list_fmap length]. rewrite Hwarn. split; [done|]. lia.
Qed.

Lemma bind_any {A B} (m : M A) (f : A → M B) w r w' :
  (m ≫= f) w = (r, w') →
  (∃ e, m w = (inl e, w') ∧ r = inl e)
  ∨ (∃ a w1, m w = (inr a, w1) ∧ f a w1 = (r, w')).
Proof.
  rewrite bind_unfold. destruct (m w) as [[e|a] w1].
  - intros [= <- <-]. left. eauto.
  - intros H. right. eauto.
Qed.

Lemma on_disk_stdout call w r w' :
  on_disk call w = (r, w') → stdout w' = stdout w.
Proof.
  unfold on_disk. destruct (disk w) as [root|]; [|by intros [= _ <-]].
  destruct (call root); by intros [= _ <-].
Qed.

Lemma read_text_same p w r w' : read_text p w = (r, w') → w' = w.
Proof.
  unfold read_text. destruct (disk w ≫= lookup_path p) as [[raw|?]|];
    [destruct (decode_text raw)|..]; by intros [= _ <-].
Qed.

(** A loop whose body leaves the printed lines alone does so too. *)
Lemma for_each_stdout {A} (l : list A) (body : A → M unit) w r w' :
  (∀ x w1 r2 w2, x ∈ l → body x w1 = (r2, w2) → stdout w2 = stdout w1) →
  for_each l body w = (r, w') → stdout w' = stdout w.
Proof.
  revert w. induction l as [|x l IH]; intros w Hbody.
  - by intros [= _ <-].
  - rewrite for_each_cons. destruct (body x w) as [[e|[]] w1] eqn:Hx.
    + intros [= _ <-]. apply (Hbody x w _ _ ltac:(by left) Hx).
    + intros Hrest. rewrite (IH w1); [by apply (Hbody x w _ _ ltac:(by left) Hx)| |done].
      intros y ? ? ? Hy. apply Hbody. by right.
Qed.

Lemma transfer_stdout move_files f pair w r w' :
  transfer move_files f pair w = (r, w') → stdout w' = stdout w.
Proof.
  destruct pair as [t i]. unfold transfer.
  destruct move_files; intros [(e & H & _)|([] & w1 & H1 & H2)]%bind_any;
    try (by apply on_disk_stdout in H);
    apply on_disk_stdout in H1, H2; congruence.
Qed.

Lemma append_document_stdout flushed f cf n item w r w' :
  append_document flushed f cf n item w = (r, w') → stdout w' = stdout w.
Proof.
  destruct item as [i [t im]]. unfold append_document.
  intros [(e & H & _)|(doc & w1 & H1 & H2)]%bind_any.
  - by apply read_text_same in H as ->.
  - apply read_text_same in H1 as ->.
    apply bind_any in H2 as [(e & H & _)|([] & w2 & H2 & H3)]; [done|].
    injection H2 as <-. destruct (i <? n - 1); by injection H3 as _ <-.
Qed.

Lemma concatenate_stdout flushed f cn pairs w r w' :
  concatenate flushed f cn pairs w = (r, w') → stdout w' = stdout w.
Proof.
  unfold concatenate. intros [(e & H & _)|([] & w1 & H1 & H2)]%bind_any.
  - unfold open_w in H. apply bind_any in H as [(e' & H & _)|([] & w1 & H1 & H2)].
    + by apply on_disk_stdout in H.
    + done.
  - unfold open_w in H1. apply bind_any in H1 as [(e' & H & [=])|([] & w0 & H0 & H1)].
    apply on_disk_stdout in H0. injection H1 as <-.
    unfold finally in H2.
    destruct (for_each _ _ _) as [r2 w2] eqn:Hloop. injection H2 as _ <-.
    apply for_each_stdout in Hloop; [by rewrite <- H0|].
    intros x u1 r3 u2 _. apply append_document_stdout.
Qed.

Lemma process_batch_stdout flushed batch_size folder_prefix text_ext combined_name
    move_files file_pairs batch_num w r w' :
  process_batch flushed batch_size folder_prefix text_ext combined_name move_files
    file_pairs batch_num w = (r, w') →
  ∃ out,
    stdout w' = stdout w ++ out
    ∧ (r = inr tt →
       out = batch_report batch_size folder_prefix text_ext combined_name
               move_files file_pairs batch_num).
Proof.
  unfold process_batch, batch_report.
  intros [(e & H & ->)|([] & w1 & H1 & H)]%bind_any.
  { exists []. rewrite app_nil_r. split; [by apply on_disk_stdout in H|done]. }
  apply on_disk_stdout in H1.
  apply bind_any in H as [(e & H & ->)|([] & w2 & H2 & H)]; [by rewrite print_unfold in H|].
  rewrite print_unfold in H2. injection H2 as <-.
  apply bind_any in H as [(e & H & ->)|([] & w3 & H3 & H)]; [by rewrite print_unfold in H|].
  rewrite print_unfold in H3. injection H3 as <-. cbn [disk stdout outbuf] in H.
  apply bind_any in H as [(e & H & ->)|([] & w4 & H4 & H)].
  { apply for_each_stdout in H; [|intros ? ? ? ? _; apply transfer_stdout].
    eexists. split; [|intros [=]]. rewrite H. cbn [stdout]. rewrite H1, <- app_assoc. reflexivity. }
  apply for_each_stdout in H4; [|intros ? ? ? ? _; apply transfer_stdout].
  cbn [stdout] in H4.
  apply bind_any in H as [(e & H & ->)|([] & w5 & H5 & H)]; [by rewrite print_unfold in H|].
  rewrite print_unfold in H5. injection H5 as <-.
  apply bind_any in H as [(e & H & ->)|([] & w6 & H6 & H)].
  { apply concatenate_stdout in H. cbn [stdout] in H.
    eexists. split; [|intros [=]]. rewrite H, H4, H1, <- !app_assoc. reflexivity. }
  apply concatenate_stdout in H6. cbn [stdout] in H6.
  rewrite print_unfold in H. injection H as <- <-.
  exists (batch_report batch_size folder_prefix text_ext combined_name
            move_files file_pairs batch_num).
  split; [|done]. cbn [stdout]. rewrite H6, H4, H1, <- !app_assoc. reflexivity.
Qed.

Lemma batches_stdout flushed batch_size folder_prefix text_ext combined_name
    move_files file_pairs (l : list Z) w r w' :
  for_each l (process_batch flushed batch_size folder_prefix text_ext combined_name
                move_files file_pairs) w = (r, w') →
  ∃ out,
    stdout w' = stdout w ++ out
    ∧ (r = inr tt →
       out = concat (batch_report batch_size folder_prefix text_ext combined_name
                       move_files file_pairs <$> l)).
Proof.
  revert w. induction l as [|b l IH]; intros w.
  - intros [= <- <-]. exists []. by rewrite app_nil_r.
  - rewrite for_each_cons.
    destruct (process_batch _ _ _ _ _ _ _ _ _) as [[e|[]] w1] eqn:Hb.
    + intros [= <- <-]. apply process_batch_stdout in Hb as (out & Hout & _).
      exists out. done.
    + intros Hrest. apply process_batch_stdout in Hb as (out & Hout & Hlines).
      apply IH in Hrest as (out' & Hout' & Hlines').
      exists (out ++ out'). split; [by rewrite Hout', Hout, <- app_assoc|].
      intros Hr. rewrite fmap_cons, concat_cons, Hlines, Hlines' by done. done.
Qed.

Section Report.
Variable flushed : list string → string.
Variables (source_dir : string) (batch_size : Z).
Variables (folder_prefix text_ext image_ext combined_name : string).
Variable move_files : bool.

(** The run after discovery, with the lines of discovery made explicit. *)
Lemma organize_report w :
  is_Some (disk w) →
  let text_files := glob_sorted text_ext (disk w) in
  let scanned :=
    ["Scanning directory: " +:+ source_dir;
     "Found " +:+ pretty (length text_files) +:+ " " +:+ text_ext +:+ " files"]
    ++ warnings image_ext (disk w) text_files in
  match discover text_ext image_ext (disk w) with
  | inl e =>
      organize_files_into_batches flushed source_dir batch_size folder_prefix
        text_ext image_ext combined_name move_files w
      = (inl e, World (disk w) (stdout w ++ scanned) (outbuf w))
  | inr file_pairs =>
      let found :=
        scanned ++ ["Found " +:+ pretty (length file_pairs) +:+ " complete file pairs"] in
      match file_pairs with
      | [] =>
          organize_files_into_batches flushed source_dir batch_size folder_prefix
            text_ext image_ext combined_name move_files w
          = (inr tt, World (disk w)
                       (stdout w ++ found ++ ["No file pairs found. Exiting."])
                       (outbuf w))
      | _ :: _ =>
          organize_files_into_batches flushed source_dir batch_size folder_prefix
            text_ext image_ext combined_name move_files w
          = match num_batches_of (Z.of_nat (length file_pairs)) batch_size with
            | None =>
                (inl ZeroDivisionError, World (disk w) (stdout w ++ found) (outbuf w))
            | Some num_batches =>
                match for_each (range num_batches)
                        (process_batch flushed batch_size folder_prefix text_ext
                           combined_name move_files file_pairs)
                        (World (disk w)
                           (stdout w ++ found ++
                              [LF +:+ "Creating " +:+ pretty num_batches
                               +:+ " batches of up to " +:+ pretty batch_size
                               +:+ " pairs each"])
                           (outbuf w)) with
                | (inl e, w2) => (inl e, w2)
                | (inr _, w2) =>
                    (inr tt, World (disk w2)
                       (stdout w2 ++
                          [LF +:+ replicate_char 60 "="; "Processing complete!";
                           "Created " +:+ pretty num_batches +:+ " batch folders";
                           "Total file pairs processed: " +:+ pretty (length file_pairs);
                           replicate_char 60 "="])
                       (outbuf w2))
                end
            end
      end
  end.
Proof.
  intros [root Hroot]. destruct w as [d so ob]. cbn [disk stdout outbuf] in *.
  subst d. unfold organize_files_into_batches.
  rewrite bind_unfold. unfold get_disk. cbv beta iota. cbn [disk].
  change (negb (present (Some root))) with false. cbv iota.
  rewrite bind_unfold, print_unfold. cbv iota beta.
  rewrite bind_unfold, print_unfold. cbv iota beta.
  rewrite bind_unfold. cbn [disk stdout outbuf].
  rewrite pair_up_warnings. cbn [disk stdout outbuf]. unfold discover.
  set (l1 := "Scanning directory: " +:+ source_dir).
  set (l2 := "Found " +:+ pretty (length (glob_sorted text_ext (Some root)))
             +:+ " " +:+ text_ext +:+ " files").
  set (ws := warnings image_ext (Some root) (glob_sorted text_ext (Some root))).
  assert (((so ++ [l1]) ++ [l2]) ++ ws = so ++ [l1; l2] ++ ws) as ->.
  { rewrite <- !app_assoc. reflexivity. }
  destruct (pairing _ _ _ _) as [e|pairs]; cbv iota beta zeta; [reflexivity|].
  rewrite bind_unfold, print_unfold. cbv iota beta. cbn [disk stdout outbuf].
  set (l3 := "Found " +:+ pretty (length pairs) +:+ " complete file pairs").
  assert ((so ++ [l1; l2] ++ ws) ++ [l3] = so ++ ([l1; l2] ++ ws) ++ [l3]) as ->.
  { rewrite <- !app_assoc. reflexivity. }
  destruct pairs as [|p ps].
  - rewrite print_unfold. cbn [disk stdout outbuf]. by rewrite <- ?app_assoc.
  - destruct (num_batches_of _ _) as [nb|]; [|reflexivity].
    rewrite bind_unfold, print_unfold. cbv iota beta. rewrite bind_unfold.
    cbn [disk stdout outbuf]. rewrite <- ?app_assoc.
    match goal with |- context [for_each ?l ?b ?w0] =>
      destruct (for_each l b w0) as [[e|[]] w2] end; [reflexivity|].
    repeat (rewrite bind_unfold, print_unfold; cbv iota beta;
            cbn [disk stdout outbuf]).
    rewrite print_unfold. cbn [disk stdout outbuf].
    rewrite <- ?app_assoc. reflexivity.
Qed.
End Report.

(** X2. Whatever the outcome of a run on an existing source directory in
    which every image name can be formed, the run first reports the
    directory and the number of text files, then warns once about each text
    file that is not in a pair, in sorted order, then reports the number of
    pairs; every text file is either in a pair or warned about. *)
Theorem X2_discovery_report flushed source_dir batch_size folder_prefix
    text_ext image_ext combined_name move_files w r w' pairs :
  is_Some (disk w) →
  discover text_ext image_ext (disk w) = inr pairs →
  organize_files_into_batches flushed source_dir batch_size folder_prefix
    text_ext image_ext combined_name move_files w = (r, w') →
  let text_files := glob_sorted text_ext (disk w) in
  let unmatched := filter (λ t, t ∉ pairs.*1) text_files in
  (length pairs + length unmatched = length text_files)%nat
  ∧ ∃ rest,
      stdout w'
      = stdout w
        ++ ["Scanning directory: " +:+ source_dir;
            "Found " +:+ pretty (length text_files) +:+ " " +:+ text_ext +:+ " files"]
        ++ ((λ t, "Warning: No matching " +:+ image_ext +:+ " for " +:+ t) <$> unmatched)
        ++ ["Found " +:+ pretty (length pairs) +:+ " complete file pairs"]
        ++ rest.
Proof.
  intros Hs Hd Hrun text_files unmatched.
  pose proof (organize_report flushed source_dir batch_size folder_prefix
                text_ext image_ext combined_name move_files w Hs) as Hrep.
  cbv zeta in Hrep. rewrite Hd in Hrep.
  unfold discover in Hd.
  apply pairing_warnings in Hd as (found & Hf & _ & Hwarn & Hlen);
    [|apply glob_sorted_NoDup].
  simpl in Hf. subst found. fold text_files in Hwarn, Hlen, Hrep.
  fold unmatched in Hwarn, Hlen. rewrite Hwarn in Hrep.
  split; [done|].
  destruct pairs as [|p ps].
  - rewrite Hrep in Hrun. injection Hrun as _ <-. cbn [stdout].
    eexists. rewrite <- ?app_assoc. reflexivity.
  - destruct (num_batches_of _ _) as [nb|].
    + match type of Hrep with context [for_each ?l ?b ?w0] =>
        destruct (for_each l b w0) as [r2 w2] eqn:Hloop end.
      apply batches_stdout in Hloop as (out & Hout & _). cbn [stdout] in Hout.
      destruct r2 as [e|[]]; rewrite Hrep in Hrun; injection Hrun as _ <-.
      * rewrite Hout. eexists. rewrite <- ?app_assoc. reflexivity.
      * cbn [stdout]. rewrite Hout. eexists. rewrite <- ?app_assoc. reflexivity.
    + rewrite Hrep in Hrun. injection Hrun as _ <-. cbn [stdout].
      exists []. rewrite <- ?app_assoc. reflexivity.
Qed.

Lemma X2_discovery_report_witness :
  let w := initial_world (Some (dir_of
    [("a.txt", File "A"); ("a.jpg", File "I"); ("c.txt", File "C")])) in
  ∃ rest,
    stdout (organize_files_into_batches (λ _, "") "src" 2 "Batch" ".txt" ".jpg"
              "combined.txt" false w).2
    = ["Scanning directory: src"; "Found 2 .txt files";
       "Warning: No matching .jpg for c.txt"; "Found 1 complete file pairs"] ++ rest.
Proof.
  intros w.
  destruct (X2_discovery_report (λ _, "") "src" 2 "Batch" ".txt" ".jpg" "combined.txt"
              false w
              (organize_files_into_batches (λ _, "") "src" 2 "Batch" ".txt" ".jpg"
                 "combined.txt" false w).1
              (organize_files_into_batches (λ _, "") "src" 2 "Batch" ".txt" ".jpg"
                 "combined.txt" false w).2
              [("a.txt", "a.jpg")]) as [_ [rest Hrest]].
  - eexists. reflexivity.
  - vm_compute. reflexivity.
  - vm_compute. reflexivity.
  - exists rest. rewrite Hrest. vm_compute. reflexivity.
Defined.

(** X3. The transcript of a run that ends normally after processing
    batches, for a combined name that is a single path component (the name
    that the last line of a batch shows is then the combined name): the
    lines of discovery, the announcement of the batches, four lines for
    every batch in batch order (the folder, the number of pairs
    transferred, the concatenation, the combined file and its number of
    documents), and the summary with the number of batches and of pairs;
    transfers and concatenation print nothing else. *)
Theorem X3_transcript_of_a_complete_run flushed source_dir batch_size folder_prefix
    text_ext image_ext combined_name move_files w w' pairs num_batches :
  single_component combined_name = true →
  discover text_ext image_ext (disk w) = inr pairs →
  pairs ≠ [] →
  num_batches_of (Z.of_nat (length pairs)) batch_size = Some num_batches →
  organize_files_into_batches flushed source_dir batch_size folder_prefix
    text_ext image_ext combined_name move_files w = (inr tt, w') →
  let text_files := glob_sorted text_ext (disk w) in
  let unmatched := filter (λ t, t ∉ pairs.*1) text_files in
  stdout w'
  = stdout w
    ++ ["Scanning directory: " +:+ source_dir;
        "Found " +:+ pretty (length text_files) +:+ " " +:+ text_ext +:+ " files"]
    ++ ((λ t, "Warning: No matching " +:+ image_ext +:+ " for " +:+ t) <$> unmatched)
    ++ ["Found " +:+ pretty (length pairs) +:+ " complete file pairs";
        LF +:+ "Creating " +:+ pretty num_batches +:+ " batches of up to "
           +:+ pretty batch_size +:+ " pairs each"]
    ++ concat (batch_report batch_size folder_prefix text_ext combined_name
                 move_files pairs <$> range num_batches)
    ++ [LF +:+ replicate_char 60 "="; "Processing complete!";
        "Created " +:+ pretty num_batches +:+ " batch folders";
        "Total file pairs processed: " +:+ pretty (length pairs);
        replicate_char 60 "="].
Proof.
  intros _ Hd Hne Hnb Hrun text_files unmatched.
  destruct pairs as [|p ps]; [done|].
  pose proof (organize_report flushed source_dir batch_size folder_prefix
                text_ext image_ext combined_name move_files w
                (discover_some_disk _ _ _ _ _ Hd)) as Hrep.
  cbv zeta in Hrep. rewrite Hd, Hnb in Hrep.
  unfold discover in Hd.
  apply pairing_warnings in Hd as (found & Hf & _ & Hwarn & _);
    [|apply glob_sorted_NoDup].
  simpl in Hf. subst found. fold text_files in Hwarn, Hrep.
  fold unmatched in Hwarn. rewrite Hwarn in Hrep.
  match type of Hrep with context [for_each ?l ?b ?w0] =>
    destruct (for_each l b w0) as [[e|[]] w2] eqn:Hloop end; [congruence|].
  apply batches_stdout in Hloop as (out & Hout & Hlines). cbn [stdout] in Hout.
  rewrite Hrep in Hrun. injection Hrun as <-. cbn [stdout].
  rewrite Hout, Hlines by done. rewrite <- ?app_assoc. reflexivity.
Qed.

Lemma X3_transcript_of_a_complete_run_witness :
  let w := initial_world (Some (dir_of
    [("a.txt", File "A"); ("a.jpg", File "I"); ("c.txt", File "C")])) in
  stdout (organize_files_into_batches (λ _, "") "src" 2 "Batch" ".txt" ".jpg"
            "combined.txt" true w).2
  = ["Scanning directory: src"; "Found 2 .txt files";
     "Warning: No matching .jpg for c.txt"; "Found 1 complete file pairs";
     LF +:+ "Creating 1 batches of up to 2 pairs each";
     LF +:+ "Processing Batch_01..."; "  Moving 1 file pairs...";
     "  Concatenating .txt files..."; "  Created combined.txt with 1 documents";
     LF +:+ replicate_char 60 "="; "Processing complete!"; "Created 1 batch folders";
     "Total file pairs processed: 1"; replicate_char 60 "="].
Proof.
  intros w.
  rewrite (X3_transcript_of_a_complete_run (λ _, "") "src" 2 "Batch" ".txt" ".jpg"
             "combined.txt" true w
             (organize_files_into_batches (λ _, "") "src" 2 "Batch" ".txt" ".jpg"
                "combined.txt" true w).2
             [("a.txt", "a.jpg")] 1).
  - vm_compute. reflexivity.
  - reflexivity.
  - vm_compute. reflexivity.
  - discriminate.
  - reflexivity.
  - vm_compute. reflexivity.
Defined.

(** * Names: strings, suffixes and folder names *)

Lemma length_append (a b : string) :
  String.length (a +:+ b) = (String.length a + String.length b)%nat.
Proof. induction a as [|c a IH]; [done|]. simpl. by rewrite IH. Qed.

Lemma substring_all (s : string) : substring 0 (String.length s) s = s.
Proof. induction s as [|c s IH]; [done|]. simpl. by rewrite IH. Qed.

Lemma substring_0_append (a b : string) :
  substring 0 (String.length a) (a +:+ b) = a.
Proof.
  induction a as [|c a IH]; [by destruct b|]. simpl. by rewrite IH.
Qed.

Lemma substring_skip_append (a b : string) :
  substring (String.length a) (String.length b) (a +:+ b) = b.
Proof. induction a as [|c a IH]; [apply substring_all|]. simpl. apply IH. Qed.

Lemma substring_split (s : string) (n : nat) :
  (n ≤ String.length s)%nat →
  s = substring 0 n s +:+ substring n (String.length s - n) s.
Proof.
  revert n. induction s as [|c s IH]; intros n Hn.
  - simpl in Hn. by replace n with 0%nat by lia.
  - destruct n as [|n].
    + simpl. by rewrite substring_all.
    + change (String c s = String c (substring 0 n s
                +:+ substring n (String.length s - n) s)).
      f_equal. apply IH. simpl in Hn. lia.
Qed.

Lemma append_inj_r (a b c : string) : a +:+ c = b +:+ c → a = b.
Proof.
  revert b. induction a as [|x a IH]; intros [|y b] H; [done| | |].
  - apply (f_equal String.length) in H. rewrite !length_append in H.
    cbn [String.length] in H. lia.
  - apply (f_equal String.length) in H. rewrite !length_append in H.
    cbn [String.length] in H. lia.
  - injection H as -> H. f_equal. by apply IH.
Qed.

(** A name that ends with [e] is its stem followed by [e]. *)
Lemma endswith_split (t e : string) :
  endswith t e = true →
  t = substring 0 (String.length t - String.length e) t +:+ e.
Proof.
  unfold endswith. intros [Hlen Heq]%andb_true_iff.
  apply Nat.leb_le in Hlen. apply String.eqb_eq in Heq.
  rewrite (substring_split t (String.length t - String.length e)) at 1 by lia.
  f_equal. rewrite <- Heq at 3. f_equal. lia.
Qed.

Lemma rfind_free c s : free_of c s = true → rfind c s = None.
Proof.
  induction s as [|a s IH]; [done|]. simpl.
  intros [Ha Hs]%andb_true_iff. rewrite IH by done.
  by apply negb_true_iff in Ha as ->.
Qed.

Lemma rfind_last c stem e :
  free_of c e = true → rfind c (stem +:+ String c e) = Some (String.length stem).
Proof.
  intros Hfree. induction stem as [|a stem IH]; simpl.
  - rewrite rfind_free by done. by rewrite Ascii.eqb_refl.
  - by rewrite IH.
Qed.

Lemma suffix_of_stem stem e :
  stem ≠ "" → e ≠ "" → free_of "." e = true →
  suffix (stem +:+ "." +:+ e) = "." +:+ e.
Proof.
  intros Hstem He Hfree. unfold suffix.
  change ("." +:+ e) with (String "." e). rewrite rfind_last by done.
  rewrite length_append. cbn [String.length].
  assert (0 < String.length stem)%nat as Hs by (destruct stem; [done|simpl; lia]).
  assert (0 < String.length e)%nat as Hl by (destruct e; [done|simpl; lia]).
  destruct (Nat.ltb_spec 0 (String.length stem)); [|lia].
  destruct (Nat.ltb_spec (String.length stem)
              (String.length stem + S (String.length e) - 1)); [|lia].
  cbn [andb].
  replace (String.length stem + S (String.length e) - String.length stem)%nat
    with (String.length (String "." e)) by (simpl; lia).
  apply substring_skip_append.
Qed.

Lemma with_suffix_of_stem stem e image_ext i :
  stem ≠ "" → e ≠ "" → free_of "." e = true →
  with_suffix (stem +:+ "." +:+ e) image_ext = inr i →
  i = stem +:+ image_ext.
Proof.
  intros Hstem He Hfree. unfold with_suffix.
  destruct (contains_char "/" image_ext); [done|].
  destruct (_ || _); [done|].
  destruct (String.eqb _ ""); [done|].
  rewrite suffix_of_stem by done.
  change (String.eqb ("." +:+ e) "") with false. cbv iota.
  intros [= <-]. f_equal.
  match goal with |- substring 0 ?n _ = _ =>
    replace n with (String.length stem)
      by (rewrite !length_append; simpl; lia) end.
  apply substring_0_append.
Qed.

Lemma text_file_stem t e :
  endswith t ("." +:+ e) = true → t ≠ "." +:+ e →
  ∃ stem, stem ≠ "" ∧ t = stem +:+ "." +:+ e
          ∧ stem = substring 0 (String.length t - String.length ("." +:+ e)) t.
Proof.
  intros Hend Hne. pose proof (endswith_split _ _ Hend) as Ht.
  eexists. split; [|split; [exact Ht|reflexivity]].
  intros Hstem. rewrite Hstem in Ht. done.
Qed.

(** X4. For a text extension made of a dot and a part without dot, the
    image name of a text file is the text name with the text extension
    replaced by the image extension, unless the text file is named by the
    extension alone. *)
Theorem X4_image_name_replaces_the_extension e image_ext t :
  e ≠ "" → free_of "." e = true →
  String.prefix "." image_ext = true → image_ext ≠ "." →
  contains_char "/" image_ext = false →
  endswith t ("." +:+ e) = true → t ≠ "." +:+ e →
  with_suffix t image_ext
  = inr (substring 0 (String.length t - String.length ("." +:+ e)) t +:+ image_ext).
Proof.
  intros He Hfree Hp Hdot Hsep Hend Hne.
  destruct (text_file_stem t e Hend Hne) as (stem & Hstem & Ht & Hs).
  destruct (with_suffix_accepts t image_ext) as [i Hi]; [done..| |].
  { intros ->. by destruct e. }
  rewrite Hi. f_equal. rewrite <- Hs. rewrite Ht in Hi.
  by apply (with_suffix_of_stem stem e image_ext).
Qed.

Lemma X4_image_name_replaces_the_extension_witness :
  with_suffix "scan.v2.txt" ".jpg" = inr "scan.v2.jpg".
Proof.
  apply (X4_image_name_replaces_the_extension "txt" ".jpg" "scan.v2.txt");
    vm_compute; (reflexivity || discriminate).
Defined.

(** X5. For a text extension made of a dot and a part without dot, without
    glob metacharacter and without separator, when no text file is named by
    the extension alone, two pairs never share an image: the image names of
    the discovered pairs are pairwise distinct. *)
Theorem X5_pairs_have_distinct_images e image_ext source pairs :
  e ≠ "" → free_of "." e = true →
  literal_pattern ("." +:+ e) = true →
  discover ("." +:+ e) image_ext source = inr pairs →
  "." +:+ e ∉ pairs.*1 →
  NoDup pairs.*2.
Proof.
  intros He Hfree _ Hd Hnone.
  destruct (discover_sorted _ _ _ _ Hd) as [_ Hnd].
  apply NoDup_fmap_2_strong; [|by eapply NoDup_fmap_1].
  assert (∀ t i, (t, i) ∈ pairs →
            ∃ stem, stem ≠ "" ∧ t = stem +:+ "." +:+ e ∧ i = stem +:+ image_ext) as Hform.
  { intros t i Hin.
    destruct (discover_members _ _ _ _ _ _ Hd Hin) as (Ht & Hw & _).
    assert (endswith t ("." +:+ e) = true) as Hend.
    { destruct source as [[?|m]|]; try by apply elem_of_nil in Ht.
      by apply elem_of_glob_sorted in Ht as [? _]. }
    assert (t ≠ "." +:+ e) as Hne.
    { intros ->. apply Hnone. apply list_elem_of_fmap. by exists ("." +:+ e, i). }
    destruct (text_file_stem t e Hend Hne) as (stem & Hstem & Ht' & _).
    exists stem. split; [done|]. split; [done|].
    rewrite Ht' in Hw. by apply (with_suffix_of_stem stem e image_ext). }
  intros [t i] [t' i'] Hin Hin' Heq. simpl in Heq. subst i'.
  destruct (Hform _ _ Hin) as (s & _ & -> & ->).
  destruct (Hform _ _ Hin') as (s' & _ & -> & Hi).
  apply append_inj_r in Hi as ->. done.
Qed.

Lemma X5_pairs_have_distinct_images_witness :
  NoDup [("a.txt", "a.jpg"); ("b.txt", "b.jpg")].*2.
Proof.
  apply (X5_pairs_have_distinct_images "txt" ".jpg"
           (Some (dir_of [("a.txt", File "A"); ("a.jpg", File "I");
                          ("b.txt", File "B"); ("b.jpg", File "J")]))).
  - discriminate.
  - reflexivity.
  - reflexivity.
  - vm_compute. reflexivity.
  - vm_compute. intros H. repeat (apply elem_of_cons in H as [H|H]; [discriminate|]).
    by apply elem_of_nil in H.
Defined.

(** ** Decimal numbers and folder names *)

Lemma pretty_N_go_head (x : N) (s : string) :
  (0 < x)%N → ∃ c rest, pretty_N_go x s = String c rest ∧ c ≠ "0"%char.
Proof.
  revert s. induction (N.lt_wf_0 x) as [x _ IH]; intros s Hx.
  rewrite pretty_N_go_step by done.
  destruct (decide (x < 10)%N) as [Hlt|Hge].
  - rewrite N.div_small, pretty_N_go_0 by done. do 2 eexists. split; [done|].
    rewrite N.mod_small by done.
    assert (x = 1 ∨ x = 2 ∨ x = 3 ∨ x = 4 ∨ x = 5 ∨ x = 6
            ∨ x = 7 ∨ x = 8 ∨ x = 9)%N as Hcases by lia.
    destruct Hcases as [->|[->|[->|[->|[->|[->|[->|[->| ->]]]]]]]]; done.
  - apply IH; [by apply N.div_lt|]. apply N.div_str_pos. lia.
Qed.

Lemma pretty_N_go_length (x : N) (s : string) :
  (String.length s ≤ String.length (pretty_N_go x s))%nat.
Proof.
  revert s. induction (N.lt_wf_0 x) as [x _ IH]; intros s.
  destruct (decide (0 < x)%N) as [Hx|Hx].
  - rewrite pretty_N_go_step by done.
    etrans; [|apply IH; by apply N.div_lt]. simpl. lia.
  - replace x with 0%N by lia. by rewrite pretty_N_go_0.
Qed.

Lemma pretty_Z_head (z : Z) :
  z ≠ 0 → ∃ c rest, pretty z = String c rest ∧ c ≠ "0"%char.
Proof.
  destruct z as [|p|p]; [done| |]; intros _.
  - unfold pretty, pretty_Z, pretty, pretty_positive, pretty, pretty_N.
    rewrite decide_False by done. by apply pretty_N_go_head.
  - exists "-"%char. eexists. split; [reflexivity|done].
Qed.

Lemma pretty_Z_two_digits (z : Z) : 10 ≤ z → (2 ≤ String.length (pretty z))%nat.
Proof.
  intros Hz. destruct z as [|p|p]; [lia| |lia].
  unfold pretty, pretty_Z, pretty, pretty_positive, pretty, pretty_N.
  rewrite decide_False by done.
  rewrite 2!pretty_N_go_step by (try apply N.div_str_pos; lia).
  etrans; [|apply pretty_N_go_length]. simpl. lia.
Qed.

Lemma fmt_02d_inj (z z' : Z) : fmt_02d z = fmt_02d z' → z = z'.
Proof.
  assert (∀ a b : Z, (String.length (pretty a) < 2)%nat →
            ¬ (String.length (pretty b) < 2)%nat → "0" +:+ pretty a ≠ pretty b) as Hmixed.
  { intros a b Ha Hb Heq.
    destruct (decide (b = 0)) as [->|Hb0]; [apply Hb; simpl; lia|].
    destruct (pretty_Z_head b Hb0) as (c & rest & Hc & Hne).
    rewrite Hc in Heq. change ("0" +:+ pretty a) with (String "0" (pretty a)) in Heq.
    injection Heq as Heq _. by apply Hne. }
  unfold fmt_02d.
  destruct (Nat.ltb_spec (String.length (pretty z)) 2) as [H1|H1],
           (Nat.ltb_spec (String.length (pretty z')) 2) as [H2|H2].
  - intros H. apply (inj pretty). by apply (inj (String.app "0")) in H.
  - intros H. exfalso. apply (Hmixed z z'); [done|lia|done].
  - intros H. exfalso. apply (Hmixed z' z); [done|lia|done].
  - apply (inj pretty).
Qed.

Lemma folder_name_of_inj folder_prefix (b b' : Z) :
  folder_name_of folder_prefix b = folder_name_of folder_prefix b' → b = b'.
Proof.
  unfold folder_name_of. intros H.
  apply (inj (String.app folder_prefix)) in H.
  apply (inj (String.app "_")) in H.
  apply fmt_02d_inj in H. lia.
Qed.

(** X6. The folder of a batch is named by the prefix, an underscore and the
    number of the batch counted from 1, written with two digits when it is
    below 10 and in full from 10 on; two batches never have the same
    folder. *)
Theorem X6_batch_folder_names folder_prefix :
  (∀ b b', folder_name_of folder_prefix b = folder_name_of folder_prefix b' → b = b')
  ∧ (∀ b, 0 ≤ b < 9 →
       folder_name_of folder_prefix b = folder_prefix +:+ "_0" +:+ pretty (b + 1))
  ∧ (∀ b, 9 ≤ b →
       folder_name_of folder_prefix b = folder_prefix +:+ "_" +:+ pretty (b + 1)).
Proof.
  split; [apply folder_name_of_inj|]. split.
  - intros b Hb. unfold folder_name_of. f_equal.
    assert (b = 0 ∨ b = 1 ∨ b = 2 ∨ b = 3 ∨ b = 4 ∨ b = 5 ∨ b = 6 ∨ b = 7 ∨ b = 8)
      as Hcases by lia.
    destruct Hcases as [->|[->|[->|[->|[->|[->|[->|[->| ->]]]]]]]]; reflexivity.
  - intros b Hb. unfold folder_name_of, fmt_02d.
    pose proof (pretty_Z_two_digits (b + 1) ltac:(lia)) as Hlen.
    destruct (Nat.ltb_spec (String.length (pretty (b + 1))) 2); [lia|done].
Qed.

Lemma X6_batch_folder_names_witness :
  folder_name_of "Batch" 0 = "Batch_01" ∧ folder_name_of "Batch" 99 = "Batch_100"
  ∧ (folder_name_of "Batch" 3 = folder_name_of "Batch" 3 → 3 = 3).
Proof.
  destruct (X6_batch_folder_names "Batch") as (Hinj & Hlow & Hhigh).
  split; [|split].
  - rewrite (Hlow 0) by lia. reflexivity.
  - rewrite (Hhigh 99) by lia. reflexivity.
  - apply (Hinj 3 3).
Defined.

(** * What a run never touches *)


Lemma NoDup_range n : NoDup (range n).
Proof.
  unfold range. apply NoDup_fmap_2; [|apply NoDup_seq].
  intros x y. lia.
Qed.

Lemma confined_refl removed folder written d : confined removed folder written d d.
Proof. split; auto. Qed.

Lemma confined_trans removed folder written d1 d2 d3 :
  confined removed folder written d1 d2 → confined removed folder written d2 d3 →
  confined removed folder written d1 d3.
Proof.
  intros [G1 P1] [G2 P2]. split.
  - intros n Hr Hf. by rewrite G2, G1.
  - intros f n p Hr Hw. by rewrite P2, P1.
Qed.

Lemma confined_weaken (removed removed' folder folder' written written' : string → Prop)
    d d' :
  (∀ n, removed n → removed' n) → (∀ n, folder n → folder' n) →
  (∀ n, written n → written' n) →
  confined removed folder written d d' → confined removed' folder' written' d d'.
Proof.
  intros Hr Hf Hw [G P]. split.
  - intros n Hn1 Hn2. apply G; eauto.
  - intros f n p Hn1 Hn2. apply P; eauto.
Qed.

Lemma put_below_confined f k q x root :
  confined (λ _, False) (λ n, n = f) (λ n, n = k)
    (Some root) (Some (put_path (f :: k :: q) x root)).
Proof.
  split.
  - intros n _ Hn. rewrite !lookup_Some_root. apply lookup_put_path_other. congruence.
  - intros f0 n p _ Hn. rewrite !lookup_Some_root. apply lookup_put_path_apart.
    intros [_ ->]. by apply Hn.
Qed.

Lemma put_confined f cn d x :
  confined (λ _, False) (λ n, n = f) (λ n, n = cn) d (put_path [f; cn] x <$> d).
Proof. destruct d as [root|]; [apply put_below_confined|apply confined_refl]. Qed.

Lemma new_folder_confined f (m : gmap string node) c written :
  m !! f = None → (∀ n, ¬ written n → lookup_path [n] c = None) →
  confined (λ _, False) (λ n, n = f) written
    (Some (Dir m)) (Some (put_path [f] c (Dir m))).
Proof.
  intros E Hc. split.
  - intros n _ Hn. rewrite !lookup_Some_root. apply lookup_put_path_other. congruence.
  - intros f0 n p _ Hn. rewrite !lookup_Some_root.
    destruct (decide (f = f0)) as [<-|Hne]; [|by rewrite lookup_put_path_other].
    rewrite !(lookup_path_cons f (n :: p)), lookup_put_path_1.
    rewrite decide_True, lookup_path_1, E by done. cbn [mbind option_bind].
    by rewrite (lookup_path_cons n p), Hc.
Qed.

Lemma mkdir_confined f root root' :
  mkdir_exist_ok f root = inr root' →
  confined (λ _, False) (λ n, n = f) (λ _, False) (Some root) (Some root').
Proof.
  unfold mkdir_exist_ok. destruct root as [?|m]; [done|].
  destruct (m !! f) as [[?|?]|] eqn:E; [done| |]; intros [= <-].
  - apply confined_refl.
  - change (Dir (<[f := Dir ∅]> m)) with (put_path [f] (Dir ∅) (Dir m)).
    apply new_folder_confined; [done|]. intros n _.
    by rewrite lookup_path_1, lookup_empty.
Qed.

Lemma copy2_confined n f root root' :
  copy2 n f root = inr root' →
  confined (λ _, False) (λ k, k = f) (λ k, k = n) (Some root) (Some root').
Proof.
  unfold copy2. destruct (dot_name n); [done|].
  destruct (lookup_path [n] root) as [[c|?]|]; [|done..].
  destruct (is_dir (lookup_path [f; n] root));
    intros [-> _]%create_file_below; apply put_below_confined.
Qed.

Lemma delete_entry_confined n' root :
  confined (λ f, f = n') (λ _, False) (λ _, False)
    (Some root) (Some (delete_entry n' root)).
Proof.
  split.
  - intros n Hn _. rewrite !lookup_Some_root, lookup_delete_entry.
    by rewrite decide_False by congruence.
  - intros f n p Hf _. rewrite !lookup_Some_root, lookup_delete_entry.
    by rewrite decide_False by congruence.
Qed.

Lemma move_confined n f root root' :
  move n f root = inr root' →
  confined (λ k, k = n) (λ k, k = f) (λ k, k = n) (Some root) (Some root').
Proof.
  unfold move. destruct (dot_name n); [done|].
  set (into_dir := is_dir (lookup_path [f; n] root)).
  set (real_dst := if into_dir then [f; n] ++ [n] else [f; n]).
  destruct (into_dir && present (lookup_path real_dst root)); [done|].
  destruct (lookup_path [n] root) as [x|] eqn:Ex; [|done].
  destruct (String.eqb_spec n f) as [->|Hne]; [by destruct x|].
  assert (∀ r, confined (λ _, False) (λ k, k = f) (λ k, k = n) (Some root) (Some r) →
               confined (λ k, k = n) (λ k, k = f) (λ k, k = n)
                 (Some root) (Some (delete_entry n r))) as Hfinish.
  { intros r Hr. eapply confined_trans.
    - eapply confined_weaken; [| | |exact Hr]; done.
    - eapply confined_weaken; [| | |apply delete_entry_confined]; done. }
  assert (confined (λ _, False) (λ k, k = f) (λ k, k = n)
            (Some root) (Some (put_path real_dst x root))) as Hput.
  { subst real_dst. destruct into_dir; apply put_below_confined. }
  destruct (lookup_path [f] root) as [[?|d]|] eqn:Ef.
  - by destruct x.
  - destruct x as [c|dx].
    + intros [= <-]. by apply Hfinish.
    + destruct (is_file _); [done|]. intros [= <-]. by apply Hfinish.
  - destruct x as [c|dx]; [done|]. intros [= <-]. apply Hfinish.
    destruct root as [?|m]; [done|]. rewrite lookup_path_1 in Ef.
    apply new_folder_confined; [done|]. intros k Hk.
    rewrite lookup_path_1. apply lookup_singleton_ne. congruence.
Qed.

(** ** Runs that end in any way *)

Lemma on_disk_any (R : option node → option node → Prop) call w r w' :
  (∀ d, R d d) →
  (∀ root root', call root = inr root' → R (Some root) (Some root')) →
  on_disk call w = (r, w') → R (disk w) (disk w').
Proof.
  intros Hrefl Hcall. unfold on_disk. destruct (disk w) as [root|] eqn:Hd.
  - destruct (call root) as [e|root'] eqn:Hc; intros [= _ <-].
    + rewrite Hd. apply Hrefl.
    + cbn [disk]. by apply Hcall.
  - intros [= _ <-]. by rewrite Hd.
Qed.

Lemma for_each_any {A} (R : option node → option node → Prop) (l : list A)
    (body : A → M unit) w r w' :
  (∀ d, R d d) → (∀ a b c, R a b → R b c → R a c) →
  (∀ x w1 r2 w2, x ∈ l → body x w1 = (r2, w2) → R (disk w1) (disk w2)) →
  for_each l body w = (r, w') →
  R (disk w) (disk w').
Proof.
  intros Hrefl Htrans. revert w. induction l as [|x l IH]; intros w Hbody.
  - by intros [= _ <-].
  - rewrite for_each_cons. destruct (body x w) as [[e|[]] w1] eqn:Hx.
    + intros [= _ <-]. eapply Hbody; [|exact Hx]. by left.
    + intros Hrest. apply (Htrans _ (disk w1)).
      * eapply Hbody; [|exact Hx]. by left.
      * apply IH; [|done]. intros y ? ? ? Hy. apply Hbody. by right.
Qed.

Lemma transfer_any (R : option node → option node → Prop) (move_files : bool)
    f t i w r w' :
  (∀ d, R d d) → (∀ a b c, R a b → R b c → R a c) →
  (∀ n root root', n = t ∨ n = i →
     (if move_files then move n f root else copy2 n f root) = inr root' →
     R (Some root) (Some root')) →
  transfer move_files f (t, i) w = (r, w') → R (disk w) (disk w').
Proof.
  intros Hrefl Htrans Hstep. unfold transfer.
  destruct move_files; intros [(e & H & _)|([] & w1 & H1 & H2)]%bind_any.
  - eapply on_disk_any; [done| |exact H]. intros ? ?. apply (Hstep t). by left.
  - apply (Htrans _ (disk w1)).
    + eapply on_disk_any; [done| |exact H1]. intros ? ?. apply (Hstep t). by left.
    + eapply on_disk_any; [done| |exact H2]. intros ? ?. apply (Hstep i). by right.
  - eapply on_disk_any; [done| |exact H]. intros ? ?. apply (Hstep t). by left.
  - apply (Htrans _ (disk w1)).
    + eapply on_disk_any; [done| |exact H1]. intros ? ?. apply (Hstep t). by left.
    + eapply on_disk_any; [done| |exact H2]. intros ? ?. apply (Hstep i). by right.
Qed.

Lemma append_document_any (R : option node → option node → Prop)
    flushed f cn n item w r w' :
  (∀ d, R d d) → (∀ a b c, R a b → R b c → R a c) →
  (∀ d x, R d (put_path [f; cn] x <$> d)) →
  append_document flushed f [f; cn] n item w = (r, w') → R (disk w) (disk w').
Proof.
  intros Hrefl Htrans Hput. destruct item as [i [t im]]. unfold append_document.
  intros [(e & H & _)|(doc & w1 & H1 & H2)]%bind_any.
  - by apply read_text_same in H as ->.
  - apply read_text_same in H1 as ->.
    apply bind_any in H2 as [(e & H & _)|([] & w2 & H2 & H3)]; [done|].
    rewrite write_effect in H2. injection H2 as <-.
    eapply Htrans; [apply (Hput (disk w))|].
    destruct (i <? n - 1).
    + rewrite write_effect in H3. injection H3 as _ <-. apply Hput.
    + injection H3 as _ <-. apply Hrefl.
Qed.

Lemma concatenate_any (R : option node → option node → Prop)
    flushed f cn pairs w r w' :
  (∀ d, R d d) → (∀ a b c, R a b → R b c → R a c) →
  (∀ d x, R d (put_path [f; cn] x <$> d)) →
  concatenate flushed f cn pairs w = (r, w') →
  R (disk w) (disk w').
Proof.
  intros Hrefl Htrans Hput. unfold concatenate.
  assert (∀ u r1 u1, on_disk (create_file [f; cn] "") u = (r1, u1) →
            R (disk u) (disk u1)) as Hcreate.
  { intros u r1 u1. apply on_disk_any; [done|].
    intros root root' [-> _]%create_file_below. apply (Hput (Some root)). }
  intros [(e & H & _)|([] & w1 & H1 & H2)]%bind_any.
  - unfold open_w in H. apply bind_any in H as [(e' & H & _)|([] & w1 & H1 & H2)].
    + by eapply Hcreate.
    + done.
  - unfold open_w in H1. apply bind_any in H1 as [(e' & H & [=])|([] & w0 & H0 & H1)].
    apply Hcreate in H0. injection H1 as <-.
    unfold finally in H2.
    destruct (for_each _ _ _) as [r2 w2] eqn:Hloop. injection H2 as _ <-.
    apply (Htrans _ (disk w0)); [done|].
    apply (Htrans _ (disk w2)); [|apply Hput].
    apply (for_each_any R) in Hloop; [exact Hloop|done|done|].
    intros x u1 r3 u2 _. by apply append_document_any.
Qed.

Lemma process_batch_any (R : option node → option node → Prop)
    flushed batch_size folder_prefix text_ext combined_name
    (move_files : bool) file_pairs batch_num w r w' :
  let folder := folder_name_of folder_prefix batch_num in
  let batch := batch_pairs_of file_pairs batch_size batch_num in
  (∀ d, R d d) → (∀ a b c, R a b → R b c → R a c) →
  (∀ root root', mkdir_exist_ok folder root = inr root' → R (Some root) (Some root')) →
  (∀ n root root', member_of batch n →
     (if move_files then move n folder root else copy2 n folder root) = inr root' →
     R (Some root) (Some root')) →
  (∀ d x, R d (put_path [folder; combined_name] x <$> d)) →
  process_batch flushed batch_size folder_prefix text_ext combined_name move_files
    file_pairs batch_num w = (r, w') →
  R (disk w) (disk w').
Proof.
  intros folder batch Hrefl Htrans Hmk Hstep Hput. unfold process_batch.
  fold folder batch.
  intros [(e & H & _)|([] & w1 & H1 & H)]%bind_any.
  { eapply on_disk_any; [done| |exact H]. done. }
  apply (Htrans _ (disk w1)); [eapply on_disk_any; [done| |exact H1]; done|].
  apply bind_any in H as [(e & H & _)|([] & w2 & H2 & H)]; [by rewrite print_unfold in H|].
  rewrite print_unfold in H2. injection H2 as <-.
  apply bind_any in H as [(e & H & _)|([] & w3 & H3 & H)]; [by rewrite print_unfold in H|].
  rewrite print_unfold in H3. injection H3 as <-. cbn [disk stdout outbuf] in H.
  assert (∀ u r1 u1, for_each batch (transfer move_files folder) u = (r1, u1) →
            R (disk u) (disk u1)) as Hloop.
  { intros u r1 u1. apply (for_each_any R); [done|done|].
    intros [t i] v1 r2 v2 Hin. apply transfer_any; [done|done|].
    intros n root root' Hn. apply Hstep. by exists t, i. }
  apply bind_any in H as [(e & H & _)|([] & w4 & H4 & H)].
  { by apply Hloop in H. }
  apply Hloop in H4. cbn [disk] in H4. apply (Htrans _ (disk w4)); [done|].
  apply bind_any in H as [(e & H & _)|([] & w5 & H5 & H)]; [by rewrite print_unfold in H|].
  rewrite print_unfold in H5. injection H5 as <-.
  apply bind_any in H as [(e & H & _)|([] & w6 & H6 & H)].
  { apply (concatenate_any R) in H; done. }
  apply (concatenate_any R) in H6; [|done..]. cbn [disk] in H6.
  rewrite print_unfold in H. by injection H as _ <-.
Qed.


Lemma member_of_batch file_pairs batch_size batch_num n :
  member_of (batch_pairs_of file_pairs batch_size batch_num) n → member_of file_pairs n.
Proof.
  intros (t & i & Hin & Hn). exists t, i. split; [|done].
  by eapply batch_pairs_of_subset.
Qed.

Lemma lookup_below_same (d d' : option node) f p :
  d' ≫= lookup_path [f] = d ≫= lookup_path [f] →
  d' ≫= lookup_path (f :: p) = d ≫= lookup_path (f :: p).
Proof.
  intros H. destruct d as [root|], d' as [root'|]; cbn [mbind option_bind] in *.
  - by rewrite !(lookup_path_cons f p), H.
  - by rewrite (lookup_path_cons f p), <- H.
  - by rewrite (lookup_path_cons f p), H.
  - done.
Qed.






(** * A file in the place of the first batch folder *)

Lemma range_first n : 0 < n → ∃ rest, range n = 0 :: rest.
Proof.
  intros Hn. unfold range. destruct (Z.to_nat n) as [|k] eqn:Hk; [lia|].
  by eexists.
Qed.

(** X9. When the source directory holds a regular file under the name of
    the first batch folder, a run with at least one pair and a positive
    batch size stops with [FileExistsError] when it creates that folder,
    before any transfer: the tree is left as it was. *)
Theorem X9_file_in_place_of_batch_folder flushed source_dir batch_size folder_prefix
    text_ext image_ext combined_name move_files w p ps c :
  discover text_ext image_ext (disk w) = inr (p :: ps) →
  0 < batch_size →
  disk w ≫= lookup_path [folder_name_of folder_prefix 0] = Some (File c) →
  ∃ w',
    organize_files_into_batches flushed source_dir batch_size folder_prefix
      text_ext image_ext combined_name move_files w = (inl FileExistsError, w')
    ∧ disk w' = disk w.
Proof.
  intros Hd Hpos Hfile.
  pose proof (organize_discovered flushed source_dir batch_size folder_prefix
                text_ext image_ext combined_name move_files w
                (discover_some_disk _ _ _ _ _ Hd)) as Hrun.
  rewrite Hd in Hrun. destruct Hrun as [out Hrun].
  rewrite num_batches_ceiling in Hrun by done.
  pose proof (ceiling_div_bounds (Z.of_nat (length (p :: ps))) batch_size Hpos) as [_ Hhi].
  destruct (range_first (ceiling_div (Z.of_nat (length (p :: ps))) batch_size))
    as [rest Hrange]; [simpl in Hhi |- *; nia|].
  rewrite Hrange, for_each_cons in Hrun.
  unfold process_batch in Hrun at 1. rewrite bind_unfold in Hrun.
  destruct (discover_dir _ _ _ _ _ Hd) as [m Hm].
  rewrite Hm, lookup_Some_root, lookup_path_1 in Hfile.
  unfold on_disk in Hrun at 1. cbn [disk] in Hrun. rewrite Hm in Hrun.
  cbn [mkdir_exist_ok] in Hrun. rewrite Hfile in Hrun.
  eexists. split; [exact Hrun|]. by rewrite Hm.
Qed.

Lemma X9_file_in_place_of_batch_folder_witness :
  let w := initial_world (Some (dir_of
    [("a.txt", File "A"); ("a.jpg", File "I"); ("Batch_01", File "X")])) in
  ∃ w',
    organize_files_into_batches (λ _, "") "src" 2 "Batch" ".txt" ".jpg"
      "combined.txt" true w = (inl FileExistsError, w')
    ∧ disk w' = disk w.
Proof.
  intros w.
  apply (X9_file_in_place_of_batch_folder (λ _, "") "src" 2 "Batch" ".txt" ".jpg"
           "combined.txt" true w ("a.txt", "a.jpg") [] "X").
  - vm_compute. reflexivity.
  - lia.
  - vm_compute. reflexivity.
Defined.

(** * From the source files to the batch folders *)


Lemma for_each_invariant_NoDup {A} (Inv : world → Prop) (Post : A → world → Prop)
    (l : list A) (body : A → M unit) w w' :
  NoDup l →
  (∀ x w1 w2, x ∈ l → Inv w1 → body x w1 = (inr tt, w2) → Inv w2 ∧ Post x w2) →
  (∀ x y w1 w2, x ∈ l → y ∈ l → x ≠ y → Inv w1 → Post x w1 →
     body y w1 = (inr tt, w2) → Post x w2) →
  Inv w →
  for_each l body w = (inr tt, w') →
  Inv w' ∧ ∀ x, x ∈ l → Post x w'.
Proof.
  intros Hnd Hstep Hkeep.
  assert (∀ done todo w, done ++ todo = l → Inv w → (∀ x, x ∈ done → Post x w) →
            for_each todo body w = (inr tt, w') →
            Inv w' ∧ ∀ x, x ∈ l → Post x w') as Hgen.
  { intros done todo. revert done. induction todo as [|y todo IH]; intros done w0 Hl Hi Hp.
    - intros [= <-]. rewrite app_nil_r in Hl. subst. done.
    - rewrite for_each_cons. destruct (body y w0) as [[e|[]] w1] eqn:Hb; [done|].
      assert (y ∈ l) as Hy by (rewrite <- Hl, elem_of_app, elem_of_cons; auto).
      destruct (Hstep y w0 w1 Hy Hi Hb) as [Hi1 Hp1].
      apply (IH (done ++ [y])); [by rewrite <- app_assoc|done|].
      intros x [Hx|Hx%list_elem_of_singleton]%elem_of_app; [|by rewrite Hx].
      apply (Hkeep x y w0 w1); [|done| |done|by apply Hp|done].
      + rewrite <- Hl, elem_of_app; auto.
      + intros ->. rewrite <- Hl in Hnd. apply NoDup_app in Hnd as (_ & Hdis & _).
        apply (Hdis y Hx). by left. }
  intros Hi. apply (Hgen [] l); [done|done|]. intros x Hx. by apply elem_of_nil in Hx.
Qed.

Lemma Forall2_impl_elem_of {A B} (P Q : A → B → Prop) l k :
  Forall2 P l k → (∀ x y, x ∈ l → P x y → Q x y) → Forall2 Q l k.
Proof.
  induction 1 as [|x y l k Hxy HF IH]; intros Himpl; constructor.
  - apply Himpl; [by left|done].
  - apply IH. intros x' y' Hx'. apply Himpl. by right.
Qed.

(** ** Regular files of the source directory are never made *)











Lemma process_batch_confined flushed batch_size folder_prefix text_ext combined_name
    (move_files : bool) file_pairs batch_num w r w' :
  process_batch flushed batch_size folder_prefix text_ext combined_name move_files
    file_pairs batch_num w = (r, w') →
  confined
    (λ n, move_files = true
          ∧ member_of (batch_pairs_of file_pairs batch_size batch_num) n)
    (λ n, n = folder_name_of folder_prefix batch_num)
    (λ n, member_of (batch_pairs_of file_pairs batch_size batch_num) n
          ∨ n = combined_name)
    (disk w) (disk w').
Proof.
  apply process_batch_any; [apply confined_refl|apply confined_trans|..].
  - intros root root' Hmk%mkdir_confined.
    eapply confined_weaken; [| | |exact Hmk]; done.
  - intros n root root' Hn. destruct move_files.
    + intros Hmv%move_confined.
      eapply confined_weaken; [| | |exact Hmv]; [by intros ? ->|done|].
      intros ? ->. by left.
    + intros Hcp%copy2_confined.
      eapply confined_weaken; [| | |exact Hcp]; [done|done|].
      intros ? ->. by left.
  - intros d x. eapply confined_weaken; [| | |apply put_confined]; [done|done|].
    intros ? ->. by right.
Qed.

(** ** Where a transfer puts a file *)

Lemma put_held f n x root :
  is_dir (lookup_path [f] root) = true →
  held f n x
    (Some (put_path (if is_dir (lookup_path [f; n] root) then [f; n; n] else [f; n])
             x root)).
Proof.
  intros Hdir. unfold held. rewrite !lookup_Some_root.
  destruct (is_dir (lookup_path [f; n] root)) eqn:Hinto.
  - right.
    destruct (lookup_path [f] root) as [c|] eqn:Ef; [|done].
    rewrite (lookup_put_path_below_same _ _ _ _ _ _ c) by done.
    rewrite (lookup_path_cons f [n]), Ef in Hinto.
    cbn [mbind option_bind] in Hinto.
    destruct (lookup_path [n] c) as [[?|dn]|] eqn:En; try done.
    rewrite put_path_below, En, (lookup_path_cons n [n]), lookup_put_path_1.
    destruct c as [?|dc]; [done|]. rewrite decide_True by done.
    cbn [mbind option_bind]. rewrite put_path_1_Dir, lookup_path_1.
    by rewrite lookup_insert_eq.
  - left. by rewrite lookup_put_path_2, decide_True, Hdir.
Qed.

Lemma copy2_held n f root root' :
  copy2 n f root = inr root' →
  is_dir (lookup_path [f] root) = true
  ∧ undisturbed f (λ _, False) (λ k, k = n) (Some root) (Some root')
  ∧ ∃ c, lookup_path [n] root = Some (File c) ∧ held f n (File c) (Some root').
Proof.
  unfold copy2. destruct (dot_name n); [done|].
  destruct (lookup_path [n] root) as [[c|?]|] eqn:En; [|done..].
  intros Hcreate.
  assert (root' = put_path (if is_dir (lookup_path [f; n] root)
                            then [f; n; n] else [f; n]) (File c) root
          ∧ is_dir (lookup_path [f] root) = true) as [-> Hdir].
  { destruct (is_dir (lookup_path [f; n] root));
      by apply create_file_below in Hcreate. }
  split; [done|]. split.
  - destruct (is_dir (lookup_path [f; n] root)); apply put_below_undisturbed.
  - exists c. split; [done|]. by apply put_held.
Qed.

Lemma transfer_copy folder t i w w' :
  transfer false folder (t, i) w = (inr tt, w') →
  (∀ n, n ≠ folder → disk w' ≫= lookup_path [n] = disk w ≫= lookup_path [n])
  ∧ (∃ ct ci,
       disk w ≫= lookup_path [t] = Some (File ct)
       ∧ disk w ≫= lookup_path [i] = Some (File ci)
       ∧ held folder t (File ct) (disk w') ∧ held folder i (File ci) (disk w'))
  ∧ (∀ n c, disk w ≫= lookup_path [n] = Some (File c) →
       held folder n (File c) (disk w) → held folder n (File c) (disk w')).
Proof.
  unfold transfer. intros H. apply bind_ok in H as ([] & w1 & H1 & H2).
  apply on_disk_ok in H1 as (r0 & r1 & Hr0 & Hc1 & ->).
  apply on_disk_ok in H2 as (r1' & r2 & Hr1 & Hc2 & ->).
  cbn [disk] in *. injection Hr1 as <-. rewrite Hr0.
  pose proof (copy2_confined _ _ _ _ Hc1) as [G1 _].
  pose proof (copy2_confined _ _ _ _ Hc2) as [G2 _].
  apply copy2_held in Hc1 as (Hd1 & Hu1 & ct & Hct & Hh1).
  apply copy2_held in Hc2 as (Hd2 & Hu2 & ci & Hci & Hh2).
  assert (∀ n, n ≠ folder → lookup_path [n] r1 = lookup_path [n] r0) as Hs1.
  { intros n Hn. apply (G1 n); [tauto|done]. }
  assert (∀ n, n ≠ folder → lookup_path [n] r2 = lookup_path [n] r1) as Hs2.
  { intros n Hn. apply (G2 n); [tauto|done]. }
  assert (∀ n c (r : node), is_dir (lookup_path [folder] r) = true →
            lookup_path [n] r = Some (File c) → n ≠ folder) as Hfile.
  { intros n c r Hd Hc ->. by rewrite Hc in Hd. }
  assert (∀ n' (ra rb : node) c',
            undisturbed folder (λ _, False) (λ k, k = n') (Some ra) (Some rb) →
            lookup_path [n'] ra = Some (File c') → held folder n' (File c') (Some rb) →
            ∀ n c, lookup_path [n] ra = Some (File c) →
              held folder n (File c) (Some ra) → held folder n (File c) (Some rb))
    as Hkeep.
  { intros n' ra rb c' Hu Hc' Hh' n c Hc Hh.
    destruct (decide (n = n')) as [->|Hne]; [congruence|].
    eapply undisturbed_held; [exact Hu|tauto| |done]. intros [_ ?]. done. }
  split; [intros n Hn; rewrite !lookup_Some_root; by rewrite Hs2, Hs1|].
  rewrite !lookup_Some_root. split.
  - exists ct, ci. split; [done|].
    split; [rewrite <- Hs1; [done|exact (Hfile i ci r1 Hd2 Hci)]|].
    split; [|done]. apply (Hkeep i r1 r2 ci); try done.
    rewrite Hs1; [done|exact (Hfile t ct r0 Hd1 Hct)].
  - intros n c Hc Hh.
    apply (Hkeep i r1 r2 ci); [done|done|done| |by apply (Hkeep t r0 r1 ct)].
    rewrite Hs1; [done|exact (Hfile n c r0 Hd1 Hc)].
Qed.

Lemma transfers_copy folder batch w w' :
  for_each batch (transfer false folder) w = (inr tt, w') →
  (∀ n, n ≠ folder → disk w' ≫= lookup_path [n] = disk w ≫= lookup_path [n])
  ∧ ∀ t i, (t, i) ∈ batch →
      t ≠ folder ∧ i ≠ folder
      ∧ ∃ ct ci,
          disk w ≫= lookup_path [t] = Some (File ct)
          ∧ disk w ≫= lookup_path [i] = Some (File ci)
          ∧ held folder t (File ct) (disk w') ∧ held folder i (File ci) (disk w').
Proof.
  intros Hloop.
  pose (Inv := λ u : world,
          ∀ n, n ≠ folder → disk u ≫= lookup_path [n] = disk w ≫= lookup_path [n]).
  pose (Post := λ (p : string * string) (u : world),
          p.1 ≠ folder ∧ p.2 ≠ folder
          ∧ ∃ ct ci,
              disk w ≫= lookup_path [p.1] = Some (File ct)
              ∧ disk w ≫= lookup_path [p.2] = Some (File ci)
              ∧ held folder p.1 (File ct) (disk u) ∧ held folder p.2 (File ci) (disk u)).
  assert (∀ t i u1 u2 n c, transfer false folder (t, i) u1 = (inr tt, u2) →
            disk u1 ≫= lookup_path [n] = Some (File c) → n ≠ folder) as Hfile.
  { intros t i u1 u2 n c Hstep Hc ->. unfold transfer in Hstep.
    apply bind_ok in Hstep as ([] & u & H1 & _).
    apply on_disk_ok in H1 as (r0 & r1 & Hr0 & (Hd & _)%copy2_held & _).
    rewrite Hr0, lookup_Some_root in Hc. by rewrite Hc in Hd. }
  destruct (for_each_invariant Inv Post batch (transfer false folder) w w')
    as [Hinv Hpost]; [| |by intros n|exact Hloop|].
  - intros [t i] u1 u2 Hin Hi Hstep.
    pose proof (λ n c, Hfile _ _ _ _ n c Hstep) as Hne.
    apply transfer_copy in Hstep as (Hsame & (ct & ci & Hct & Hci & Hh1 & Hh2) & _).
    split; [intros n Hn; by rewrite Hsame, Hi|].
    cbn [fst snd]. split; [by eapply Hne|]. split; [by eapply Hne|].
    exists ct, ci. rewrite <- !Hi by (by eapply Hne). done.
  - intros [t i] [t' i'] u1 u2 Hin Hin' Hi (Ht & Hi' & ct & ci & Hct & Hci & Hh1 & Hh2) Hstep.
    apply transfer_copy in Hstep as (_ & _ & Hkeep). cbn [fst snd] in *.
    split; [done|]. split; [done|]. exists ct, ci.
    split; [done|]. split; [done|].
    split; apply Hkeep; try done; by rewrite Hi.
  - split; [exact Hinv|]. intros t i Hin. apply (Hpost (t, i) Hin).
Qed.

(** Both ways of transferring leave the text of a pair in the folder as it
    was in the source directory. *)
Lemma transfers_texts (move_files : bool) folder batch w w' :
  for_each batch (transfer move_files folder) w = (inr tt, w') →
  ∀ t i, (t, i) ∈ batch →
    t ≠ folder
    ∧ ∃ xt, disk w ≫= lookup_path [t] = Some xt ∧ held folder t xt (disk w').
Proof.
  destruct move_files.
  - intros [_ H]%transfers_move t i Hin.
    destruct (H t i Hin) as (? & _ & _ & _ & xt & _ & ? & _ & ? & _). eauto.
  - intros [_ H]%transfers_copy t i Hin.
    destruct (H t i Hin) as (? & _ & ct & _ & ? & _ & ? & _). eauto.
Qed.

Lemma held_file_text f t x raw d :
  held f t x d → d ≫= lookup_path [f; t] = Some (File raw) → x = File raw.
Proof.
  intros [H|H] Hraw; [congruence|].
  rewrite (option_bind_lookup_cons d f t [t]), Hraw in H. done.
Qed.

(** The combined file of a batch, from the source files of the batch. *)
Lemma process_batch_combined flushed batch_size folder_prefix text_ext combined_name
    move_files file_pairs batch_num w w' :
  process_batch flushed batch_size folder_prefix text_ext combined_name move_files
    file_pairs batch_num w = (inr tt, w') →
  let folder := folder_name_of folder_prefix batch_num in
  let batch := batch_pairs_of file_pairs batch_size batch_num in
  (∀ pr, pr ∈ batch → pr.1 ≠ combined_name) →
  ∃ docs,
    Forall2 (text_of (disk w)) batch docs
    ∧ disk w' ≫= lookup_path [folder; combined_name]
      = Some (File (String.concat "" (interleave PAGEBREAK docs))).
Proof.
  intros Hrun folder batch Hcn.
  apply process_batch_stages in Hrun
    as (w1 & w2 & w3 & w4 & w5 & Hmk & Hd2 & Hloop & Hd4 & Hcat & ->).
  fold folder batch in Hmk, Hloop, Hcat.
  assert (∀ n, n ≠ folder →
            disk w1 ≫= lookup_path [n] = disk w ≫= lookup_path [n]) as Hsame.
  { intros n Hn.
    apply (on_disk_any (confined (λ _, False) (λ k, k = folder) (λ _, False))) in Hmk;
      [|apply confined_refl|apply mkdir_confined].
    destruct Hmk as [G _]. apply G; [tauto|done]. }
  pose proof (transfers_texts _ _ _ _ _ Hloop) as Htexts.
  destruct (concatenate_documents _ _ _ _ _ _ Hcat) as (docs & _ & Hdocs & _ & Hfile).
  exists docs. split; [|done].
  eapply Forall2_impl_elem_of; [exact Hdocs|].
  intros [t i] doc Hin Hdoc. destruct (Hdoc (Hcn _ Hin)) as (raw & Hraw & Hdec).
  destruct (Htexts t i Hin) as (Ht & xt & Hxt & Hheld).
  cbn [fst] in *. rewrite Hd4 in Hraw.
  apply (held_file_text _ _ _ raw) in Hheld as ->; [|done].
  exists raw. split; [|done]. cbn [fst]. by rewrite <- Hsame, <- Hd2.
Qed.

Lemma held_same_folder (d d' : option node) f n x :
  d' ≫= lookup_path [f] = d ≫= lookup_path [f] → held f n x d → held f n x d'.
Proof.
  intros H [Hh|Hh]; [left|right]; by rewrite (lookup_below_same d d').
Qed.

(** The loop over the batches, as far as a run that ends normally is
    concerned. *)
Lemma organize_complete flushed source_dir batch_size folder_prefix text_ext image_ext
    combined_name move_files w w' pairs num_batches :
  discover text_ext image_ext (disk w) = inr pairs →
  num_batches_of (Z.of_nat (length pairs)) batch_size = Some num_batches →
  organize_files_into_batches flushed source_dir batch_size folder_prefix
    text_ext image_ext combined_name move_files w = (inr tt, w') →
  pairs = [] ∧ disk w' = disk w
  ∨ ∃ w0 w2,
      disk w0 = disk w
      ∧ for_each (range num_batches)
          (process_batch flushed batch_size folder_prefix text_ext combined_name
             move_files pairs) w0 = (inr tt, w2)
      ∧ disk w' = disk w2.
Proof.
  intros Hd Hnb Hrun. destruct pairs as [|p ps].
  - left. split; [done|].
    destruct (disk w) as [root|] eqn:Hroot.
    + pose proof (organize_discovered flushed source_dir batch_size folder_prefix
                    text_ext image_ext combined_name move_files w
                    ltac:(rewrite Hroot; eauto)) as Hrep.
      rewrite Hroot, Hd in Hrep. destruct Hrep as [out Hrep].
      rewrite Hrep in Hrun. by injection Hrun as <-.
    + rewrite organize_missing in Hrun by done. by injection Hrun as <-.
  - right.
    pose proof (organize_discovered flushed source_dir batch_size folder_prefix
                  text_ext image_ext combined_name move_files w
                  (discover_some_disk _ _ _ _ _ Hd)) as Hrep.
    rewrite Hd in Hrep. destruct Hrep as [out Hrep]. rewrite Hnb in Hrep.
    rewrite Hrep in Hrun.
    match type of Hrun with context [for_each ?l ?b ?w0] =>
      destruct (for_each l b w0) as [[e|[]] w2] eqn:Hloop; [done|] end.
    injection Hrun as <-. do 2 eexists. split; [|split; [exact Hloop|]]; done.
Qed.



(** ** Copying: the files of a pair in their batch folder *)

Lemma process_batch_copy_placed flushed batch_size folder_prefix text_ext combined_name
    file_pairs batch_num w w' :
  process_batch flushed batch_size folder_prefix text_ext combined_name false
    file_pairs batch_num w = (inr tt, w') →
  let folder := folder_name_of folder_prefix batch_num in
  let batch := batch_pairs_of file_pairs batch_size batch_num in
  ¬ member_of batch combined_name →
  ∀ t i, (t, i) ∈ batch →
    ∃ ct ci,
      disk w ≫= lookup_path [t] = Some (File ct)
      ∧ disk w ≫= lookup_path [i] = Some (File ci)
      ∧ disk w' ≫= lookup_path [folder; t] = Some (File ct)
      ∧ held folder i (File ci) (disk w').
Proof.
  intros Hrun folder batch Hcn t i Hin.
  apply process_batch_stages in Hrun
    as (w1 & w2 & w3 & w4 & w5 & Hmk & Hd2 & Hloop & Hd4 & Hcat & ->).
  fold folder batch in Hmk, Hloop, Hcat.
  assert (∀ n, n ≠ folder →
            disk w1 ≫= lookup_path [n] = disk w ≫= lookup_path [n]) as Hsame.
  { intros n Hn.
    apply (on_disk_any (confined (λ _, False) (λ k, k = folder) (λ _, False))) in Hmk;
      [|apply confined_refl|apply mkdir_confined].
    destruct Hmk as [G _]. apply G; [tauto|done]. }
  assert (undisturbed folder (λ _, False) (λ n, n = combined_name) (disk w4) (disk w5))
    as Hu5.
  { eapply (concatenate_steps (undisturbed folder (λ _, False) (λ n, n = combined_name)));
      [| | |exact Hcat].
    - apply undisturbed_refl.
    - apply undisturbed_trans.
    - apply undisturbed_put. }
  apply transfers_copy in Hloop as [_ Hpairs].
  destruct (Hpairs t i Hin) as (Ht & Hi & ct & ci & Hct & Hci & Hh1 & Hh2).
  assert (t ≠ combined_name ∧ i ≠ combined_name) as [Htc Hic].
  { split; intros Heq; apply Hcn; exists t, i; (split; [done|]); [by left|by right]. }
  destruct (concatenate_documents _ _ _ _ _ _ Hcat) as (docs & _ & Hdocs & _).
  destruct (Forall2_elem_of_l _ _ _ _ Hdocs Hin) as (doc & Hdoc).
  destruct (Hdoc Htc) as (raw & Hraw & _). cbn [fst] in Hraw.
  rewrite <- Hd4 in Hh1, Hh2.
  pose proof (held_file_text _ _ _ _ _ Hh1 Hraw) as [= <-].
  exists ct, ci. rewrite <- !Hsame, <- !Hd2 by done.
  split; [done|]. split; [done|]. split.
  - destruct Hu5 as [_ P]. rewrite (P folder t []); [done|tauto|]. by intros [_ ->].
  - eapply undisturbed_held; [exact Hu5|tauto| |done]. by intros [_ ->].
Qed.



(** ** Moving: no file of a pair is lost *)

Section NoLoss.
Variables (folder_prefix combined_name : string).
Variable pairs : list (string * string).
Hypothesis folders_apart :
  ∀ b, 0 ≤ b → ¬ member_of pairs (folder_name_of folder_prefix b).
Hypothesis combined_apart : ¬ member_of pairs combined_name.





End NoLoss.



(** ** Moving: a file cannot be moved twice *)

Lemma transfer_move_distinct folder t i w w' :
  transfer true folder (t, i) w = (inr tt, w') → t ≠ i.
Proof.
  unfold transfer. intros H. apply bind_ok in H as ([] & w1 & H1 & H2).
  apply on_disk_ok in H1 as (r0 & r1 & Hr0 & Hm1 & ->).
  apply on_disk_ok in H2 as (r1' & r2 & Hr1 & Hm2 & ->).
  cbn [disk] in *. injection Hr1 as <-.
  apply move_undisturbed in Hm1 as (_ & _ & Hg1 & _).
  apply move_undisturbed in Hm2 as (_ & _ & _ & xi & Hxi & _).
  intros ->. unfold gone in Hg1. rewrite lookup_Some_root in Hg1. congruence.
Qed.

(** X13. A moving run with a positive batch size cannot end normally when
    the image of a text file is the text file itself (as when the image
    extension is the text extension): the second move of the pair finds no
    source.  In a moving run that ends normally the two names of every pair
    differ. *)
Theorem X13_a_moving_run_needs_two_files_per_pair flushed source_dir batch_size
    folder_prefix text_ext image_ext combined_name w w' pairs :
  discover text_ext image_ext (disk w) = inr pairs →
  0 < batch_size →
  organize_files_into_batches flushed source_dir batch_size folder_prefix
    text_ext image_ext combined_name true w = (inr tt, w') →
  ∀ t i, (t, i) ∈ pairs → t ≠ i.
Proof.
  intros Hd Hpos Hrun t i Hin.
  pose proof (num_batches_ceiling (Z.of_nat (length pairs)) batch_size Hpos) as Hnb.
  apply (organize_complete _ _ _ _ _ _ _ _ _ _ _ _ Hd Hnb) in Hrun
    as [[-> _]|(w0 & w2 & Hw0 & Hloop & _)]; [by apply elem_of_nil in Hin|].
  destruct (batches_cover pairs batch_size (t, i) Hpos Hin) as (b & Hb & Hbatch).
  apply (for_each_invariant (λ _, True)
           (λ b _, ∀ t i, (t, i) ∈ batch_pairs_of pairs batch_size b → t ≠ i))
    in Hloop as [_ Hpost]; [by apply (Hpost b Hb)| | |done].
  - intros b' u1 u2 _ _ Hstep. split; [done|].
    apply process_batch_stages in Hstep
      as (w1 & w3 & w4 & w5 & w6 & _ & _ & Htr & _).
    apply (for_each_invariant (λ _, True) (λ (p : string * string) _, p.1 ≠ p.2))
      in Htr as [_ Hpost]; [intros t' i' Hin'; apply (Hpost (t', i') Hin')| | |done].
    + intros [t' i'] v1 v2 _ _ Hmv. split; [done|]. by eapply transfer_move_distinct.
    + done.
  - done.
Qed.

Lemma X13_a_moving_run_needs_two_files_per_pair_witness :
  "a.txt" ≠ "a.jpg".
Proof.
  apply (X13_a_moving_run_needs_two_files_per_pair (λ _, "") "src" 2 "Batch" ".txt"
           ".jpg" "combined.txt"
           (initial_world (Some (dir_of [("a.txt", File "A"); ("a.jpg", File "I")])))
           (organize_files_into_batches (λ _, "") "src" 2 "Batch" ".txt" ".jpg"
              "combined.txt" true
              (initial_world (Some (dir_of [("a.txt", File "A"); ("a.jpg", File "I")])))).2
           [("a.txt", "a.jpg")]).
  - vm_compute. reflexivity.
  - lia.
  - vm_compute. reflexivity.
  - by left.
Defined.

(** * Decoded text *)

Lemma byte_in_high_not_CR lo hi c :
  (14 ≤ lo)%N → byte_in lo hi c = true → Ascii.eqb c CR_char = false.
Proof.
  intros Hlo [H _]%andb_true_iff. apply N.leb_le in H.
  apply Ascii.eqb_neq. intros ->. change (N_of_ascii CR_char) with 13%N in H. lia.
Qed.

Lemma not_ascii_not_CR c : byte_in 0 127 c = false → Ascii.eqb c CR_char = false.
Proof.
  intros H. apply Ascii.eqb_neq. intros ->. vm_compute in H. done.
Qed.

Lemma universal_newlines_other c s :
  Ascii.eqb c CR_char = false →
  universal_newlines (String c s) = String c (universal_newlines s).
Proof. intros H. simpl. by rewrite H. Qed.

Lemma utf8_valid_ascii c s :
  byte_in 0 127 c = true → utf8_valid (String c s) = utf8_valid s.
Proof. intros H. simpl. by rewrite H. Qed.

Lemma free_of_universal_newlines s : free_of CR_char (universal_newlines s) = true.
Proof.
  cut (∀ n s, (String.length s < n)%nat → free_of CR_char (universal_newlines s) = true).
  { intros H. apply (H (S (String.length s))). lia. }
  clear s. induction n as [|n IH]; intros s Hn; [lia|].
  destruct s as [|c s]; [done|]. cbn [String.length] in Hn.
  destruct (Ascii.eqb c CR_char) eqn:Ec.
  - unfold universal_newlines; fold universal_newlines. rewrite Ec.
    destruct s as [|c' s']; [done|]. cbn [String.length] in Hn.
    destruct (Ascii.eqb c' LF_char).
    + cbn [free_of]. change (Ascii.eqb LF_char CR_char) with false. cbn [negb andb].
      apply IH. lia.
    + cbn [free_of]. change (Ascii.eqb LF_char CR_char) with false. cbn [negb andb].
      apply IH. cbn [String.length]. lia.
  - rewrite universal_newlines_other by done. cbn [free_of]. rewrite Ec. cbn [negb andb].
    apply IH. lia.
Qed.

Lemma universal_newlines_free s :
  free_of CR_char s = true → universal_newlines s = s.
Proof.
  induction s as [|c s IH]; [done|]. cbn [free_of].
  intros [Hc Hs]%andb_true_iff. apply negb_true_iff in Hc.
  rewrite universal_newlines_other by done. by rewrite IH.
Qed.

(** The bytes of a character that is not ASCII pass through the
    translation of line ends. *)
Lemma utf8_valid_universal_newlines s :
  utf8_valid s = true → utf8_valid (universal_newlines s) = true.
Proof.
  cut (∀ n s, (String.length s < n)%nat →
         utf8_valid s = true → utf8_valid (universal_newlines s) = true).
  { intros H. apply (H (S (String.length s))). lia. }
  clear s. induction n as [|n IH]; intros s Hn; [lia|].
  destruct s as [|b0 s1]; [done|]. cbn [String.length] in Hn.
  destruct (byte_in 0 127 b0) eqn:A0.
  { rewrite utf8_valid_ascii by done. intros Hv.
    destruct (Ascii.eqb b0 CR_char) eqn:Ec.
    - unfold universal_newlines; fold universal_newlines. rewrite Ec.
      destruct s1 as [|c' s'']; [done|]. cbn [String.length] in Hn.
      destruct (Ascii.eqb c' LF_char) eqn:El.
      + apply Ascii.eqb_eq in El as ->.
        rewrite utf8_valid_ascii in Hv |- * by done. apply IH; [lia|done].
      + rewrite utf8_valid_ascii by done. apply IH; [cbn [String.length]; lia|done].
    - rewrite universal_newlines_other, utf8_valid_ascii by done. apply IH; [lia|done]. }
  pose proof (not_ascii_not_CR _ A0) as E0.
  rewrite (universal_newlines_other b0) by done.
  unfold utf8_valid at 1; fold utf8_valid. rewrite A0.
  destruct s1 as [|b1 s2]; [done|]. cbn [String.length] in Hn.
  destruct (byte_in 194 223 b0) eqn:A1.
  { intros [H1 Hv]%andb_true_iff.
    rewrite (universal_newlines_other b1) by (by eapply byte_in_high_not_CR; [|exact H1]).
    unfold utf8_valid; fold utf8_valid. rewrite A0, A1, H1. cbn [andb].
    apply IH; [lia|done]. }
  destruct s2 as [|b2 s3]; [done|]. cbn [String.length] in Hn.
  destruct (byte_in 224 239 b0) eqn:A2.
  { intros [[H1 H2]%andb_true_iff Hv]%andb_true_iff.
    assert (Ascii.eqb b1 CR_char = false) as E1.
    { destruct (byte_in 224 224 b0); [|destruct (byte_in 237 237 b0)];
        by eapply byte_in_high_not_CR; [|exact H1]. }
    rewrite (universal_newlines_other b1), (universal_newlines_other b2)
      by (done || by eapply byte_in_high_not_CR; [|exact H2]).
    unfold utf8_valid; fold utf8_valid. rewrite A0, A1, A2, H1, H2. cbn [andb].
    apply IH; [lia|done]. }
  destruct s3 as [|b3 s4]; [done|]. cbn [String.length] in Hn.
  destruct (byte_in 240 244 b0) eqn:A3; [|done].
  intros [[[H1 H2]%andb_true_iff H3]%andb_true_iff Hv]%andb_true_iff.
  assert (Ascii.eqb b1 CR_char = false) as E1.
  { destruct (byte_in 240 240 b0); [|destruct (byte_in 244 244 b0)];
      by eapply byte_in_high_not_CR; [|exact H1]. }
  rewrite (universal_newlines_other b1), (universal_newlines_other b2),
    (universal_newlines_other b3)
    by (done || (by eapply byte_in_high_not_CR; [|exact H2])
        || (by eapply byte_in_high_not_CR; [|exact H3])).
  unfold utf8_valid; fold utf8_valid. rewrite A0, A1, A2, A3, H1, H2, H3. cbn [andb].
  apply IH; [lia|done].
Qed.

Lemma utf8_valid_append a b :
  utf8_valid a = true → utf8_valid b = true → utf8_valid (a +:+ b) = true.
Proof.
  intros Ha Hb. revert Ha.
  cut (∀ n a, (String.length a < n)%nat →
         utf8_valid a = true → utf8_valid (a +:+ b) = true).
  { intros H. apply (H (S (String.length a))). lia. }
  clear a. induction n as [|n IH]; intros a Hn; [lia|].
  destruct a as [|b0 s1]; [done|]. cbn [String.length] in Hn.
  change (String b0 s1 +:+ b) with (String b0 (s1 +:+ b)).
  destruct (byte_in 0 127 b0) eqn:A0.
  { rewrite !utf8_valid_ascii by done. apply IH. lia. }
  unfold utf8_valid at 1; fold utf8_valid. rewrite A0.
  destruct s1 as [|b1 s2]; [done|]. cbn [String.length] in Hn.
  change (String b1 s2 +:+ b) with (String b1 (s2 +:+ b)).
  destruct (byte_in 194 223 b0) eqn:A1.
  { intros [H1 Hv]%andb_true_iff.
    unfold utf8_valid; fold utf8_valid. rewrite A0, A1, H1. cbn [andb].
    apply IH; [lia|done]. }
  destruct s2 as [|b2 s3]; [done|]. cbn [String.length] in Hn.
  change (String b2 s3 +:+ b) with (String b2 (s3 +:+ b)).
  destruct (byte_in 224 239 b0) eqn:A2.
  { intros [[H1 H2]%andb_true_iff Hv]%andb_true_iff.
    unfold utf8_valid; fold utf8_valid. rewrite A0, A1, A2, H1, H2. cbn [andb].
    apply IH; [lia|done]. }
  destruct s3 as [|b3 s4]; [done|]. cbn [String.length] in Hn.
  change (String b3 s4 +:+ b) with (String b3 (s4 +:+ b)).
  destruct (byte_in 240 244 b0) eqn:A3; [|done].
  intros [[[H1 H2]%andb_true_iff H3]%andb_true_iff Hv]%andb_true_iff.
  unfold utf8_valid; fold utf8_valid. rewrite A0, A1, A2, A3, H1, H2, H3. cbn [andb].
  apply IH; [lia|done].
Qed.

Lemma free_of_append c a b :
  free_of c a = true → free_of c b = true → free_of c (a +:+ b) = true.
Proof.
  intros Ha Hb. induction a as [|x a IH]; [done|].
  cbn [free_of] in Ha. apply andb_true_iff in Ha as [Hx Ha].
  change (String x a +:+ b) with (String x (a +:+ b)). cbn [free_of].
  by rewrite Hx, IH.
Qed.

Lemma plain_text_decoded raw s : decode_text raw = Some s → plain_text s.
Proof.
  unfold decode_text. destruct (utf8_valid raw) eqn:Hv; [|done]. intros [= <-].
  split; [by apply utf8_valid_universal_newlines|apply free_of_universal_newlines].
Qed.

Lemma plain_text_decodes s : plain_text s → decode_text s = Some s.
Proof.
  intros [Hv Hf]. unfold decode_text. by rewrite Hv, universal_newlines_free.
Qed.

Lemma plain_text_concat (l : list string) :
  Forall plain_text l → plain_text (String.concat "" l).
Proof.
  induction 1 as [|s l [Hv Hf] Hl [IHv IHf]]; [done|].
  destruct l as [|s' l]; [done|].
  change (String.concat "" (s :: s' :: l)) with (s +:+ "" +:+ String.concat "" (s' :: l)).
  change ("" +:+ String.concat "" (s' :: l)) with (String.concat "" (s' :: l)).
  split; [by apply utf8_valid_append|by apply free_of_append].
Qed.

Lemma plain_text_interleave sep docs :
  plain_text sep → Forall plain_text docs → Forall plain_text (interleave sep docs).
Proof.
  intros Hsep. induction 1 as [|d docs Hd Hdocs IH]; [constructor|].
  rewrite interleave_cons. constructor; [done|].
  case_decide; [constructor|]. by constructor.
Qed.

(** X14. A text that [read] returns holds no carriage return and is valid
    UTF-8, so that it decodes to itself; hence the combined file of a batch,
    made of such texts and of the separator, has line feeds as its only line
    ends and, read back as the script reads a text file, gives exactly the
    text that was written. *)
Theorem X14_combined_file_reads_back flushed f cn pairs w w' :
  concatenate flushed f cn pairs w = (inr tt, w') →
  (∀ pr, pr ∈ pairs → pr.1 ≠ cn) →
  ∃ content,
    disk w' ≫= lookup_path [f; cn] = Some (File content)
    ∧ free_of CR_char content = true
    ∧ read_text [f; cn] w' = (inr content, w').
Proof.
  intros Hrun Hcn.
  destruct (concatenate_documents _ _ _ _ _ _ Hrun) as (docs & _ & Hdocs & _ & Hfile).
  assert (Forall plain_text docs) as Hplain.
  { apply Forall_forall. intros doc Hdoc.
    apply list_elem_of_lookup in Hdoc as [j Hj].
    destruct (Forall2_lookup_r _ _ _ _ _ Hdocs Hj) as (pr & Hpr & Hdoc).
    destruct Hdoc as (raw & _ & Hdec).
    { apply Hcn. by eapply list_elem_of_lookup_2. }
    by eapply plain_text_decoded. }
  assert (plain_text (String.concat "" (interleave PAGEBREAK docs))) as Hcontent.
  { apply plain_text_concat, plain_text_interleave; [|done]. by split. }
  eexists. split; [exact Hfile|]. split; [apply Hcontent|].
  unfold read_text. rewrite Hfile. by rewrite plain_text_decodes.
Qed.

Lemma X14_combined_file_reads_back_witness :
  let w := initial_world (Some (dir_of
    [("Batch_01", dir_of [("a.txt", File ("A" +:+ String CR_char LF +:+ "1"));
                          ("b.txt", File "B")])])) in
  let w' := (concatenate (λ _, "") "Batch_01" "combined.txt"
               [("a.txt", "a.jpg"); ("b.txt", "b.jpg")] w).2 in
  ∃ content,
    disk w' ≫= lookup_path ["Batch_01"; "combined.txt"] = Some (File content)
    ∧ free_of CR_char content = true
    ∧ read_text ["Batch_01"; "combined.txt"] w' = (inr content, w').
Proof.
  intros w w'.
  apply (X14_combined_file_reads_back (λ _, "") "Batch_01" "combined.txt"
           [("a.txt", "a.jpg"); ("b.txt", "b.jpg")] w w').
  - vm_compute. reflexivity.
  - intros pr Hpr. repeat (apply elem_of_cons in Hpr as [->|Hpr]; [discriminate|]).
    by apply elem_of_nil in Hpr.
Defined.

(** * Only decodable text files *)



(** * The order of the folder names *)

Lemma compare_append_prefix p a b :
  String.compare (p +:+ a) (p +:+ b) = String.compare a b.
Proof.
  induction p as [|c p IH]; [done|].
  change (String c p +:+ a) with (String c (p +:+ a)).
  change (String c p +:+ b) with (String c (p +:+ b)).
  unfold String.compare; fold String.compare.
  assert (Ascii.compare c c = Eq) as Hc by (unfold Ascii.compare; apply N.compare_refl).
  rewrite Hc. exact IH.
Qed.

(** X16. With fewer than 100 batches the names of the batch folders sort,
    byte by byte, in the order of the batches; the padding to two digits
    goes no further: the folder of batch 100 sorts before the folder of
    batch 11. *)
Theorem X16_folder_names_sort_in_batch_order folder_prefix :
  (∀ b b', 0 ≤ b → b < b' → b' < 99 →
     String.ltb (folder_name_of folder_prefix b) (folder_name_of folder_prefix b') = true)
  ∧ String.ltb (folder_name_of folder_prefix 99) (folder_name_of folder_prefix 10) = true.
Proof.
  unfold String.ltb, folder_name_of. rewrite !compare_append_prefix. split; [|done].
  intros b b' Hb Hlt Hb'. rewrite !compare_append_prefix.
  assert (forallb (λ x, forallb (λ y,
            if (x <? y)%nat
            then match String.compare (fmt_02d (Z.of_nat x + 1)) (fmt_02d (Z.of_nat y + 1))
                 with Lt => true | _ => false end
            else true) (seq 0 99)) (seq 0 99) = true) as Hall
    by (vm_compute; reflexivity).
  rewrite forallb_forall in Hall.
  specialize (Hall (Z.to_nat b)). rewrite forallb_forall in Hall.
  specialize (Hall ltac:(apply in_seq; lia) (Z.to_nat b') ltac:(apply in_seq; lia)).
  destruct (Nat.ltb_spec (Z.to_nat b) (Z.to_nat b')); [|lia].
  by rewrite !Z2Nat.id in Hall by lia.
Qed.

Lemma X16_folder_names_sort_in_batch_order_witness :
  String.ltb "Batch_09" "Batch_10" = true ∧ String.ltb "Batch_100" "Batch_11" = true.
Proof.
  destruct (X16_folder_names_sort_in_batch_order "Batch") as [Hlow Hhigh].
  split; [apply (Hlow 8 9); lia|exact Hhigh].
Defined.

(** * The batches that a run processes *)

Lemma prefix_append (p s : string) : String.prefix p (p +:+ s) = true.
Proof.
  induction p as [|a p IH]; [by destruct s|].
  change (String a p +:+ s) with (String a (p +:+ s)).
  cbn [String.prefix]. by destruct (ascii_dec a a).
Qed.

Lemma announces_processing_line folder_name :
  announces_processing (processing_line folder_name) = true.
Proof. apply (prefix_append (LF +:+ "Processing ")). Qed.

Lemma filter_warnings image_ext (l : list string) :
  filter (λ line, announces_processing line = true)
    ((λ t, "Warning: No matching " +:+ image_ext +:+ " for " +:+ t) <$> l) = [].
Proof.
  induction l as [|t l IH]; [done|].
  rewrite fmap_cons, filter_cons_False; [exact IH|]. discriminate.
Qed.

Lemma filter_batch_reports batch_size folder_prefix text_ext combined_name
    (move_files : bool) pairs (l : list Z) :
  filter (λ line, announces_processing line = true)
    (concat (batch_report batch_size folder_prefix text_ext combined_name
               move_files pairs <$> l))
  = processing_line <$> (folder_name_of folder_prefix <$> l).
Proof.
  induction l as [|b l IH]; [done|].
  rewrite !fmap_cons, concat_cons, filter_app, IH. unfold batch_report.
  rewrite filter_cons_True by apply announces_processing_line.
  rewrite filter_cons_False by (destruct move_files; discriminate).
  rewrite filter_cons_False by discriminate.
  rewrite filter_cons_False by discriminate.
  reflexivity.
Qed.

Lemma lookup_child_is_dir (d : option node) f k x :
  d ≫= lookup_path [f; k] = Some x → is_dir (d ≫= lookup_path [f]) = true.
Proof.
  destruct d as [root|]; [|done]. rewrite !lookup_Some_root, (lookup_path_cons f [k]).
  destruct (lookup_path [f] root) as [[c|m]|]; done.
Qed.

(** A batch that ends normally leaves its folder, a directory. *)
Lemma process_batch_folder flushed batch_size folder_prefix text_ext combined_name
    move_files file_pairs batch_num w w' :
  process_batch flushed batch_size folder_prefix text_ext combined_name move_files
    file_pairs batch_num w = (inr tt, w') →
  is_dir (disk w' ≫= lookup_path [folder_name_of folder_prefix batch_num]) = true.
Proof.
  intros Hrun.
  apply process_batch_stages in Hrun
    as (w1 & w2 & w3 & w4 & w5 & _ & _ & _ & _ & Hcat & ->).
  apply concatenate_documents in Hcat as (docs & _ & _ & _ & Hfile).
  by eapply lookup_child_is_dir.
Qed.

(** The folders of the batches after a loop over the batches that ends
    normally. *)
Lemma batches_folders flushed batch_size folder_prefix text_ext combined_name
    (move_files : bool) file_pairs num_batches w w' :
  (move_files = true →
   ∀ b, b ∈ range num_batches → ¬ member_of file_pairs (folder_name_of folder_prefix b)) →
  for_each (range num_batches)
    (process_batch flushed batch_size folder_prefix text_ext combined_name
       move_files file_pairs) w = (inr tt, w') →
  ∀ b, b ∈ range num_batches →
    is_dir (disk w' ≫= lookup_path [folder_name_of folder_prefix b]) = true.
Proof.
  intros Hfolders Hloop.
  apply (for_each_invariant_NoDup (λ _, True)
           (λ b u, is_dir (disk u ≫= lookup_path [folder_name_of folder_prefix b]) = true))
    in Hloop as [_ Hpost]; [exact Hpost|apply NoDup_range|..|done].
  - intros b u1 u2 _ _ Hstep. split; [done|]. by eapply process_batch_folder.
  - intros b b' u1 u2 Hb _ Hbb' _ Hdir Hstep.
    apply process_batch_confined in Hstep as [G _]. rewrite G; [done| |].
    + intros [Hmv Hmem%member_of_batch]. by apply (Hfolders Hmv b).
    + intros Heq%folder_name_of_inj. done.
Qed.

(** What a run that ends normally after processing batches has announced. *)
Lemma complete_run_processing flushed source_dir batch_size folder_prefix
    text_ext image_ext combined_name move_files w w' pairs num_batches :
  discover text_ext image_ext (disk w) = inr pairs →
  pairs ≠ [] →
  num_batches_of (Z.of_nat (length pairs)) batch_size = Some num_batches →
  organize_files_into_batches flushed source_dir batch_size folder_prefix
    text_ext image_ext combined_name move_files w = (inr tt, w') →
  ∃ out,
    stdout w' = stdout w ++ out
    ∧ filter (λ line, announces_processing line = true) out
      = processing_line <$> (folder_name_of folder_prefix <$> range num_batches)
    ∧ "Created " +:+ pretty num_batches +:+ " batch folders" ∈ out.
Proof.
  intros Hd Hne Hnb Hrun.
  destruct pairs as [|p ps]; [done|].
  pose proof (organize_report flushed source_dir batch_size folder_prefix
                text_ext image_ext combined_name move_files w
                (discover_some_disk _ _ _ _ _ Hd)) as Hrep.
  cbv zeta in Hrep. rewrite Hd, Hnb in Hrep.
  unfold discover in Hd.
  apply pairing_warnings in Hd as (found & _ & _ & Hwarn & _);
    [|apply glob_sorted_NoDup].
  rewrite Hwarn in Hrep.
  match type of Hrep with context [for_each ?l ?b ?w0] =>
    destruct (for_each l b w0) as [[e|[]] w2] eqn:Hloop end; [congruence|].
  apply batches_stdout in Hloop as (out & Hout & Hlines). cbn [stdout] in Hout.
  rewrite Hrep in Hrun. injection Hrun as <-. cbn [stdout].
  rewrite Hout, Hlines by done. rewrite <- ?app_assoc.
  eexists. split; [reflexivity|]. split.
  - rewrite !filter_app, filter_warnings, filter_batch_reports.
    rewrite !filter_cons_False by discriminate.
    rewrite !filter_nil. by rewrite app_nil_r.
  - rewrite !elem_of_app. do 4 right. rewrite !elem_of_cons. auto.
Qed.

(** C2, as the code has it.  In a run with at least one complete pair and a
    positive batch size, the number of batches computed is the ceiling of
    P / batch_size, the least count of batches of that size that hold all P
    pairs, and the folder names of these batches are pairwise distinct.  A
    run that ends normally has processed exactly these folders, one after
    the other in batch order: it has announced the processing of each of
    them, and of nothing else, and its summary reports their number; when
    the folder prefix has no separator and, if the run moves, no batch
    folder bears the name of a file of a pair, each of them is a directory
    of the source directory after the run. *)
Theorem C2_number_of_batches flushed source_dir batch_size folder_prefix
    text_ext image_ext combined_name (move_files : bool) w pairs :
  discover text_ext image_ext (disk w) = inr pairs →
  pairs ≠ [] →
  0 < batch_size →
  let P := Z.of_nat (length pairs) in
  let num_batches := ceiling_div P batch_size in
  let folders := folder_name_of folder_prefix <$> range num_batches in
  num_batches_of P batch_size = Some num_batches
  ∧ (num_batches - 1) * batch_size < P
  ∧ P ≤ num_batches * batch_size
  ∧ (∃ batches, batches_of pairs batch_size = Some batches
       ∧ Z.of_nat (length batches) = num_batches)
  ∧ Z.of_nat (length folders) = num_batches
  ∧ NoDup folders
  ∧ ∀ w',
      organize_files_into_batches flushed source_dir batch_size folder_prefix
        text_ext image_ext combined_name move_files w = (inr tt, w') →
      (∃ out,
         stdout w' = stdout w ++ out
         ∧ filter (λ line, announces_processing line = true) out
           = processing_line <$> folders
         ∧ "Created " +:+ pretty num_batches +:+ " batch folders" ∈ out)
      ∧ (separator_free folder_prefix = true →
         (move_files = true → ∀ f, f ∈ folders → ¬ member_of pairs f) →
         ∀ f, f ∈ folders → is_dir (disk w' ≫= lookup_path [f]) = true).
Proof.
  intros Hd Hne Hpos P nb folders.
  pose proof (ceiling_div_bounds P batch_size Hpos) as [Hlo Hhi]. fold nb in Hlo, Hhi.
  assert (0 < P) by (subst P; destruct pairs; [done|simpl; lia]).
  assert (0 ≤ nb) by nia.
  pose proof (num_batches_ceiling P batch_size Hpos) as Hnb. fold nb in Hnb.
  split; [done|]. split; [done|]. split; [done|]. split.
  { unfold batches_of. fold P. rewrite Hnb.
    eexists. split; [reflexivity|]. rewrite length_fmap, length_range. lia. }
  split; [unfold folders; rewrite length_fmap, length_range; lia|].
  split.
  { apply NoDup_fmap_2; [|apply NoDup_range]. intros b b'. apply folder_name_of_inj. }
  intros w' Hrun. split.
  - by eapply complete_run_processing.
  - intros _ Hfolders f (b & -> & Hb)%list_elem_of_fmap.
    apply (organize_complete _ _ _ _ _ _ _ _ _ _ _ _ Hd Hnb) in Hrun
      as [[? _]|(w0 & w2 & Hw0 & Hloop & ->)]; [done|].
    eapply batches_folders; [|exact Hloop|exact Hb].
    intros Hmv b' Hb'. apply (Hfolders Hmv). apply list_elem_of_fmap. by exists b'.
Qed.

Lemma C2_number_of_batches_witness :
  let w := initial_world (Some (dir_of
     [("a.txt", File "A"); ("a.jpg", File ""); ("b.txt", File "B"); ("b.jpg", File "");
      ("c.txt", File "C"); ("c.jpg", File ""); ("d.txt", File "D"); ("d.jpg", File "");
      ("e.txt", File "E"); ("e.jpg", File "")])) in
  let w' := (organize_files_into_batches (λ _, "") "src" 2 "Batch" ".txt" ".jpg"
               "combined.txt" false w).2 in
  num_batches_of 5 2 = Some 3
  ∧ filter (λ line, announces_processing line = true) (stdout w')
    = [processing_line "Batch_01"; processing_line "Batch_02"; processing_line "Batch_03"]
  ∧ is_dir (disk w' ≫= lookup_path ["Batch_03"]) = true.
Proof.
  intros w w'.
  destruct (C2_number_of_batches (λ _, "") "src" 2 "Batch" ".txt" ".jpg" "combined.txt"
    false w
    [("a.txt", "a.jpg"); ("b.txt", "b.jpg"); ("c.txt", "c.jpg"); ("d.txt", "d.jpg");
     ("e.txt", "e.jpg")])
    as (H1 & _ & _ & _ & _ & _ & Hrun).
  - vm_compute. reflexivity.
  - discriminate.
  - lia.
  - destruct (Hrun w') as [(out & Hout & Hlines & _) Hdirs]; [vm_compute; reflexivity|].
    split; [exact H1|]. split.
    + rewrite Hout. exact Hlines.
    + apply Hdirs; [reflexivity|discriminate|]. vm_compute. right. right. left.
Defined.

(** Three pairs and a batch size of 2 give two batches; a regular file in
    the place of the second batch folder stops the run when it creates that
    folder: one batch folder has been processed, not two. *)
Lemma C2_counterexample :
  let w := initial_world (Some (dir_of
     [("a.txt", File "A"); ("a.jpg", File "I"); ("b.txt", File "B"); ("b.jpg", File "J");
      ("c.txt", File "C"); ("c.jpg", File "K"); ("Batch_02", File "X")])) in
  discover ".txt" ".jpg" (disk w)
  = inr [("a.txt", "a.jpg"); ("b.txt", "b.jpg"); ("c.txt", "c.jpg")]
  ∧ num_batches_of 3 2 = Some 2
  ∧ ceiling_div 3 2 = 2
  ∧ ∃ w',
      organize_files_into_batches (λ _, "") "src" 2 "Batch" ".txt" ".jpg"
        "combined.txt" false w = (inl FileExistsError, w')
      ∧ filter (λ line, announces_processing line = true) (stdout w')
        = [processing_line "Batch_01"]
      ∧ is_dir (disk w' ≫= lookup_path ["Batch_01"]) = true
      ∧ disk w' ≫= lookup_path ["Batch_02"] = Some (File "X").
Proof.
  repeat split; try (vm_compute; reflexivity).
  eexists. repeat split; vm_compute; reflexivity.
Qed.

(** * Invalid batch sizes *)

Lemma num_batches_negative (total batch_size : Z) :
  batch_size < 0 → 2 ≤ total →
  ∃ num_batches, num_batches_of total batch_size = Some num_batches ∧ num_batches ≤ 0.
Proof.
  intros Hneg Htot. unfold num_batches_of, floordiv.
  destruct (Z.eqb_spec batch_size 0) as [?|_]; [lia|].
  eexists. split; [reflexivity|].
  pose proof (Z.div_mod (total + batch_size - 1) batch_size ltac:(lia)) as Hdm.
  pose proof (Z.mod_neg_bound (total + batch_size - 1) batch_size Hneg) as Hm.
  nia.
Qed.

Lemma num_batches_one_negative (batch_size : Z) :
  batch_size < 0 → num_batches_of 1 batch_size = Some 1.
Proof.
  intros Hneg. unfold num_batches_of, floordiv.
  destruct (Z.eqb_spec batch_size 0) as [?|_]; [lia|].
  replace (1 + batch_size - 1) with batch_size by lia.
  by rewrite Z.div_same by lia.
Qed.

Lemma batch_pairs_of_one_negative {A} (p : A) (batch_size : Z) :
  batch_size < 0 → batch_pairs_of [p] batch_size 0 = [].
Proof.
  intros Hneg. unfold batch_pairs_of, slice, slice_index. cbn [length].
  rewrite Z.mul_0_l, Z.add_0_l.
  replace (Z.min batch_size (Z.of_nat 1)) with batch_size by lia.
  destruct (Z.ltb_spec batch_size 0) as [_|?]; [|lia].
  change (0 <? 0) with false. cbv iota.
  replace (Z.to_nat (Z.max (batch_size + Z.of_nat 1) 0 - Z.min 0 (Z.of_nat 1)))
    with 0%nat by lia.
  done.
Qed.

(** A batch without pairs: whatever its outcome, the tree changes only at
    the combined file of the folder of the batch, and at the folder when it
    is created; when it ends normally the combined file is empty. *)
Lemma process_batch_empty flushed batch_size folder_prefix text_ext combined_name
    (move_files : bool) file_pairs batch_num w r w' :
  batch_pairs_of file_pairs batch_size batch_num = [] →
  process_batch flushed batch_size folder_prefix text_ext combined_name move_files
    file_pairs batch_num w = (r, w') →
  let folder := folder_name_of folder_prefix batch_num in
  confined (λ _, False) (λ n, n = folder) (λ n, n = combined_name) (disk w) (disk w')
  ∧ (r = inr tt → disk w' ≫= lookup_path [folder; combined_name] = Some (File "")).
Proof.
  intros Hempty Hrun folder. split.
  - revert Hrun. apply process_batch_any; [apply confined_refl|apply confined_trans|..].
    + intros root root' Hmk%mkdir_confined.
      eapply confined_weaken; [| | |exact Hmk]; done.
    + intros n root root' (t & i & Hin & _). rewrite Hempty in Hin.
      by apply elem_of_nil in Hin.
    + intros d x. apply put_confined.
  - intros ->. apply process_batch_combined in Hrun as (docs & Hdocs & Hfile).
    + rewrite Hempty in Hdocs. apply Forall2_nil_inv_l in Hdocs as ->. exact Hfile.
    + rewrite Hempty. intros pr Hpr. by apply elem_of_nil in Hpr.
Qed.

Lemma process_batch_empty_error flushed batch_size folder_prefix text_ext combined_name
    move_files file_pairs batch_num w e w' :
  batch_pairs_of file_pairs batch_size batch_num = [] →
  process_batch flushed batch_size folder_prefix text_ext combined_name move_files
    file_pairs batch_num w = (inl e, w') →
  e ≠ ZeroDivisionError.
Proof.
  intros Hempty. unfold process_batch. rewrite Hempty.
  assert (∀ call u u',
            (∀ root e', call root = inl e' → e' ≠ ZeroDivisionError) →
            on_disk call u = (inl e, u') → e ≠ ZeroDivisionError) as Hdisk.
  { intros call u u' Hcall. unfold on_disk. destruct (disk u) as [root|]; [|by intros [= <-]].
    destruct (call root) as [e'|?] eqn:Hc; [|done]. intros [= <- _]. by eapply Hcall. }
  intros [(e1 & H & [= <-])|([] & w1 & _ & H)]%bind_any.
  { eapply Hdisk; [|exact H]. intros root e'. unfold mkdir_exist_ok.
    destruct root as [?|m]; [by intros [= <-]|].
    destruct (m !! _) as [[?|?]|]; [by intros [= <-]|done|done]. }
  apply bind_any in H as [(e1 & H & _)|([] & w2 & _ & H)]; [by rewrite print_unfold in H|].
  apply bind_any in H as [(e1 & H & _)|([] & w3 & _ & H)]; [by rewrite print_unfold in H|].
  apply bind_any in H as [(e1 & H & _)|([] & w4 & _ & H)]; [done|].
  apply bind_any in H as [(e1 & H & _)|([] & w5 & _ & H)]; [by rewrite print_unfold in H|].
  apply bind_any in H as [(e1 & H & [= <-])|([] & w6 & _ & H)];
    [|by rewrite print_unfold in H].
  unfold concatenate, open_w in H.
  apply bind_any in H as [(e2 & H & [= <-])|([] & w6 & _ & H)]; [|done].
  apply bind_any in H as [(e3 & H & [= <-])|([] & w6 & _ & H)]; [|done].
  eapply Hdisk; [|exact H]. intros root e'. unfold create_file.
  destruct (lookup_path _ root) as [[?|?]|]; [done|by intros [= <-]|].
  destruct (lookup_path _ root) as [[?|?]|]; [by intros [= <-]|done|by intros [= <-]].
Qed.

(** C5, as the code has it.  There is no check of the batch size.  With at
    least one pair, a batch size of 0 stops the run with the division error
    of the batch count, before any batch and with the file system untouched.
    A negative batch size is not rejected.  With two pairs or more the
    batch count is not positive, the loop over the batches does not
    iterate, and the run ends normally with the file system untouched.
    With exactly one pair the batch count is 1 and the only batch is empty:
    no file is transferred and, for a folder prefix without separator and a
    combined name that is a single path component, the run changes nothing
    but the folder of the first batch and, in it, the combined file, which
    is empty when the run ends normally. *)
Theorem C5_nonpositive_batch_size flushed source_dir batch_size folder_prefix
    text_ext image_ext combined_name move_files w p ps :
  discover text_ext image_ext (disk w) = inr (p :: ps) →
  batch_size ≤ 0 →
  ∃ r w',
    organize_files_into_batches flushed source_dir batch_size folder_prefix
      text_ext image_ext combined_name move_files w = (r, w')
    ∧ (batch_size = 0 → r = inl ZeroDivisionError ∧ disk w' = disk w)
    ∧ (batch_size < 0 → ps ≠ [] →
       (∃ num_batches,
          num_batches_of (Z.of_nat (length (p :: ps))) batch_size = Some num_batches
          ∧ num_batches ≤ 0)
       ∧ r = inr tt ∧ disk w' = disk w)
    ∧ (batch_size < 0 → ps = [] →
       num_batches_of (Z.of_nat (length (p :: ps))) batch_size = Some 1
       ∧ batch_pairs_of (p :: ps) batch_size 0 = []
       ∧ r ≠ inl ZeroDivisionError
       ∧ (separator_free folder_prefix = true →
          single_component combined_name = true →
          let folder := folder_name_of folder_prefix 0 in
          (∀ n q, n ≠ folder →
             disk w' ≫= lookup_path (n :: q) = disk w ≫= lookup_path (n :: q))
          ∧ (∀ n q, n ≠ combined_name →
               disk w' ≫= lookup_path (folder :: n :: q)
               = disk w ≫= lookup_path (folder :: n :: q))
          ∧ (r = inr tt →
             disk w' ≫= lookup_path [folder; combined_name] = Some (File "")))).
Proof.
  intros Hd Hle.
  pose proof (organize_discovered flushed source_dir batch_size folder_prefix
                text_ext image_ext combined_name move_files w
                (discover_some_disk _ _ _ _ _ Hd)) as Hrun.
  rewrite Hd in Hrun. destruct Hrun as [out Hrun].
  destruct (Z.eq_dec batch_size 0) as [->|Hnz].
  - do 2 eexists. split; [exact Hrun|]. split; [done|]. split; lia.
  - destruct ps as [|q ps].
    + pose proof (num_batches_one_negative batch_size ltac:(lia)) as Hnb.
      pose proof (batch_pairs_of_one_negative p batch_size ltac:(lia)) as Hempty.
      change (Z.of_nat (length [p])) with 1 in Hrun. rewrite Hnb in Hrun.
      change (range 1) with [0] in Hrun. rewrite for_each_cons in Hrun.
      match type of Hrun with context [process_batch ?a ?b ?c ?d ?e ?f ?g ?h ?u] =>
        destruct (process_batch a b c d e f g h u) as [r1 w1] eqn:Hbatch end.
      pose proof (process_batch_empty _ _ _ _ _ _ _ _ _ _ _ Hempty Hbatch)
        as [[G Q] Hfile]. cbn [disk] in G, Q.
      assert (∃ r w',
                organize_files_into_batches flushed source_dir batch_size folder_prefix
                  text_ext image_ext combined_name move_files w = (r, w')
                ∧ disk w' = disk w1 ∧ r ≠ inl ZeroDivisionError
                ∧ (r = inr tt → r1 = inr tt)) as (r & w' & Hrun' & Hw' & Hr & Hr1).
      { destruct r1 as [e|[]].
        - exists (inl e), w1. split; [exact Hrun|]. split; [done|]. split; [|done].
          intros [= ->]. by eapply process_batch_empty_error.
        - eexists _, _. split; [exact Hrun|]. done. }
      exists r, w'. split; [done|]. split; [lia|]. split; [done|].
      intros _ _. split; [done|]. split; [done|]. split; [done|].
      intros _ _ folder. rewrite Hw'. split; [|split].
      * intros n q Hn. apply lookup_below_same, G; [tauto|done].
      * intros n q Hn. apply Q; [tauto|done].
      * intros Hok. apply Hfile. by apply Hr1.
    + destruct (num_batches_negative (Z.of_nat (length (p :: q :: ps))) batch_size)
        as (nb & Hnb & Hnb0); [lia|simpl; lia|].
      rewrite Hnb in Hrun.
      replace (range nb) with (@nil Z) in Hrun
        by (unfold range; by replace (Z.to_nat nb) with 0%nat by lia).
      do 2 eexists. split; [exact Hrun|]. split; [done|]. split; [|done].
      intros _ _. split; [by exists nb|done].
Qed.

Lemma C5_nonpositive_batch_size_witness :
  let w := initial_world (Some (dir_of [("a.txt", File "A"); ("a.jpg", File "I")])) in
  (∃ w',
     organize_files_into_batches (λ _, "") "src" 0 "Batch" ".txt" ".jpg"
       "combined.txt" false w = (inl ZeroDivisionError, w')
     ∧ disk w' = disk w)
  ∧ (∃ r w',
       organize_files_into_batches (λ _, "") "src" (-1) "Batch" ".txt" ".jpg"
         "combined.txt" true w = (r, w')
       ∧ r ≠ inl ZeroDivisionError
       ∧ disk w' ≫= lookup_path ["a.txt"] = Some (File "A")
       ∧ disk w' ≫= lookup_path ["a.jpg"] = Some (File "I")).
Proof.
  intros w. split.
  - destruct (C5_nonpositive_batch_size (λ _, "") "src" 0 "Batch" ".txt" ".jpg"
      "combined.txt" false w ("a.txt", "a.jpg") []) as (r & w' & Hrun & H0 & _).
    + vm_compute. reflexivity.
    + lia.
    + destruct (H0 eq_refl) as [-> Hdisk]. exists w'. split; [exact Hrun|exact Hdisk].
  - destruct (C5_nonpositive_batch_size (λ _, "") "src" (-1) "Batch" ".txt" ".jpg"
      "combined.txt" true w ("a.txt", "a.jpg") []) as (r & w' & Hrun & _ & _ & H1).
    + vm_compute. reflexivity.
    + lia.
    + destruct (H1 ltac:(lia) eq_refl) as (_ & _ & Hr & Hscope).
      destruct (Hscope eq_refl eq_refl) as (Hout & _ & _).
      exists r, w'. split; [exact Hrun|]. split; [exact Hr|].
      split; (rewrite Hout; [reflexivity|discriminate]).
Defined.

(** A batch size of -1 with one pair: the run raises nothing, and it creates
    the folder [Batch_01] with an empty combined file in it. *)
Lemma C5_counterexample :
  let w := initial_world (Some (dir_of [("a.txt", File "A"); ("a.jpg", File "I")])) in
  ∃ w',
    organize_files_into_batches (λ _, "") "src" (-1) "Batch" ".txt" ".jpg"
      "combined.txt" false w = (inr tt, w')
    ∧ (disk w ≫= lookup_path ["Batch_01"; "combined.txt"]) = None
    ∧ (disk w' ≫= lookup_path ["Batch_01"; "combined.txt"]) = Some (File "").
Proof.
  eexists. split; [vm_compute; reflexivity|]. split; vm_compute; reflexivity.
Qed.

(** The same run with a regular file in the place of the folder: creating
    the folder raises [FileExistsError], and the tree is left as it was. *)
Example negative_batch_size_file_in_the_way :
  let w := initial_world (Some (dir_of
    [("a.txt", File "A"); ("a.jpg", File "I"); ("Batch_01", File "X")])) in
  ∃ w',
    organize_files_into_batches (λ _, "") "src" (-1) "Batch" ".txt" ".jpg"
      "combined.txt" false w = (inl FileExistsError, w')
    ∧ disk w' = disk w.
Proof. eexists. split; vm_compute; reflexivity. Qed.

(** * Copying again *)

Lemma put_path_same p x root :
  p ≠ [] → lookup_path p root = Some x → put_path p x root = root.
Proof.
  assert (∀ k y r, lookup_path [k] r = Some y → put_path [k] y r = r) as Hone.
  { intros k y r. rewrite lookup_path_1. destruct r as [?|m]; [done|].
    intros E. rewrite put_path_1_Dir. by rewrite insert_id. }
  revert x root. induction p as [|k p IH]; intros x root Hp; [done|].
  destruct p as [|k' q]; [apply Hone|].
  rewrite (lookup_path_cons k (k' :: q)), put_path_below.
  destruct (lookup_path [k] root) as [c|] eqn:E; [|done].
  cbn [mbind option_bind]. intros Hl. rewrite IH by done. by apply Hone.
Qed.

Lemma put_path_twice f k x y root :
  put_path [f; k] x (put_path [f; k] y root) = put_path [f; k] x root.
Proof.
  rewrite (put_path_below f k [] y root).
  destruct (lookup_path [f] root) as [c|] eqn:E; [|done].
  destruct root as [?|m]; [done|]. rewrite lookup_path_1 in E.
  rewrite put_path_1_Dir.
  rewrite !put_path_below, !lookup_path_1, lookup_insert_eq, E, !put_path_1_Dir.
  rewrite insert_insert_eq. do 2 f_equal.
  destruct c as [?|d]; [by rewrite !put_path_File|].
  rewrite !put_path_1_Dir. by rewrite insert_insert_eq.
Qed.

Lemma world_eta w : World (disk w) (stdout w) (outbuf w) = w.
Proof. by destruct w. Qed.

Lemma on_disk_same call w root :
  disk w = Some root → call root = inr root → on_disk call w = (inr tt, w).
Proof.
  intros Hd Hc. unfold on_disk. rewrite Hd, Hc, <- Hd. by rewrite world_eta.
Qed.

Lemma copy2_same n f c root :
  dot_name n = false →
  lookup_path [n] root = Some (File c) →
  held f n (File c) (Some root) →
  copy2 n f root = inr root.
Proof.
  intros Hdot Hn Hh. unfold copy2. rewrite Hdot, Hn.
  destruct Hh as [Hh|Hh]; rewrite lookup_Some_root in Hh.
  - rewrite Hh. cbn [is_dir]. unfold create_file. rewrite Hh.
    by rewrite put_path_same.
  - assert (is_dir (lookup_path [f; n] root) = true) as ->.
    { rewrite (lookup_path_cons f [n; n]) in Hh.
      rewrite (lookup_path_cons f [n]).
      destruct (lookup_path [f] root) as [c0|]; [|done]. cbn [mbind option_bind] in *.
      rewrite (lookup_path_cons n [n]) in Hh.
      destruct (lookup_path [n] c0) as [[?|?]|]; done. }
    cbn [app]. unfold create_file. rewrite Hh. by rewrite put_path_same.
Qed.

Lemma transfers_again f (batch : list (string * string)) root w :
  disk w = Some root →
  (∀ t i, (t, i) ∈ batch →
     copy2 t f root = inr root ∧ copy2 i f root = inr root) →
  for_each batch (transfer false f) w = (inr tt, w).
Proof.
  intros Hd. induction batch as [|[t i] batch IH]; intros Hall; [done|].
  rewrite for_each_cons. unfold transfer at 1. rewrite bind_unfold.
  destruct (Hall t i) as [Ht Hi]; [by left|].
  rewrite (on_disk_same _ w root), (on_disk_same _ w root) by done.
  apply IH. intros t' i' Hin. apply Hall. by right.
Qed.

Section Again.
Variable flushed : list string → string.
Variables f cn : string.
Variable root : node.

Lemma append_loop_again (n : Z) (l : list (string * string)) (j : nat) w z docs :
  n = Z.of_nat (j + length l) →
  disk w = Some (put_path [f; cn] (File z) root) →
  Forall2 (λ pr doc, pr.1 ≠ cn
                     ∧ ∃ raw, lookup_path [f; pr.1] root = Some (File raw)
                              ∧ decode_text raw = Some doc) l docs →
  ∃ w2 z',
    for_each (imap (λ i x, (Z.of_nat (j + i), x)) l)
      (append_document flushed f [f; cn] n) w = (inr tt, w2)
    ∧ disk w2 = Some (put_path [f; cn] (File z') root)
    ∧ stdout w2 = stdout w
    ∧ outbuf w2 = outbuf w ++ interleave PAGEBREAK docs.
Proof.
  intros Hn Hd HF. revert j w z Hn Hd.
  induction HF as [|[t im] doc l docs (Hne & raw & Hraw & Hdec) HF IH];
    intros j w z Hn Hd.
  - exists w, z. by rewrite app_nil_r.
  - rewrite imap_cons, for_each_cons.
    unfold append_document at 1. rewrite bind_unfold.
    cbn [fst] in Hne, Hraw.
    assert (read_text [f; t] w = (inr doc, w)) as ->.
    { unfold read_text. rewrite Hd, lookup_Some_root, lookup_put_path_2.
      rewrite decide_False by done. by rewrite Hraw, Hdec. }
    rewrite bind_unfold, write_effect.
    assert (∀ wb zb, disk wb = Some (put_path [f; cn] (File zb) root) →
              stdout wb = stdout w →
              outbuf wb = outbuf w ++ [doc]
                          ++ (if decide (l = []) then [] else [PAGEBREAK]) →
              ∃ w2 z',
                for_each (imap ((λ i x, (Z.of_nat (j + i), x)) ∘ S) l)
                  (append_document flushed f [f; cn] n) wb = (inr tt, w2)
                ∧ disk w2 = Some (put_path [f; cn] (File z') root)
                ∧ stdout w2 = stdout w
                ∧ outbuf w2 = outbuf w ++ interleave PAGEBREAK (doc :: docs)) as Hrest.
    { intros wb zb Hdb Hsb Hob.
      rewrite (imap_ext _ (λ i x, (Z.of_nat (S j + i), x)))
        by (intros; simpl; f_equal; lia).
      destruct (IH (S j) wb zb) as (w2 & z' & Hloop & Hd2 & Hs2 & Ho2);
        [simpl in Hn; lia|done|].
      exists w2, z'. split; [done|]. split; [done|]. split; [congruence|].
      rewrite Ho2, Hob, interleave_cons, <- !app_assoc. simpl. do 2 f_equal.
      apply Forall2_length in HF. destruct l, docs; done. }
    destruct (Z.ltb_spec (Z.of_nat (j + 0)) (n - 1)) as [Hlt|Hge].
    + rewrite write_effect. cbn [disk stdout outbuf]. eapply Hrest.
      * cbn [disk]. rewrite Hd. cbn [fmap option_fmap option_map].
        rewrite !put_path_twice. reflexivity.
      * done.
      * cbn [outbuf]. rewrite <- app_assoc.
        rewrite decide_False; [done|]. intros ->. simpl in Hn. lia.
    + eapply Hrest.
      * cbn [disk]. rewrite Hd. cbn [fmap option_fmap option_map].
        rewrite put_path_twice. reflexivity.
      * done.
      * cbn [outbuf]. rewrite decide_True; [by rewrite app_nil_r|].
        destruct l; [done|]. simpl in Hn, Hge. lia.
Qed.

Lemma concatenate_again (batch : list (string * string)) docs w :
  disk w = Some root →
  lookup_path [f; cn] root = Some (File (String.concat "" (interleave PAGEBREAK docs))) →
  Forall2 (λ pr doc, pr.1 ≠ cn
                     ∧ ∃ raw, lookup_path [f; pr.1] root = Some (File raw)
                              ∧ decode_text raw = Some doc) batch docs →
  ∃ w',
    concatenate flushed f cn batch w = (inr tt, w')
    ∧ disk w' = disk w ∧ stdout w' = stdout w.
Proof.
  intros Hd Hfile HF. unfold concatenate, open_w.
  rewrite !bind_unfold.
  assert (on_disk (create_file [f; cn] "") w
          = (inr tt, World (Some (put_path [f; cn] (File "") root))
                       (stdout w) (outbuf w))) as ->.
  { unfold on_disk, create_file. by rewrite Hd, Hfile. }
  unfold reset_outbuf at 1. cbn [disk stdout outbuf]. unfold finally.
  unfold enumerate. rewrite (imap_ext _ (λ i x, (Z.of_nat (0 + i), x))) by done.
  edestruct (append_loop_again (Z.of_nat (length batch)) batch 0
               (World (Some (put_path [f; cn] (File "") root)) (stdout w) [])
               "" docs) as (w2 & z' & Hloop & Hd2 & Hs2 & Ho2); [done|done|done|].
  rewrite Hloop. eexists. split; [reflexivity|].
  unfold close. cbn [disk stdout]. rewrite Hd2, Ho2, Hs2.
  cbn [fmap option_fmap option_map app outbuf stdout]. split; [|done].
  rewrite put_path_twice, put_path_same by done. done.
Qed.
End Again.

Lemma process_batch_again flushed batch_size folder_prefix text_ext combined_name
    file_pairs batch_num w :
  let folder := folder_name_of folder_prefix batch_num in
  let batch := batch_pairs_of file_pairs batch_size batch_num in
  settled folder combined_name batch (disk w) →
  (∀ pr, pr ∈ batch → pr.1 ≠ combined_name) →
  ∃ w',
    process_batch flushed batch_size folder_prefix text_ext combined_name false
      file_pairs batch_num w = (inr tt, w')
    ∧ disk w' = disk w.
Proof.
  intros folder batch [Hfiles (docs & Hdocs & Hfile)] Hcn.
  destruct (disk w) as [root|] eqn:Hd; [|done].
  rewrite lookup_Some_root in Hfile.
  assert (is_dir (lookup_path [folder] root) = true) as Hdir.
  { rewrite (lookup_path_cons folder [combined_name]) in Hfile.
    destruct (lookup_path [folder] root) as [[?|?]|]; done. }
  unfold process_batch. fold folder batch.
  rewrite bind_unfold.
  rewrite (on_disk_same _ w root); [|done|].
  2: { unfold mkdir_exist_ok. destruct root as [?|m]; [done|].
       rewrite lookup_path_1 in Hdir. by destruct (m !! folder) as [[?|?]|]. }
  rewrite bind_unfold, print_unfold. cbv iota beta.
  rewrite bind_unfold, print_unfold. cbv iota beta. cbn [disk stdout outbuf].
  rewrite bind_unfold.
  match goal with |- context [for_each batch _ ?w0] =>
    rewrite (transfers_again folder batch root w0) end; [|by cbn [disk]|].
  2: { intros t i Hin.
       destruct (Hfiles t i Hin) as (Hdt & Hdi & ct & ci & Hct & Hci & Hft & Hfi).
       rewrite lookup_Some_root in Hct, Hci, Hft.
       split; eapply copy2_same; try done. by left. }
  rewrite bind_unfold, print_unfold. cbv iota beta. cbn [disk stdout outbuf].
  rewrite bind_unfold.
  match goal with |- context [concatenate _ _ _ _ ?w0] =>
    destruct (concatenate_again flushed folder combined_name root batch docs w0)
      as (w5 & Hcat & Hd5 & _) end; [by cbn [disk]|done| |].
  { eapply Forall2_impl_elem_of; [exact Hdocs|].
    intros [t i] doc Hin (raw & Hraw & Hdec). split; [by apply Hcn|].
    destruct (Hfiles t i Hin) as (_ & _ & ct & ci & Hct & _ & Hft & _).
    cbn [fst] in *. rewrite lookup_Some_root in Hraw, Hct, Hft.
    exists raw. split; [congruence|done]. }
  rewrite Hcat, print_unfold. eexists. split; [reflexivity|].
  cbn [disk] in *. congruence.
Qed.

Lemma copy2_not_dot n f root root' : copy2 n f root = inr root' → dot_name n = false.
Proof. unfold copy2. by destruct (dot_name n). Qed.

Lemma transfers_copy_names folder batch w w' :
  for_each batch (transfer false folder) w = (inr tt, w') →
  ∀ t i, (t, i) ∈ batch → dot_name t = false ∧ dot_name i = false.
Proof.
  intros Hloop t i Hin.
  apply (for_each_invariant (λ _, True)
           (λ (p : string * string) _, dot_name p.1 = false ∧ dot_name p.2 = false))
    in Hloop as [_ Hpost]; [exact (Hpost (t, i) Hin)| | |done].
  - intros [t' i'] u1 u2 _ _ Hstep. split; [done|]. unfold transfer in Hstep.
    apply bind_ok in Hstep as ([] & u & H1 & H2).
    apply on_disk_ok in H1 as (? & ? & _ & H1 & _).
    apply on_disk_ok in H2 as (? & ? & _ & H2 & _).
    split; by eapply copy2_not_dot.
  - done.
Qed.

Lemma text_of_retained d d' pr doc : retained d d' → text_of d pr doc → text_of d' pr doc.
Proof. intros Hret (raw & Hraw & Hdec). exists raw. split; [by apply Hret|done]. Qed.

Lemma settled_keep f cn batch d d' :
  retained d d' →
  d' ≫= lookup_path [f] = d ≫= lookup_path [f] →
  settled f cn batch d → settled f cn batch d'.
Proof.
  intros Hret Hsame [Hfiles (docs & Hdocs & Hfile)]. split.
  - intros t i Hin.
    destruct (Hfiles t i Hin) as (Hdt & Hdi & ct & ci & Hct & Hci & Hft & Hfi).
    split; [done|]. split; [done|]. exists ct, ci.
    split; [by apply Hret|]. split; [by apply Hret|].
    split; [by rewrite (lookup_below_same d d')|by apply (held_same_folder d)].
  - exists docs. split.
    + eapply Forall2_impl; [exact Hdocs|]. intros pr doc. by apply text_of_retained.
    + by rewrite (lookup_below_same d d').
Qed.

(** A copying batch that ends normally leaves its folder settled. *)
Lemma process_batch_settles flushed batch_size folder_prefix text_ext combined_name
    file_pairs batch_num w w' :
  process_batch flushed batch_size folder_prefix text_ext combined_name false
    file_pairs batch_num w = (inr tt, w') →
  let folder := folder_name_of folder_prefix batch_num in
  let batch := batch_pairs_of file_pairs batch_size batch_num in
  ¬ member_of batch combined_name →
  settled folder combined_name batch (disk w').
Proof.
  intros Hrun folder batch Hcn.
  pose proof (process_batch_copy _ _ _ _ _ _ _ _ _ Hrun) as Hret.
  pose proof (process_batch_copy_placed _ _ _ _ _ _ _ _ _ Hrun Hcn) as Hplaced.
  assert (∀ pr, pr ∈ batch → pr.1 ≠ combined_name) as Htexts.
  { intros [t i] Hin Heq. cbn [fst] in Heq. subst t.
    apply Hcn. exists combined_name, i. split; [done|by left]. }
  pose proof (process_batch_combined _ _ _ _ _ _ _ _ _ _ Hrun Htexts)
    as (docs & Hdocs & Hfile).
  apply process_batch_stages in Hrun as (w1 & w2 & w3 & _ & _ & _ & _ & Hloop & _).
  split.
  - intros t i Hin.
    destruct (transfers_copy_names _ _ _ _ Hloop t i Hin) as [Hdt Hdi].
    destruct (Hplaced t i Hin) as (ct & ci & Hct & Hci & Hft & Hfi).
    split; [done|]. split; [done|]. exists ct, ci.
    split; [by apply Hret|]. split; [by apply Hret|]. done.
  - exists docs. split; [|done].
    eapply Forall2_impl; [exact Hdocs|]. intros pr doc. by apply text_of_retained.
Qed.

Lemma batches_again flushed batch_size folder_prefix text_ext combined_name
    file_pairs (l : list Z) w :
  (∀ b, b ∈ l →
     settled (folder_name_of folder_prefix b) combined_name
       (batch_pairs_of file_pairs batch_size b) (disk w)) →
  ¬ member_of file_pairs combined_name →
  ∃ w',
    for_each l (process_batch flushed batch_size folder_prefix text_ext combined_name
                  false file_pairs) w = (inr tt, w')
    ∧ disk w' = disk w.
Proof.
  intros Hall Hcn. revert w Hall. induction l as [|b l IH]; intros w Hall.
  - by exists w.
  - rewrite for_each_cons.
    destruct (process_batch_again flushed batch_size folder_prefix text_ext
                combined_name file_pairs b w) as (w1 & -> & Hd1).
    + apply Hall. by left.
    + intros [t i] Hin%batch_pairs_of_subset Heq. cbn [fst] in Heq. subst t.
      apply Hcn. exists combined_name, i. split; [done|by left].
    + destruct (IH w1) as (w' & Hloop & Hd').
      * intros b' Hb'. rewrite Hd1. apply Hall. by right.
      * exists w'. split; [done|congruence].
Qed.

(** X17. Copying again changes nothing, for a folder prefix without
    separator and a combined name that is a single path component: after a
    copying run that ends normally, with a positive batch size, a second
    copying run with the same arguments that discovers the same pairs and
    ends normally leaves the tree exactly as the first run left it (no file
    of a pair bearing the name of the combined file). *)
Theorem X17_copying_again_changes_nothing flushed source_dir batch_size folder_prefix
    text_ext image_ext combined_name w w1 w2 pairs :
  separator_free folder_prefix = true →
  single_component combined_name = true →
  discover text_ext image_ext (disk w) = inr pairs →
  0 < batch_size →
  ¬ member_of pairs combined_name →
  organize_files_into_batches flushed source_dir batch_size folder_prefix
    text_ext image_ext combined_name false w = (inr tt, w1) →
  discover text_ext image_ext (disk w1) = inr pairs →
  organize_files_into_batches flushed source_dir batch_size folder_prefix
    text_ext image_ext combined_name false w1 = (inr tt, w2) →
  disk w2 = disk w1.
Proof.
  intros _ _ Hd Hpos Hcn Hrun Hd1 Hrun2.
  assert (∃ w2',
            organize_files_into_batches flushed source_dir batch_size folder_prefix
              text_ext image_ext combined_name false w1 = (inr tt, w2')
            ∧ disk w2' = disk w1) as (w2' & Hrun2' & Hd2); [|congruence].
  clear Hrun2.
  destruct pairs as [|p ps].
  { destruct w1 as [[root|] so ob].
    - pose proof (organize_discovered flushed source_dir batch_size folder_prefix
                    text_ext image_ext combined_name false (World (Some root) so ob)
                    ltac:(eauto)) as Hrep.
      cbn [disk] in Hrep, Hd1. rewrite Hd1 in Hrep. destruct Hrep as [out Hrep].
      eexists. split; [exact Hrep|done].
    - eexists. split; [by apply organize_missing|done]. }
  pose proof (num_batches_ceiling (Z.of_nat (length (p :: ps))) batch_size Hpos) as Hnb.
  apply (organize_complete _ _ _ _ _ _ _ _ _ _ _ _ Hd Hnb) in Hrun
    as [[? _]|(w0 & w0' & Hw0 & Hloop & Hw1)]; [done|].
  assert (∀ b, b ∈ range (ceiling_div (Z.of_nat (length (p :: ps))) batch_size) →
            settled (folder_name_of folder_prefix b) combined_name
              (batch_pairs_of (p :: ps) batch_size b) (disk w1)) as Hsettled.
  { rewrite Hw1.
    apply (for_each_invariant_NoDup (λ _, True)
             (λ b u, settled (folder_name_of folder_prefix b) combined_name
                       (batch_pairs_of (p :: ps) batch_size b) (disk u)))
      in Hloop as [_ Hpost]; [exact Hpost|apply NoDup_range|..|done].
    - intros b u1 u2 _ _ Hstep. split; [done|].
      apply process_batch_settles in Hstep; [done|].
      intros Hmem%member_of_batch. done.
    - intros b b' u1 u2 _ _ Hbb' _ Hs Hstep.
      eapply settled_keep; [by eapply process_batch_copy| |exact Hs].
      apply process_batch_confined in Hstep as [G _]. apply G.
      + by intros [? _].
      + intros Heq%folder_name_of_inj. done. }
  pose proof (organize_discovered flushed source_dir batch_size folder_prefix
                text_ext image_ext combined_name false w1
                (discover_some_disk _ _ _ _ _ Hd1)) as Hrep.
  rewrite Hd1 in Hrep. destruct Hrep as [out Hrep]. rewrite Hnb in Hrep.
  match type of Hrep with context [for_each ?l ?b ?u] =>
    destruct (batches_again flushed batch_size folder_prefix text_ext combined_name
                (p :: ps) l u) as (w3 & Hagain & Hd3) end; [done|done|].
  rewrite Hagain in Hrep. eexists. split; [exact Hrep|]. by cbn [disk] in *.
Qed.

Lemma X17_copying_again_changes_nothing_witness :
  let w := initial_world (Some (dir_of
    [("a.txt", File "A"); ("a.jpg", File "I"); ("b.txt", File "B"); ("b.jpg", File "J");
     ("c.txt", File "C"); ("c.jpg", File "K")])) in
  let w1 := (organize_files_into_batches (λ _, "") "src" 2 "Batch" ".txt" ".jpg"
               "combined.txt" false w).2 in
  let w2 := (organize_files_into_batches (λ _, "") "src" 2 "Batch" ".txt" ".jpg"
               "combined.txt" false w1).2 in
  disk w2 = disk w1.
Proof.
  intros w w1 w2.
  apply (X17_copying_again_changes_nothing (λ _, "") "src" 2 "Batch" ".txt" ".jpg"
           "combined.txt" w w1 w2
           [("a.txt", "a.jpg"); ("b.txt", "b.jpg"); ("c.txt", "c.jpg")]).
  - reflexivity.
  - reflexivity.
  - vm_compute. reflexivity.
  - lia.
  - intros (t & i & Hin & Hn).
    repeat (apply elem_of_cons in Hin as [[= -> ->]|Hin];
            [destruct Hn as [Hn|Hn]; discriminate|]).
    by apply elem_of_nil in Hin.
  - vm_compute. reflexivity.
  - vm_compute. reflexivity.
  - vm_compute. reflexivity.
Defined.
